(** * metric.py: the zettair metric compiler, embedded in Rocq

    The development follows [scripts/metric.py] function by function:
    the tokenizer ([isop], [isdecl], [ctok], [ctok_nspace]), the
    declaration parser ([ins_decl], [process_decl]), the statement
    levelizer ([levelise]), the level propagation pass ([propagate]) and
    the template emitter ([output_decl], [print_level], the marker loop
    of the main program).

    Python values are modelled as follows.
    - [str] is [string]; integers are [Z], except token offsets and
      indentation widths, which the code only ever counts upwards from 0
      and which are [nat].
    - A dictionary is a [gmap string _].  The five dictionaries of the
      main program are objects that are passed around by reference; they
      live in the [World] and are named by [nsref] and [usedref].
    - A statement is the three-element list [[lineno, level, text]].
      These lists are mutated in place by [propagate] through aliases, so
      they live in a heap ([w_heap]) and the statement lists [post] and
      [decode] hold locations.
    - [sys.stdout] is a buffer together with the [softspace] flag of the
      Python 2 [print] statement.
    - [sys.exit(2)], an uncaught exception and a loop that never ends are
      the three abnormal outcomes of the [M] monad.  Loops whose number
      of iterations is not that of a list they walk take an iteration
      bound; running out of it is a fourth outcome, [NoFuel], which the
      properties below rule out where they state that a run returns. *)

From stdpp Require Import base gmap strings list pretty.
From Stdlib Require Import ZArith Ascii String Lia Sorted.

Open Scope string_scope.
Open Scope list_scope.
Open Scope Z_scope.

(** ** Python string primitives *)

Module Py.

(** [c.isspace()] for a byte string in the C locale. *)
Definition isspace (c : ascii) : bool :=
  let n := nat_of_ascii c in
  (Nat.eqb n 32) || (Nat.leb 9 n && Nat.leb n 13).

(** [s.isspace()]: non-empty and all characters are whitespace. *)
Fixpoint all_space (s : string) : bool :=
  match s with
  | "" => true
  | String c s' => isspace c && all_space s'
  end.

Definition str_isspace (s : string) : bool :=
  match s with
  | "" => false
  | _ => all_space s
  end.

Definition len (s : string) : Z := Z.of_nat (String.length s).

(** The longest prefix whose characters satisfy [p], and the rest. *)
Fixpoint span (p : ascii → bool) (s : string) : string * string :=
  match s with
  | "" => ("", "")
  | String c s' =>
      if p c then let '(a, b) := span p s' in (String c a, b)
      else ("", s)
  end.

Definition lstrip (s : string) : string := snd (span isspace s).

Fixpoint rstrip (s : string) : string :=
  match s with
  | "" => ""
  | String c s' =>
      match rstrip s' with
      | "" => if isspace c then "" else String c ""
      | r => String c r
      end
  end.

Definition strip (s : string) : string := lstrip (rstrip s).

Fixpoint drop (n : nat) (s : string) : string :=
  match n, s with
  | O, _ => s
  | S n', String _ s' => drop n' s'
  | S _, "" => ""
  end.

Fixpoint take (n : nat) (s : string) : string :=
  match n, s with
  | S n', String c s' => String c (take n' s')
  | _, _ => ""
  end.

(** A slice bound as Python normalises it: a negative bound counts
    from the end, and the result is clipped to [0 .. len s]. *)
Definition clip (s : string) (i : Z) : nat :=
  let i' := if i <? 0 then i + len s else i in
  Z.to_nat (Z.min (Z.max i' 0) (len s)).

(** [s[a:b]] *)
Definition slice (s : string) (a b : Z) : string :=
  let a' := clip s a in
  let b' := clip s b in
  take (b' - a') (drop a' s).

(** [s[a:]] *)
Definition slice_from (s : string) (a : Z) : string := drop (clip s a) s.

(** [s.find(sub)]: index of the first occurrence, or -1. *)
Fixpoint find_from (sub s : string) (i : Z) : Z :=
  if String.prefix sub s then i
  else match s with
       | "" => -1
       | String _ s' => find_from sub s' (i + 1)
       end.

Definition find (s sub : string) : Z := find_from sub s 0.

(** [s[0]], which raises [IndexError] on the empty string. *)
Definition head (s : string) : option ascii :=
  match s with
  | "" => None
  | String c _ => Some c
  end.

(** [s[-1]] *)
Fixpoint last (s : string) : option ascii :=
  match s with
  | "" => None
  | String c "" => Some c
  | String _ s' => last s'
  end.

(** [s.split(sep)] for a one-character separator. *)
Fixpoint split_go (sep : ascii) (cur : string) (s : string) : list string :=
  match s with
  | "" => [String.rev cur]
  | String c s' =>
      if Ascii.eqb c sep then String.rev cur :: split_go sep "" s'
      else split_go sep (String c cur) s'
  end.

Definition split (sep : ascii) (s : string) : list string := split_go sep "" s.

(** [s.split()]: the maximal runs of non-whitespace characters. *)
Fixpoint split_ws_go (cur : string) (s : string) : list string :=
  match s with
  | "" => match cur with "" => [] | _ => [String.rev cur] end
  | String c s' =>
      if isspace c
      then match cur with
           | "" => split_ws_go "" s'
           | _ => String.rev cur :: split_ws_go "" s'
           end
      else split_ws_go (String c cur) s'
  end.

Definition split_ws (s : string) : list string := split_ws_go "" s.

(** ['\n'.join(l)] *)
Fixpoint join (sep : string) (l : list string) : string :=
  match l with
  | [] => ""
  | [x] => x
  | x :: l' => x +:+ sep +:+ join sep l'
  end.

(** [c * n] for a one-character string [c]. *)
Fixpoint repeat (c : ascii) (n : nat) : string :=
  match n with
  | O => ""
  | S n' => String c (repeat c n')
  end.

Definition concat (l : list string) : string := foldr String.app "" l.

(** [s.lower()] *)
Definition lower_char (c : ascii) : ascii :=
  let n := nat_of_ascii c in
  if Nat.leb 65 n && Nat.leb n 90 then ascii_of_nat (n + 32) else c.

Fixpoint lower (s : string) : string :=
  match s with
  | "" => ""
  | String c s' => String (lower_char c) (lower s')
  end.

End Py.

(** ** The tokenizer *)

(** [isop]: the closed set of operator characters; [;] is not one. *)
Definition isop (char : ascii) : bool :=
  (Ascii.eqb char "-" || Ascii.eqb char "+" || Ascii.eqb char "," || Ascii.eqb char "="
   || Ascii.eqb char "(" || Ascii.eqb char ")" || Ascii.eqb char "?" || Ascii.eqb char ":"
   || Ascii.eqb char "*" || Ascii.eqb char "/" || Ascii.eqb char "~" || Ascii.eqb char "!"
   || Ascii.eqb char "^" || Ascii.eqb char "|" || Ascii.eqb char "&" || Ascii.eqb char "["
   || Ascii.eqb char "]" || Ascii.eqb char "{" || Ascii.eqb char "}" || Ascii.eqb char "%"
   || Ascii.eqb char "<" || Ascii.eqb char ">")%char.

(** [isdecl]: the type-qualifier words. *)
Definition isdecl (word : string) : bool :=
  String.eqb word "float" || String.eqb word "double" || String.eqb word "long"
  || String.eqb word "unsigned" || String.eqb word "signed" || String.eqb word "const"
  || String.eqb word "volatile" || String.eqb word "int" || String.eqb word "short"
  || String.eqb word "char" || String.eqb word "register" || String.eqb word "void"
  || String.eqb word "union" || String.eqb word "struct" || String.eqb word "*"
  || String.eqb word "**" || String.eqb word "***" || String.eqb word "****".

(** The class of characters that extend a word token. *)
Definition isword (c : ascii) : bool :=
  negb (isop c) && negb (Ascii.eqb c ";"%char) && negb (Py.isspace c).

(** The [while (len(line))] loop of [ctok].  Every iteration removes at
    least one character, so [String.length line] iterations are enough;
    [fuel] counts them. *)
Fixpoint ctok_loop (fuel : nat) (line : string) (char : nat)
    (toks : list string) (chars : list nat) : list string * list nat :=
  match fuel, line with
  | _, "" => (toks, chars)
  | O, _ => (toks, chars)
  | S fuel', String c line =>
      let schar := char in
      if Py.isspace c then
        let '(run, line) := Py.span Py.isspace line in
        let char := (char + String.length run)%nat in
        ctok_loop fuel' line (char + 1)%nat (toks ++ [String c run]) (chars ++ [schar])
      else if isop c then
        let '(run, line) := Py.span isop line in
        let char := (char + String.length run)%nat in
        ctok_loop fuel' line (char + 1)%nat (toks ++ [String c run]) (chars ++ [schar])
      else if Ascii.eqb c ";"%char then
        ctok_loop fuel' line (char + 1)%nat (toks ++ [";"]) (chars ++ [schar])
      else
        let '(run, line) := Py.span isword line in
        let char := (char + String.length run)%nat in
        ctok_loop fuel' line (char + 1)%nat (toks ++ [String c run]) (chars ++ [schar])
  end.

Definition ctok (line : string) : list string * list nat :=
  ctok_loop (String.length line) line 0%nat [] [].

(** [ctok_nspace]: the tokens that are not whitespace, with their offsets. *)
Definition ctok_nspace (line : string) : list string * list nat :=
  let '(toks, chars) := ctok line in
  let filtered := filter (λ x, negb (Py.str_isspace x.1)) (zip toks chars) in
  (map fst filtered, map snd filtered).

(** ** Program state *)

Definition nl : string := String "010"%char "".
Definition dquote : string := String "034"%char "".

(** [sys.stdout] with the [softspace] attribute that the Python 2
    [print] statement keeps on the file object. *)
Record Stdout := { buf : string; softspace : bool }.

(** An item of a [print] statement. *)
Inductive pitem := PStr (s : string) | PInt (z : Z).

Definition pitem_str (i : pitem) : string :=
  match i with
  | PStr s => s
  | PInt z => pretty z
  end.

(** After a string item, [softspace] is set unless the string ends in a
    whitespace character other than a blank; after any other object it
    is set. *)
Definition sets_softspace (i : pitem) : bool :=
  match i with
  | PStr s =>
      match Py.last s with
      | None => true
      | Some c => negb (Py.isspace c) || Ascii.eqb c " "%char
      end
  | PInt _ => true
  end.

(** One item of a [print] statement (the PRINT_ITEM instruction). *)
Definition print_item (i : pitem) (o : Stdout) : Stdout :=
  let b := if softspace o then buf o +:+ " " else buf o in
  {| buf := b +:+ pitem_str i; softspace := sets_softspace i |}.

(** The end of a [print] statement without a trailing comma. *)
Definition print_newline (o : Stdout) : Stdout :=
  {| buf := buf o +:+ nl; softspace := false |}.

(** [sys.stdout.write(s)]; the file method clears [softspace]. *)
Definition stdout_write (s : string) (o : Stdout) : Stdout :=
  {| buf := buf o +:+ s; softspace := false |}.

Module Decl.
(** The class [Decl]; the constructor strips [comment]. *)
Record t := mk {
  pre : string;
  lineno : Z;
  name : string;
  type : string;
  init : string;
  fninit : string;
  level : Z;
  macro : string;
  comment : string;
  contrib : string;
  ex : string
}.

Definition new (lineno : Z) (name type init : string) (level : Z)
    (macro comment fninit pre contrib ex : string) : t :=
  {| pre := pre; lineno := lineno; name := name; type := type; init := init;
     fninit := fninit; level := level; macro := macro;
     comment := Py.strip comment; contrib := contrib; ex := ex |}.

(** [d.level = v] *)
Definition set_level (v : Z) (d : t) : t :=
  {| pre := pre d; lineno := lineno d; name := name d; type := type d;
     init := init d; fninit := fninit d; level := v; macro := macro d;
     comment := comment d; contrib := contrib d; ex := ex d |}.
End Decl.

(** A statement [[lineno, level, text]]. *)
Record Stmt := { s_lineno : Z; s_level : Z; s_text : string }.

(** [s[1] = v] *)
Definition stmt_set_level (v : Z) (s : Stmt) : Stmt :=
  {| s_lineno := s_lineno s; s_level := v; s_text := s_text s |}.

(** The dictionaries of the main program. *)
Inductive nsref := Params | PostDecl | DecodeDecl.
Inductive usedref := DecodeUsed | PostUsed.
(** The statement lists of the main program. *)
Inductive listref := Post | Decode.

Record World := {
  w_params : gmap string Decl.t;
  w_post_decl : gmap string Decl.t;
  w_decode_decl : gmap string Decl.t;
  w_post_used : gmap string string;
  w_decode_used : gmap string string;
  w_heap : list Stmt;        (* the statement objects, by location *)
  w_post : list nat;         (* the list object [post] *)
  w_decode : list nat;       (* the list object [decode] *)
  w_file : list string;      (* lines of the description file not yet read *)
  w_out : Stdout
}.

Definition get_ns (r : nsref) (w : World) : gmap string Decl.t :=
  match r with
  | Params => w_params w
  | PostDecl => w_post_decl w
  | DecodeDecl => w_decode_decl w
  end.

Definition set_ns (r : nsref) (m : gmap string Decl.t) (w : World) : World :=
  {| w_params := match r with Params => m | _ => w_params w end;
     w_post_decl := match r with PostDecl => m | _ => w_post_decl w end;
     w_decode_decl := match r with DecodeDecl => m | _ => w_decode_decl w end;
     w_post_used := w_post_used w; w_decode_used := w_decode_used w;
     w_heap := w_heap w; w_post := w_post w; w_decode := w_decode w;
     w_file := w_file w; w_out := w_out w |}.

Definition get_used (r : usedref) (w : World) : gmap string string :=
  match r with
  | DecodeUsed => w_decode_used w
  | PostUsed => w_post_used w
  end.

Definition set_used (r : usedref) (m : gmap string string) (w : World) : World :=
  {| w_params := w_params w; w_post_decl := w_post_decl w;
     w_decode_decl := w_decode_decl w;
     w_post_used := match r with PostUsed => m | _ => w_post_used w end;
     w_decode_used := match r with DecodeUsed => m | _ => w_decode_used w end;
     w_heap := w_heap w; w_post := w_post w; w_decode := w_decode w;
     w_file := w_file w; w_out := w_out w |}.

Definition get_list (r : listref) (w : World) : list nat :=
  match r with
  | Post => w_post w
  | Decode => w_decode w
  end.

Definition set_list (r : listref) (l : list nat) (w : World) : World :=
  {| w_params := w_params w; w_post_decl := w_post_decl w;
     w_decode_decl := w_decode_decl w;
     w_post_used := w_post_used w; w_decode_used := w_decode_used w;
     w_heap := w_heap w;
     w_post := match r with Post => l | _ => w_post w end;
     w_decode := match r with Decode => l | _ => w_decode w end;
     w_file := w_file w; w_out := w_out w |}.

Definition set_heap (h : list Stmt) (w : World) : World :=
  {| w_params := w_params w; w_post_decl := w_post_decl w;
     w_decode_decl := w_decode_decl w;
     w_post_used := w_post_used w; w_decode_used := w_decode_used w;
     w_heap := h; w_post := w_post w; w_decode := w_decode w;
     w_file := w_file w; w_out := w_out w |}.

Definition set_file (f : list string) (w : World) : World :=
  {| w_params := w_params w; w_post_decl := w_post_decl w;
     w_decode_decl := w_decode_decl w;
     w_post_used := w_post_used w; w_decode_used := w_decode_used w;
     w_heap := w_heap w; w_post := w_post w; w_decode := w_decode w;
     w_file := f; w_out := w_out w |}.

Definition set_out (o : Stdout) (w : World) : World :=
  {| w_params := w_params w; w_post_decl := w_post_decl w;
     w_decode_decl := w_decode_decl w;
     w_post_used := w_post_used w; w_decode_used := w_decode_used w;
     w_heap := w_heap w; w_post := w_post w; w_decode := w_decode w;
     w_file := w_file w; w_out := o |}.

(** ** The monad of the program *)

Inductive exn := IndexError | KeyError | TypeError.

(** The outcome of running a piece of the program from a world:
    - [Ok a w]: it returns [a];
    - [Exit c w]: it called [sys.exit(c)];
    - [Raise e w]: an exception that nothing catches;
    - [Hang w]: it entered a loop that never ends;
    - [NoFuel]: the iteration bound given to the model was too small
      (an artefact of the model, not a behaviour of the program). *)
Inductive Res (A : Type) :=
  | Ok (a : A) (w : World)
  | Exit (code : Z) (w : World)
  | Raise (e : exn) (w : World)
  | Hang (w : World)
  | NoFuel.
Arguments Ok {A} a w.
Arguments Exit {A} code w.
Arguments Raise {A} e w.
Arguments Hang {A} w.
Arguments NoFuel {A}.

Definition M (A : Type) : Type := World → Res A.

Global Instance M_ret : MRet M := λ A a w, Ok a w.
Global Instance M_bind : MBind M := λ A B f m w,
  match m w with
  | Ok a w' => f a w'
  | Exit c w' => Exit c w'
  | Raise e w' => Raise e w'
  | Hang w' => Hang w'
  | NoFuel => NoFuel
  end.

Definition get : M World := λ w, Ok w w.
Definition modify (f : World → World) : M () := λ w, Ok () (f w).
Definition sys_exit {A} (code : Z) : M A := λ w, Exit code w.
Definition raise {A} (e : exn) : M A := λ w, Raise e w.
Definition hang {A} : M A := λ w, Hang w.
Definition no_fuel {A} : M A := λ _, NoFuel.

(** [e] when [o] is [None] (an index or key that does not exist). *)
Definition unwrap {A} (e : exn) (o : option A) : M A :=
  match o with
  | Some a => mret a
  | None => raise e
  end.

(** [for x in l: body x] *)
Fixpoint for_each {A} (l : list A) (body : A → M ()) : M () :=
  match l with
  | [] => mret ()
  | x :: l' => body x;; for_each l' body
  end.

(** The [print] statement; [newline] is false for a trailing comma. *)
Definition py_print (items : list pitem) (newline : bool) : M () :=
  modify (λ w,
    let o := foldl (λ o i, print_item i o) (w_out w) items in
    set_out (if newline then print_newline o else o) w).

Definition write (s : string) : M () :=
  modify (λ w, set_out (stdout_write s (w_out w)) w).

(** [file.readline()]: the next line, or the empty string at the end. *)
Definition readline : M string := λ w,
  match w_file w with
  | [] => Ok "" w
  | l :: f => Ok l (set_file f w)
  end.

(** ** The declaration parser *)

(** A slot of the list object [used] of [ins_decl]: a reference to a
    used-dictionary, or (after [used[0] = t]) a string. *)
Inductive uslot := UDict (r : usedref) | UStr (s : string).

(** [u[t] = t] for the object in a slot; a string does not support item
    assignment. *)
Definition uslot_setitem (u : uslot) (t : string) : M () :=
  match u with
  | UDict r => modify (λ w, set_used r (<[t := t]> (get_used r w)) w)
  | UStr _ => raise TypeError
  end.

(** [t in n] for a dictionary [n]. *)
Definition has_key {V} (n : gmap string V) (t : string) : bool :=
  match n !! t with
  | Some _ => true
  | None => false
  end.

(** The loop of [ins_decl] that consumes the type qualifiers.  [None]
    is the [IndexError] of [toks[0]] after a final [struct] or [union]. *)
Fixpoint type_loop (toks : list string) (type : string) : option (string * list string) :=
  match toks with
  | [] => Some (type, [])
  | t :: toks' =>
      if isdecl t then
        if String.eqb t "struct" || String.eqb t "union" then
          match toks' with
          | [] => None
          | t' :: toks'' => type_loop toks'' ((type +:+ t +:+ " ") +:+ t' +:+ " ")
          end
        else type_loop toks' (type +:+ t +:+ " ")
      else Some (type, toks)
  end.

(** [toks[-1]] and [toks[0:-1]] *)
Definition py_last {A} (l : list A) : option A := last l.
Definition drop_last {A} (l : list A) : list A := take (List.length l - 1) l.

Section Metric.

(** [args[0]], the name of the description file, a global that the
    error messages read. *)
Variable args0 : string.

(** [print '#line', lineno, '"' + args[0] + '"'] *)
Definition print_hash_line (lineno : Z) : M () :=
  py_print [PStr "#line"; PInt lineno; PStr (dquote +:+ args0 +:+ dquote)] true.

(** [print '#error "msg"'] *)
Definition print_hash_error (msg : string) : M () :=
  py_print [PStr ("#error " +:+ dquote +:+ msg +:+ dquote)] true.

(** The last loop of [ins_decl], over the tokens of [contrib]; it
    assigns to slot 0 of the list [used]. *)
Fixpoint contrib_loop (namespaces : list nsref) (toks : list string)
    (used : list uslot) : M (list uslot) :=
  match toks with
  | [] => mret used
  | t :: toks' =>
      n0 ← unwrap IndexError (namespaces !! 0%nat);
      w ← get;
      used ← (if has_key (get_ns n0 w) t then
                match used with
                | [] => raise IndexError
                | _ :: _ => mret (<[0%nat := UStr t]> used)
                end
              else mret used);
      contrib_loop namespaces toks' used
  end.

(** [ins_decl].  The result is the final content of the list object
    [used] that the caller passed (Python returns [None]; the list is
    an argument that the function assigns into). *)
Definition ins_decl (namespaces : list nsref) (used : list usedref)
    (line : string) (level : Z) (macro : string) (lineno : Z)
    (fninit pre contrib ex : string) : M (list uslot) :=
  let used := UDict <$> used in
  (* check for and remove trailing comment *)
  let comment := "" in
  let pos := Py.find line "#" in
  let '(comment, line) :=
    if 0 <? pos then (Py.slice_from line (pos + 1), Py.slice line 0 pos)
    else (comment, line) in
  let pos := Py.find line "/*" in
  '(comment, line) ←
    (if 0 <? pos then
       let pos2 := Py.find line "*/" in
       if 0 <? pos2 then
         let pos2 := pos2 + 2 in
         mret (Py.slice line (pos + 2) (pos2 - 2),
               Py.slice line 0 pos +:+ Py.slice_from line pos2)
       else
         print_hash_line lineno;;
         print_hash_error "multiline comment in declaration";;
         mret (comment, line)
     else mret (comment, line));
  let '(toks, chars) := ctok_nspace (Py.rstrip line) in
  '(type, toks) ← unwrap IndexError (type_loop toks "");
  match toks with
  | tok0 :: _ =>
      (* check for namespace collisions *)
      for_each namespaces (λ n,
        w ← get;
        if has_key (get_ns n w) tok0 then
          print_hash_line lineno;;
          py_print [PStr ("#error " +:+ dquote +:+ "duplicate");
                    PStr "declaration '"; PStr (Py.rstrip line);
                    PStr ("'" +:+ dquote)] true;;
          sys_exit 2
        else mret ());;
      (* check for and remove semi-colon *)
      toks ← (if bool_decide (py_last toks = Some ";") then mret (drop_last toks)
              else
                print_hash_line lineno;;
                print_hash_error "declaration without semi-colon ending";;
                sys_exit 2);
      (* identify initialiser without tokenising *)
      off ← unwrap IndexError (chars !! (List.length chars - List.length toks)%nat);
      let init := Py.slice_from line (Z.of_nat off) in
      let init := Py.slice init 0 (Py.find init ";") in
      (* identify quantities used *)
      for_each (tail toks) (λ t,
        for_each namespaces (λ n,
          w ← get;
          if has_key (get_ns n w) t then for_each used (λ u, uslot_setitem u t)
          else mret ()));;
      (* accept declaration *)
      name ← unwrap IndexError (head toks);
      for_each namespaces (λ n,
        modify (λ w,
          set_ns n (<[name := Decl.new lineno name (Py.strip type) (Py.strip init)
                              level macro comment fninit pre contrib ex]>
                      (get_ns n w)) w));;
      (* identify quantities used in contrib *)
      let '(toks, chars) := ctok_nspace contrib in
      contrib_loop namespaces toks used
  | [] =>
      print_hash_line lineno;;
      py_print [PStr ("#error " +:+ dquote +:+ "error parsing declaration'");
                PStr (Py.rstrip line); PStr ("'" +:+ dquote)] true;;
      sys_exit 2
  end.

(** [process_decl]: the declarations at the start of a function body.
    [fuel] bounds the iterations of the loop; each one reads a line. *)
Fixpoint process_decl_loop (fuel : nat) (decl : nsref) (decl_used : usedref)
    (line : string) (lineno : Z) : M (Z * string) :=
  if negb (String.eqb line "") && negb (String.eqb (Py.rstrip line) "}") then
    match fuel with
    | O => no_fuel
    | S fuel' =>
        (* in decl section *)
        returned ←
          (if (0 <? Py.len (Py.strip line))
              && negb (bool_decide (Py.head (Py.strip line) = Some "#"%char)) then
             let '(toks, chars) := ctok_nspace line in
             tok0 ← unwrap IndexError (head toks);
             if isdecl tok0 then
               ins_decl [decl] [decl_used] line 1 "" lineno "" "" ""
                        "user declared quantity";;
               mret None
             else mret (Some (lineno, line))
           else mret None);
        match returned with
        | Some r => mret r
        | None =>
            (* next line *)
            line ← readline;
            process_decl_loop fuel' decl decl_used line (lineno + 1)
        end
    end
  else if String.eqb line "" then
    print_hash_line lineno;;
    print_hash_error "unexpected EOF";;
    sys_exit 2
  else mret (lineno, line).

Definition process_decl (fuel : nat) (decl : nsref) (decl_used : usedref)
    (lineno : Z) : M (Z * string) :=
  (* start with next line *)
  line ← readline;
  process_decl_loop fuel decl decl_used line (lineno + 1).

(** ** The statement levelizer *)

(** The assignment operators that [levelise] recognises. *)
Definition is_assign_op (t : string) : bool :=
  String.eqb t "=" || String.eqb t "+=" || String.eqb t "-=" || String.eqb t "/="
  || String.eqb t "*=" || String.eqb t "&=" || String.eqb t "|=" || String.eqb t "^=".

(** [list.append([lineno, level, text])]: a new statement object, and
    its location at the end of the list object. *)
Definition list_append (list : listref) (s : Stmt) : M () :=
  modify (λ w,
    let loc := List.length (w_heap w) in
    set_list list (get_list list w ++ [loc]) (set_heap (w_heap w ++ [s]) w)).

(** The loop [for t in ...: if (t in decl.keys()): ...] that both kinds
    of statement run over their operands; [level] is its local. *)
Fixpoint operand_loop (decl : nsref) (used : usedref) (lineno : Z)
    (toks : list string) (level : Z) : M Z :=
  match toks with
  | [] => mret level
  | t :: toks' =>
      w ← get;
      match get_ns decl w !! t with
      | Some d =>
          modify (λ w, set_used used (<[t := t]> (get_used used w)) w);;
          level ← (if Decl.level d =? 6 then
                     print_hash_line lineno;;
                     print_hash_error "accumulator used as rvalue";;
                     mret level
                   else if level <? Decl.level d then mret (Decl.level d)
                   else mret level);
          operand_loop decl used lineno toks' level
      | None => operand_loop decl used lineno toks' level
      end
  end.

(** The loop [while (toks[-1] != ';')] that extends the logical line.
    At the end of the file [readline] returns the empty string for
    ever, the tokens never change, and the loop does not end. *)
Fixpoint extend_loop (fuel : nat) (toks : list string) (line : string)
    (lineno : Z) : M (list string * string * Z) :=
  last_tok ← unwrap IndexError (py_last toks);
  if String.eqb last_tok ";" then mret (toks, line, lineno)
  else
    match fuel with
    | O => no_fuel
    | S fuel' =>
        w ← get;
        match w_file w with
        | [] => hang
        | _ :: _ =>
            nline ← readline;
            let lineno := lineno + 1 in
            let '(ntoks, nchars) := ctok_nspace nline in
            extend_loop fuel' (toks ++ ntoks) (Py.rstrip line +:+ " " +:+ nline) lineno
        end
    end.

(** The body of the loop of [levelise] for one line; the result is the
    line number after it. *)
Definition levelise_line (fuel : nat) (line : string) (lineno : Z)
    (decl : nsref) (list : listref) (used : usedref) : M Z :=
  let '(toks, chars) := ctok_nspace line in
  w ← get;
  if (2 <? Z.of_nat (List.length toks))
     && from_option (has_key (get_ns decl w)) false (toks !! 0%nat)
     && from_option is_assign_op false (toks !! 1%nat) then
    (* assignment statement: extend logical line and tokenise it *)
    '(toks, line, lineno) ← extend_loop fuel toks line lineno;
    tok0 ← unwrap IndexError (toks !! 0%nat);
    w ← get;
    target ← unwrap KeyError (get_ns decl w !! tok0);
    let level := 1 in
    (* check that we're not assigning to something we're not supposed to *)
    (if (Decl.lineno target =? 0)
        && String.eqb (Py.slice (Decl.type target) 0 (Py.len "const")) "const" then
       print_hash_line lineno;;
       print_hash_error "assigning to const quantity"
     else mret ());;
    modify (λ w, set_used used (<[tok0 := tok0]> (get_used used w)) w);;
    level ← operand_loop decl used lineno (drop 2 toks) level;
    (* increase level of assigned quantity *)
    w ← get;
    match get_ns decl w !! tok0 with
    | Some d =>
        modify (λ w, set_ns decl (<[tok0 := Decl.set_level level d]> (get_ns decl w)) w)
    | None => mret ()
    end;;
    list_append list {| s_lineno := lineno; s_level := level; s_text := Py.strip line |};;
    mret lineno
  else if (0 <? Z.of_nat (List.length toks))
          && bool_decide (Py.head (Py.strip line) = Some "#"%char) then
    list_append list
      {| s_lineno := lineno; s_level := 1;
         s_text := "/* " +:+ Py.lstrip (Py.slice_from (Py.strip line) 1) +:+ " */" |};;
    mret lineno
  else
    (* its a different type of statement, check level differently *)
    level ← operand_loop decl used lineno toks 1;
    list_append list {| s_lineno := lineno; s_level := level; s_text := Py.strip line |};;
    mret lineno.

(** [levelise]; [fuel] bounds the iterations of each of its loops. *)
Fixpoint levelise (fuel : nat) (line : string) (lineno : Z)
    (decl : nsref) (list : listref) (used : usedref) : M (Z * string) :=
  if negb (String.eqb line "") && negb (String.eqb (Py.rstrip line) "}") then
    match fuel with
    | O => no_fuel
    | S fuel' =>
        lineno ← levelise_line fuel' line lineno decl list used;
        (* next line *)
        line ← readline;
        levelise fuel' line (lineno + 1) decl list used
    end
  else mret (lineno, line).

(** ** Level propagation *)

(** One loop of [propagate] over the statement objects at [locs]: a
    statement whose text contains [has] and not [lacks] takes the
    level of the statement scanned before it, when that is higher. *)
Fixpoint propagate_loop (has lacks : string) (locs : list nat)
    (prevlevel : Z) : M () :=
  match locs with
  | [] => mret ()
  | loc :: locs' =>
      w ← get;
      s ← unwrap IndexError (w_heap w !! loc);
      s ← (if (0 <=? Py.find (s_text s) has) && (Py.find (s_text s) lacks <? 0)
              && (s_level s <? prevlevel) then
             let s' := stmt_set_level prevlevel s in
             modify (λ w, set_heap (<[loc := s']> (w_heap w)) w);;
             mret s'
           else mret s);
      propagate_loop has lacks locs' (s_level s)
  end.

(** [propagate].  [rev] is a copy of the list, holding the same
    statement objects.  The statement [rev.reverse] only looks the
    method up and does not call it, so [rev] keeps the order of
    [statements]. *)
Definition propagate (statements : listref) : M () :=
  w ← get;
  let statements := get_list statements w in
  propagate_loop "}" "{" statements 0;;
  let rev := map (λ x, x) statements in
  propagate_loop "{" "}" rev 0.

End Metric.

(** ** The emitter *)

(** [indent], with the default [prestr = ' ']. *)
Definition indent (str : string) (dent : nat) : string :=
  Py.join nl (map (λ x, Py.repeat " "%char dent +:+ x) (Py.split "010"%char str)).

(** [len(x) - len(x.lstrip())] *)
Definition indent_width (x : string) : nat :=
  (String.length x - String.length (Py.lstrip x))%nat.

(** [dedent]; [reduce] raises [TypeError] on an empty sequence, which
    the function catches to use 0. *)
Definition dedent (str : string) : string :=
  let lines := Py.split "010"%char str in
  let widths :=
    map indent_width (filter (λ x, 0 <? Py.len (Py.lstrip x)) lines) in
  let dent := match widths with
              | [] => 0%nat
              | n :: ns => foldl Nat.min n ns
              end in
  Py.join nl
    (map (λ x, if 0 <? Py.len (Py.lstrip x) then
                 match Py.drop dent x with
                 | "" => x
                 | y => y
                 end
               else x) lines).

(** [definitions.sort(lambda x, y: x.lineno - y.lineno)]; the sort is
    stable. *)
Fixpoint insert_by_lineno (d : Decl.t) (l : list Decl.t) : list Decl.t :=
  match l with
  | [] => [d]
  | x :: l' =>
      if Decl.lineno d <=? Decl.lineno x then d :: l
      else x :: insert_by_lineno d l'
  end.

Definition sort_by_lineno (l : list Decl.t) : list Decl.t :=
  foldr insert_by_lineno [] l.

(** The text of a token after macro replacement. *)
Definition replace_tok (macros : gmap string string) (t : string) : string :=
  match macros !! t with
  | Some m => m
  | None => t
  end.

(** [output_decl]; [mfile] and [params] are not used by the function. *)
Definition output_decl (definitions : list Decl.t) (dent : string)
    (macros : gmap string string) : M () :=
  let definitions := sort_by_lineno definitions in
  for_each definitions (λ d,
    (* check that it isn't a pre-defined quantity that we've already declared *)
    if negb (Decl.lineno d =? -1) || (0 <? Py.len (Decl.macro d))
       || (0 <? Py.len (Decl.init d)) || (0 <? Py.len (Decl.fninit d)) then
      if Py.len (Decl.macro d) =? 0 then
        let str := dent +:+ Decl.type d in
        let str := if (0 <? Py.len (Decl.type d))
                      && bool_decide (Py.last (Decl.type d) = Some "*"%char)
                   then str +:+ Decl.name d
                   else str +:+ " " +:+ Decl.name d in
        str ← (if 0 <? Py.len (Decl.init d) then
                 let str := str +:+ " " in
                 (* output the line, replacing parameters *)
                 let '(toks, spaces) := ctok (Decl.init d) in
                 let str := foldl (λ str t, str +:+ replace_tok macros t) str toks in
                 py_print [] true;;
                 mret str
               else mret str);
        let str := str +:+ ";" in
        py_print [PStr str] true
      else mret ()
    else mret ());;
  for_each definitions (λ d,
    if 0 <? Py.len (Decl.fninit d) then
      py_print [PStr (indent (dedent (Decl.fninit d)) (String.length dent))] true
    else mret ()).

(** The loop of [print_level].  [statements] is the local variable: each
    iteration binds it to the new list [statements[1:]]. *)
Fixpoint print_level_loop (statements : list nat) (level : Z) (dent : Z)
    (macros : gmap string string) (prevline : Z) : M () :=
  match statements with
  | [] => mret ()
  | loc :: statements =>
      w ← get;
      l ← unwrap IndexError (w_heap w !! loc);
      if s_level l =? level then
        let prevline := s_lineno l in
        (* check if we need to decrease the dent *)
        let dent := if (0 <=? Py.find (s_text l) "}") && (Py.find (s_text l) "{" <? 0)
                    then dent - 4 else dent in
        (* output the line, replacing parameters *)
        let '(toks, spaces) := ctok (s_text l) in
        write (Py.repeat " "%char (Z.to_nat dent));;
        for_each toks (λ t, write (replace_tok macros t));;
        py_print [] true;;
        (* check if we need to increase the dent *)
        let dent := if (0 <=? Py.find (s_text l) "{") && (Py.find (s_text l) "}" <? 0)
                    then dent + 4 else dent in
        print_level_loop statements level dent macros prevline
      else print_level_loop statements level dent macros prevline
  end.

(** [print_level]; [name] is not used by the function. *)
Definition print_level (statements : listref) (level : Z) (dent : Z)
    (macros : gmap string string) : M () :=
  w ← get;
  print_level_loop (get_list statements w) level dent macros (-1).

(** [next_tok]: the tokens from the next one that is not whitespace. *)
Fixpoint next_tok (toks : list string) : list string :=
  match toks with
  | [] => []
  | t :: toks' => if Py.str_isspace t then next_tok toks' else toks
  end.

Definition contrib_replace (x : Decl.t) : string :=
  if 0 <? Py.len (Decl.contrib x) then Decl.contrib x else Decl.macro x.

(** [get_replace_map] *)
Definition get_replace_map (decls : gmap string Decl.t)
    (fn : Decl.t → string) : gmap string string :=
  omap (λ d, if 0 <? Py.len (fn d) then Some ("(" +:+ fn d +:+ ")") else None) decls.

(** [pre_infer].  Python iterates over the dictionary in hash order;
    here the order is that of [map_to_list]. *)
Definition pre_infer (used : gmap string string) (decl : gmap string Decl.t)
    : list string :=
  map (λ kd, Decl.pre kd.2)
      (filter (λ kd, has_key used kd.1 && (0 <? Py.len (Decl.pre kd.2)))
              (map_to_list decl)).

(** [map(lambda x: decl[x], used.keys())] *)
Definition used_decls (decl : gmap string Decl.t) (used : gmap string string)
    : M (list Decl.t) :=
  let keys := (map_to_list used).*1 in
  foldr (λ k acc, d ← unwrap KeyError (decl !! k); l ← acc; mret (d :: l))
        (mret []) keys.

(** ** The main program *)

Section Main.

(** [args[0]] and [args[1]]: the description file and the template. *)
Variable args0 : string.
Variable args1 : string.

(** The world in which the main program creates its dictionaries and
    lists; [file] is the content of the description file. *)
Definition empty_world (file : list string) : World :=
  {| w_params := ∅; w_post_decl := ∅; w_decode_decl := ∅;
     w_post_used := ∅; w_decode_used := ∅;
     w_heap := []; w_post := []; w_decode := [];
     w_file := file; w_out := {| buf := ""; softspace := false |} |}.

(** The pre-declared quantities. *)
Definition declare_builtins : M () :=
  ins_decl args0 [DecodeDecl] [DecodeUsed]
    "const unsigned int f_t;" 1
    "query->term[qterm].f_t" (-1)
    ""
    ""
    ""
    "number of documents in collection term occurs in";;
  ins_decl args0 [DecodeDecl] [DecodeUsed]
    "const unsigned int F_t;" 1
    "query->term[qterm].F_t" (-1)
    ""
    ""
    ""
    "number of times term occurs in collection";;
  ins_decl args0 [DecodeDecl] [DecodeUsed]
    "const unsigned int f_dt;" 3
    "" (-1)
    ""
    ""
    ""
    "number of times term occurs in current document";;
  ins_decl args0 [DecodeDecl; PostDecl] [DecodeUsed; PostUsed]
    "float accumulator;" 2
    "acc->acc.weight" (-1)
    ""
    ""
    ""
    "accumulated score of document";;
  ins_decl args0 [DecodeDecl; PostDecl] [DecodeUsed; PostUsed]
    "const unsigned int dterms = iobtree_size(idx->vocab);" 1
    "" (-1)
    ""
    ""
    ""
    "number of distinct terms in the collection";;
  ins_decl args0 [DecodeDecl; PostDecl] [DecodeUsed; PostUsed]
    "const double terms = ((double) UINT_MAX) * idx->stats.terms_high + idx->stats.terms_low;" 1
    "" (-1)
    ""
    ""
    ""
    "number of terms in the collection";;
  ins_decl args0 [DecodeDecl; PostDecl] [DecodeUsed; PostUsed]
    "const unsigned int N = docmap_entries(idx->map);" 1
    "" (-1)
    ""
    ""
    ""
    "number of documents in the collection";;
  ins_decl args0 [DecodeDecl; PostDecl] [DecodeUsed; PostUsed]
    "double avg_D_bytes;" 1
    "" (-1)
    ("         if (docmap_avg_bytes(idx->map, &avg_D_bytes) != DOCMAP_OK) {" +:+ nl +:+
     "             return SEARCH_EINVAL;" +:+ nl +:+
     "         }")
    ""
    ""
    "average bytes per document in the collection";;
  ins_decl args0 [DecodeDecl; PostDecl] [DecodeUsed; PostUsed]
    "double avg_D_terms;" 1
    "" (-1)
    ("         if (docmap_avg_words(idx->map, &avg_D_terms) != DOCMAP_OK) {" +:+ nl +:+
     "             return SEARCH_EINVAL;" +:+ nl +:+
     "         }")
    ""
    ""
    "average terms per document in the collection";;
  ins_decl args0 [DecodeDecl; PostDecl] [DecodeUsed; PostUsed]
    "double avg_D_dterms;" 1
    "" (-1)
    ("         if (docmap_avg_distinct_words(idx->map, &avg_D_dterms) != DOCMAP_OK) {" +:+ nl +:+
     "             return SEARCH_EINVAL;" +:+ nl +:+
     "         }")
    ""
    ""
    "average distinct terms per document in the collection";;
  ins_decl args0 [DecodeDecl; PostDecl] [DecodeUsed; PostUsed]
    "double avg_D_weight;" 1
    "" (-1)
    ("if (docmap_avg_weight(idx->map, &avg_D_weight) != DOCMAP_OK) {" +:+ nl +:+
     "             return SEARCH_EINVAL;" +:+ nl +:+
     "         }")
    ""
    ""
    "average cosine weight per document in the collection";;
  ins_decl args0 [DecodeDecl; PostDecl] [DecodeUsed; PostUsed]
    "const unsigned int Q_terms = search_qterms(query);" 1
    "" (-1)
    ""
    ""
    ""
    "number of terms in the query";;
  ins_decl args0 [DecodeDecl; PostDecl] [DecodeUsed; PostUsed]
    "const unsigned int Q_dterms;" 1
    "query->terms" (-1)
    ""
    ""
    ""
    "number of distinct terms in the query";;
  ins_decl args0 [DecodeDecl; PostDecl] [DecodeUsed; PostUsed]
    "const float Q_weight = search_qweight(query);" 1
    "" (-1)
    ""
    ""
    ""
    "cosine weight of query";;
  ins_decl args0 [DecodeDecl; PostDecl] [DecodeUsed; PostUsed]
    "const unsigned int D_bytes;" 2
    "docmap_get_bytes_cached(idx->map, acc->acc.docno)" (-1)
    ""
    "if (docmap_cache(idx->map, docmap_get_cache(idx->map) | DOCMAP_CACHE_BYTES) != DOCMAP_OK) return SEARCH_EINVAL;"
    "((float) avg_D_bytes)"
    "number of bytes in the current document";;
  ins_decl args0 [DecodeDecl; PostDecl] [DecodeUsed; PostUsed]
    "const unsigned int D_terms;" 2
    "DOCMAP_GET_WORDS(idx->map, acc->acc.docno)" (-1)
    ""
    "if (docmap_cache(idx->map, docmap_get_cache(idx->map) | DOCMAP_CACHE_WORDS) != DOCMAP_OK) return SEARCH_EINVAL;"
    "((float) avg_D_terms)"
    "number of terms in the current document";;
  ins_decl args0 [DecodeDecl; PostDecl] [DecodeUsed; PostUsed]
    "const unsigned int D_dterms;" 2
    "DOCMAP_GET_DISTINCT_WORDS(idx->map, acc->acc.docno)" (-1)
    ""
    "if (docmap_cache(idx->map, docmap_get_cache(idx->map) | DOCMAP_CACHE_DISTINCT_WORDS) != DOCMAP_OK) return SEARCH_EINVAL;"
    "((float) avg_D_dterms)"
    "number of distinct terms in the current document";;
  ins_decl args0 [DecodeDecl; PostDecl] [DecodeUsed; PostUsed]
    "const float D_weight;" 2
    "DOCMAP_GET_WEIGHT(idx->map, acc->acc.docno)" (-1)
    ""
    "if (docmap_cache(idx->map, docmap_get_cache(idx->map) | DOCMAP_CACHE_WEIGHT) != DOCMAP_OK) return SEARCH_EINVAL;"
    "((float) avg_D_weight)"
    "cosine weight of the current document";;
  ins_decl args0 [DecodeDecl; PostDecl] [DecodeUsed; PostUsed]
    "const unsigned int f_qt;" 1
    "query->term[qterm].f_qt" (-1)
    ""
    ""
    ""
    "number of times the current term occurred in the query";;
  mret ().

(** [name]: the base name of the description file. *)
Definition metric_name : string :=
  let path := Py.split "/"%char args0 in
  let parts := Py.split "."%char (default "" (last path)) in
  default args0 (head parts).

Fixpoint dropwhile_empty (l : list string) : list string :=
  match l with
  | "" :: l' => dropwhile_empty l'
  | _ => l
  end.

(** The loop [while (isdecl(vname[0]) == 1)] of the parameter branch. *)
Fixpoint skip_decl_words (vname : list string) : option (list string) :=
  match vname with
  | [] => None
  | v :: vname' => if isdecl v then skip_decl_words vname' else Some vname
  end.

(** The loop of the main program over the description file.  The
    result is the list [comments]. *)
Fixpoint parse_loop (fuel : nat) (line : string) (lineno : Z)
    (comments : list string) : M (list string) :=
  if negb (String.eqb line "") then
    match fuel with
    | O => no_fuel
    | S fuel' =>
        let sline := Py.strip line in
        let words := Py.split_ws line in
        '(lineno, line, comments) ←
          (if (Py.len sline =? 0) || bool_decide (Py.head sline = Some "#"%char) then
             (* its a or empty comment, do nothing *)
             if lineno <=? Z.of_nat (List.length comments) + 1 then
               if 0 <? Py.len sline then
                 mret (lineno, line,
                       comments ++ [Py.lstrip (Py.slice_from (Py.strip line) 1)])
               else mret (lineno, line, comments ++ [""])
             else mret (lineno, line, comments)
           else if (1 <? Z.of_nat (List.length words))
                   && bool_decide (head words = Some "parameter") then
             (* got parameter, process it (MUST be one line) *)
             vname ← unwrap IndexError (skip_decl_words (tail words));
             vname ← unwrap IndexError (head vname);
             let vname := Py.strip vname in
             last_char ← unwrap IndexError (Py.last vname);
             let vname := if Ascii.eqb last_char ";"%char
                          then Py.slice vname 0 (-1) else vname in
             ins_decl args0 [Params; PostDecl; DecodeDecl] [DecodeUsed; PostUsed]
               (Py.slice_from line (Py.len "parameter")) 1
               ("opt->u." +:+ metric_name +:+ "." +:+ vname) lineno "" "" "" "";;
             mret (lineno, line, comments)
           else if bool_decide (words = ["post()"; "{"]) then
             (* in post section *)
             '(lineno, line) ← process_decl args0 fuel' PostDecl PostUsed lineno;
             '(lineno, line) ← levelise args0 fuel' line lineno PostDecl Post PostUsed;
             if String.eqb line "" then
               print_hash_line args0 lineno;;
               print_hash_error "unexpected EOF in post";;
               sys_exit 2
             else mret (lineno, line, comments)
           else if bool_decide (words = ["decode()"; "{"]) then
             (* in decode section *)
             '(lineno, line) ← process_decl args0 fuel' DecodeDecl DecodeUsed lineno;
             '(lineno, line) ← levelise args0 fuel' line lineno DecodeDecl Decode DecodeUsed;
             if String.eqb line "" then
               print_hash_line args0 lineno;;
               print_hash_error "unexpected EOF in decode";;
               sys_exit 2
             else mret (lineno, line, comments)
           else
             print_hash_line args0 lineno;;
             py_print [PStr ("#error " +:+ dquote +:+ "unexpected line:");
                       PStr (Py.rstrip line); PStr dquote] true;;
             sys_exit 2);
        (* next line *)
        line ← readline;
        parse_loop fuel' line (lineno + 1) comments
    end
  else mret comments.

(** [while (len(comments) > 0 and comments[-1] == ''): ...] *)
Definition drop_trailing_empty (comments : list string) : list string :=
  reverse (dropwhile_empty (reverse comments)).

(** The main program from the creation of the dictionaries to the end
    of [propagate]: the built-ins, the description file, the two
    propagation passes.  The result is [comments] with the empty lines
    at its end removed. *)
Definition parse_metric (fuel : nat) : M (list string) :=
  declare_builtins;;
  line ← readline;
  comments ← parse_loop fuel line 1 [];
  propagate Post;;
  propagate Decode;;
  mret (drop_trailing_empty comments).

(** *** The template loop *)

(** What the main program emits for the marker [/* marker */] on a
    template line indented by [dent], or [None] when [marker] is not
    the name of a marker. *)
Definition emit_marker (name : string) (pre : list string) (dent : nat)
    (marker : string) : option (M ()) :=
  if String.eqb marker "METRIC_NAME" then
    Some (py_print [PStr "/* METRIC_NAME */"; PStr name] false)
  else if String.eqb marker "METRIC_DEPENDS_POST" then
    Some (w ← get;
          py_print [PStr "/* METRIC_DEPENDS_POST */";
                    PInt (Z.of_nat (List.length (w_post w)))] false)
  else if String.eqb marker "METRIC_PRE" then
    Some (py_print [PStr "/* METRIC_PRE */"] true;;
          for_each pre (λ l, py_print [PStr (indent l dent)] true))
  else if String.eqb marker "METRIC_POST" then
    Some (py_print [PStr "/* METRIC_POST */"] true;;
          w ← get;
          defs ← used_decls (w_post_decl w) (w_post_used w);
          output_decl defs (Py.repeat " "%char dent)
                      (get_replace_map (w_post_decl w) Decl.macro);;
          w ← get;
          print_level Post 1 (Z.of_nat dent)
                      (get_replace_map (w_post_decl w) Decl.macro))
  else if String.eqb marker "METRIC_POST_PER_DOC" then
    Some (py_print [PStr "/* METRIC_POST_PER_DOC */"] true;;
          w ← get;
          print_level Post 2 (Z.of_nat dent)
                      (get_replace_map (w_post_decl w) Decl.macro))
  else if String.eqb marker "METRIC_DECL" then
    Some (py_print [PStr "/* METRIC_DECL */"] true;;
          w ← get;
          defs ← used_decls (w_decode_decl w) (w_decode_used w);
          output_decl defs (Py.repeat " "%char dent)
                      (get_replace_map (w_decode_decl w) Decl.macro))
  else if String.eqb marker "METRIC_PER_CALL" then
    Some (py_print [PStr "/* METRIC_PER_CALL */"] true;;
          (* output level one stuff *)
          w ← get;
          print_level Decode 1 (Z.of_nat dent)
                      (get_replace_map (w_decode_decl w) Decl.macro))
  else if String.eqb marker "METRIC_PER_DOC" then
    Some (py_print [PStr "/* METRIC_PER_DOC */"] true;;
          (* output level two and level three stuff *)
          w ← get;
          print_level Decode 2 (Z.of_nat dent)
                      (get_replace_map (w_decode_decl w) Decl.macro);;
          w ← get;
          print_level Decode 3 (Z.of_nat dent)
                      (get_replace_map (w_decode_decl w) Decl.macro))
  else if String.eqb marker "METRIC_CONTRIB" then
    Some (py_print [PStr "/* METRIC_CONTRIB */"] true;;
          (* output level two and three stuff, but using averages
             instead of specific doc values *)
          w ← get;
          print_level Decode 2 (Z.of_nat dent)
                      (get_replace_map (w_decode_decl w) contrib_replace);;
          w ← get;
          print_level Decode 3 (Z.of_nat dent)
                      (get_replace_map (w_decode_decl w) contrib_replace))
  else None.

(** The loop [while (len(toks))] over the tokens of a template line.
    Every iteration removes at least one token; [fuel] counts them. *)
Fixpoint weave_toks (fuel : nat) (name : string) (pre : list string)
    (dent : nat) (toks : list string) : M () :=
  match toks with
  | [] => mret ()
  | tok0 :: rest =>
      match fuel with
      | O => no_fuel
      | S fuel' =>
          let nt := next_tok rest in
          let nnt := next_tok (tail nt) in
          match (if String.eqb tok0 "/*" && bool_decide (head nnt = Some "*/")
                 then head nt ≫= emit_marker name pre dent
                 else None) with
          | Some emit => emit;; weave_toks fuel' name pre dent (tail nnt)
          | None => write tok0;; weave_toks fuel' name pre dent rest
          end
      end
  end.

(** The loop [for l in template].  Lines up to the first one that
    contains the end of a comment are dropped. *)
Fixpoint weave (name : string) (pre : list string) (template : list string)
    (first : bool) : M () :=
  match template with
  | [] => mret ()
  | l :: template' =>
      if first then
        if negb (Py.find l "*/" =? -1) then
          (* first comment over *)
          weave name pre template' false
        else weave name pre template' true
      else
        let '(toks, chars) := ctok l in
        let dent := indent_width l in
        weave_toks (List.length toks) name pre dent toks;;
        weave name pre template' first
  end.

(** The template part of the main program, after its header comment
    has been printed: [pre] is inferred and the template is woven. *)
Definition weave_template (template : list string) : M () :=
  w ← get;
  let pre := pre_infer (w_post_used w) (w_post_decl w)
             ++ pre_infer (w_decode_used w) (w_decode_decl w) in
  weave metric_name pre template true.

End Main.

(** * Vocabulary of the properties *)

(** ** Outcomes of a run *)



(** The stored level of the quantity [name] in the namespace [r]. *)
Definition level_of (r : nsref) (name : string) (w : World) : option Z :=
  Decl.level <$> get_ns r w !! name.

(** ** Tokens *)

(** The index at which each token starts when the tokens are laid out
    one after the other from index [start]. *)
Fixpoint token_starts (start : nat) (toks : list string) : list nat :=
  match toks with
  | [] => []
  | t :: toks' => start :: token_starts (start + String.length t) toks'
  end.

(** Every token is found in [line] at the offset paired with it. *)
Definition tokens_at (line : string) (toks : list string) (chars : list nat) : Prop :=
  Forall2 (λ tok off, Py.take (String.length tok) (Py.drop off line) = tok) toks chars.

(** ** Statement lists *)

(** The statements that a list object holds: the statement objects at
    its locations, in order. *)
Definition statements_of (r : listref) (w : World) : list (option Stmt) :=
  (λ loc, w_heap w !! loc) <$> get_list r w.

(** Every location of the list object is that of a statement object. *)
Definition list_allocated (r : listref) (w : World) : Prop :=
  Forall (λ loc, is_Some (w_heap w !! loc)) (get_list r w).

(** ** Declarations *)

(** From [w] to [w'] the file has not been read, and the namespace
    [decl] has only gained declarations of level [level]. *)
Definition declared_at (decl : nsref) (level : Z) (w w' : World) : Prop :=
  w_file w' = w_file w
  ∧ ∀ name d, get_ns decl w' !! name = Some d →
              get_ns decl w !! name = Some d ∨ Decl.level d = level.


(** ** Markers *)

(** The tokens of the marker as the template writes it. *)
Definition name_marker : list string := ["/*"; " "; "METRIC_NAME"; " "; "*/"].

(** The names of the markers. *)
Definition is_marker_name (m : string) : bool :=
  String.eqb m "METRIC_NAME" || String.eqb m "METRIC_DEPENDS_POST"
  || String.eqb m "METRIC_PRE" || String.eqb m "METRIC_POST"
  || String.eqb m "METRIC_POST_PER_DOC" || String.eqb m "METRIC_DECL"
  || String.eqb m "METRIC_PER_CALL" || String.eqb m "METRIC_PER_DOC"
  || String.eqb m "METRIC_CONTRIB".

(** A marker starts at the head of [toks]: the start of a comment, the
    name of a marker, the end of a comment, with whitespace tokens
    between them or not. *)
Definition starts_marker (toks : list string) : bool :=
  match toks with
  | [] => false
  | tok0 :: rest =>
      let nt := next_tok rest in
      let nnt := next_tok (tail nt) in
      String.eqb tok0 "/*" && bool_decide (head nnt = Some "*/")
      && from_option is_marker_name false (head nt)
  end.

(** No marker starts at a token of [toks] when [rest] follows it. *)
Fixpoint no_marker_in (toks rest : list string) : bool :=
  match toks with
  | [] => true
  | t :: toks' => negb (starts_marker (t :: toks' ++ rest)) && no_marker_in toks' rest
  end.

(** A line of the template that holds no marker. *)
Definition marker_free (l : string) : Prop := no_marker_in (ctok l).1 [] = true.

(** ** Inputs of the examples *)

(** A line of a file: the text and the newline that ends it. *)
Definition ln (s : string) : string := s +:+ nl.

(** The name of the description file in the examples. *)
Definition example_metric : string := "metrics/bm25.metric".

(** A body that assigns to [x] twice, the second time from a constant. *)
Definition reassign_file : list string :=
  ln <$> ["decode() {"; "    float x;"; "    x = f_dt;"; "    x = 1;"; "}"].

(** The same body up to the first assignment. *)
Definition assign_file : list string :=
  ln <$> ["decode() {"; "    float x;"; "    x = f_dt;"; "}"].

(** A body with a braced group over three lines. *)
Definition braces_file : list string :=
  ln <$> ["decode() {"; "    if (N) {"; "    accumulator += f_dt;"; "    }"; "}"].

(** A body that assigns to the built-in [f_t]. *)
Definition const_file : list string :=
  ln <$> ["decode() {"; "    f_t = 1;"; "}"].

(** The statement of a body that assigns to [c], and a program that
    declares [const float c;] with line number 0 in [decode_decl] before
    it runs [levelise] on it. *)
Definition zero_const_file : list string := ln <$> ["    c = 1;"; "}"].

Definition zero_const_program : M (Z * string) :=
  declare_builtins example_metric;;
  ins_decl example_metric [DecodeDecl] [DecodeUsed] "const float c;" 1 "" 0 "" "" "" "";;
  line ← readline;
  levelise example_metric 10 line 2 DecodeDecl Decode DecodeUsed.

(** A body that declares [x] with a comment that is not closed. *)
Definition comment_file : list string :=
  ln <$> ["decode() {"; "    float x /* note ;"; "    x = 1;"; "}"].


(** The statements of a body that reads [total], and a program that
    declares [total] at level 6 and [x] at level 1 in [decode_decl]
    before it runs [levelise] on them. *)
Definition rvalue_file : list string :=
  ln <$> ["    x = total + 1;"; "    foo(total);"; "}"].

Definition rvalue_program : M (Z * string) :=
  declare_builtins example_metric;;
  ins_decl example_metric [DecodeDecl] [DecodeUsed] "float total;" 6 "" (-1) "" "" "" "";;
  ins_decl example_metric [DecodeDecl] [DecodeUsed] "float x;" 1 "" 2 "" "" "" "";;
  line ← readline;
  levelise example_metric 10 line 3 DecodeDecl Decode DecodeUsed.

(** A template whose body calls for the statements of every level. *)
Definition levels_template : list string :=
  ln <$> ["/* template */"; "/* METRIC_PER_CALL */"; "/* METRIC_PER_DOC */"].

(** A declaration with a contribution fallback that names the built-in
    [avg_D_bytes], made after the built-ins. *)
Definition contrib_program : M (list uslot) :=
  declare_builtins example_metric;;
  ins_decl example_metric [DecodeDecl; PostDecl] [DecodeUsed; PostUsed]
    "const unsigned int D_size;" 2 "" (-1) "" "" "((float) avg_D_bytes)" "".

(** A template with a header comment, a line with the marker of the
    name, and comments that are not markers. *)
Definition name_template_header : list string := ["/* template for a metric" +:+ nl].
Definition name_template_hend : string := " */" +:+ nl.
Definition name_template_body1 : list string := ln <$> ["#include <math.h> /* for log */"].
Definition name_template_mline : string := ln "int /* METRIC_NAME */_decode(void) { return 0; }".
Definition name_template_body2 : list string := ln <$> ["/* end */"].

(** A world with two statements in [decode]. *)
Definition two_statements : World :=
  set_list Decode [0%nat; 1%nat]
    (set_heap [ {| s_lineno := 3; s_level := 2; s_text := "w = D_terms;" |};
                {| s_lineno := 4; s_level := 3; s_text := "accumulator += w * f_dt;" |} ]
       (empty_world [])).

(** ** Classes of tokens *)

(** The class of a character, in the order in which [ctok] tests for it. *)
Inductive tclass := CSpace | COp | CSemi | CWord.

Definition char_class (c : ascii) : tclass :=
  if Py.isspace c then CSpace
  else if isop c then COp
  else if Ascii.eqb c ";"%char then CSemi
  else CWord.

Definition tclass_eqb (a b : tclass) : bool :=
  match a, b with
  | CSpace, CSpace | COp, COp | CSemi, CSemi | CWord, CWord => true
  | _, _ => false
  end.

(** All characters of [s] are of class [k]. *)
Fixpoint all_class (k : tclass) (s : string) : bool :=
  match s with
  | "" => true
  | String c s' => tclass_eqb (char_class c) k && all_class k s'
  end.

(** The class of a token: that of its characters, when it is not empty
    and they all have the same; a token of class [CSemi] is one
    character long. *)
Definition tok_class (t : string) : option tclass :=
  match t with
  | "" => None
  | String c s =>
      let k := char_class c in
      if all_class k s
         && (negb (tclass_eqb k CSemi) || String.eqb s "")
      then Some k else None
  end.

(** [toks] is what a greedy scan produces after a token of class
    [prev]: every token has a class, and no token other than [;] has
    the class of the token before it. *)
Fixpoint munched (prev : option tclass) (toks : list string) : bool :=
  match toks with
  | [] => true
  | t :: toks' =>
      match tok_class t with
      | None => false
      | Some k =>
          match prev with
          | Some p => negb (tclass_eqb p k) || tclass_eqb k CSemi
          | None => true
          end
          && munched (Some k) toks'
      end
  end.

(** ** Lines of a text *)

(** A line holds no newline. *)
Fixpoint no_newline (s : string) : bool :=
  match s with
  | "" => true
  | String c s' => negb (Ascii.eqb c "010"%char) && no_newline s'
  end.

(** A line with a character that is not whitespace. *)
Definition nonblank (x : string) : bool := 0 <? Py.len (Py.lstrip x).

(** The least indentation of the lines of [str] that are not blank, when
    there is one. *)
Definition min_indent (str : string) : option nat :=
  match map indent_width (filter (λ x, nonblank x) (Py.split "010"%char str)) with
  | [] => None
  | n :: ns => Some (foldl Nat.min n ns)
  end.

(** The width that [dedent] removes from the lines of a text, and what
    it makes of one line. *)
Definition dedent_width (lines : list string) : nat :=
  match map indent_width (filter (λ x, nonblank x) lines) with
  | [] => 0%nat
  | n :: ns => foldl Nat.min n ns
  end.

Definition dedent_line (dent : nat) (x : string) : string :=
  if nonblank x then
    match Py.drop dent x with
    | "" => x
    | y => y
    end
  else x.

(** ** Specifications of runs *)

(** [sat m w Q E]: when [m] returns [a] from [w] in [w'], [Q a w'] holds;
    when it ends the run with [sys.exit(c)] in [w'], [E c w'] holds. *)
Definition sat {A} (m : M A) (w : World) (Q : A → World → Prop)
    (E : Z → World → Prop) : Prop :=
  match m w with
  | Ok a w' => Q a w'
  | Exit c w' => E c w'
  | _ => True
  end.

(** The exit code of the program. *)
Definition exit_2 (c : Z) (w : World) : Prop := c = 2.

(** The worlds differ in [sys.stdout] and in the dictionaries only: the
    statements, the statement lists and the file are the same. *)
Definition same_statements (w w' : World) : Prop :=
  w_heap w' = w_heap w ∧ w_post w' = w_post w ∧ w_decode w' = w_decode w
  ∧ w_file w' = w_file w.

(** The names of the dictionaries and of the lists can be compared. *)
Global Instance nsref_eq_dec : EqDecision nsref.
Proof. solve_decision. Defined.

Global Instance usedref_eq_dec : EqDecision usedref.
Proof. solve_decision. Defined.

Global Instance listref_eq_dec : EqDecision listref.
Proof. solve_decision. Defined.

(** What a call of [ins_decl] that returns has done: it has put one
    declaration [d], made of the arguments of the call, under a name
    that no namespace of the call declared, in every namespace of the
    call; the other namespaces, the statements and the file are as they
    were; the used-dictionaries have lost no key, and those that are
    not in the call are as they were. *)
Definition inserted (namespaces : list nsref) (used : list usedref) (level : Z)
    (macro : string) (lineno : Z) (fninit pre contrib ex : string)
    (w w' : World) : Prop :=
  ∃ d, Decl.level d = level ∧ Decl.lineno d = lineno ∧ Decl.macro d = macro
       ∧ Decl.fninit d = fninit ∧ Decl.pre d = pre ∧ Decl.contrib d = contrib
       ∧ Decl.ex d = ex
       ∧ Forall (λ n, get_ns n w !! Decl.name d = None) namespaces
       ∧ (∀ r, get_ns r w'
               = if bool_decide (r ∈ namespaces)
                 then <[Decl.name d := d]> (get_ns r w) else get_ns r w)
       ∧ same_statements w w'
       ∧ (∀ r, dom (get_used r w) ⊆ dom (get_used r w'))
       ∧ (∀ r, r ∉ used → get_used r w' = get_used r w).

(** The loop that records the names found in the initialiser: it only
    adds keys to used-dictionaries of the call. *)
Definition used_grown (used : list usedref) (w w' : World) : Prop :=
  same_statements w w' ∧ (∀ r, get_ns r w' = get_ns r w) ∧ w_out w' = w_out w
  ∧ (∀ r, dom (get_used r w) ⊆ dom (get_used r w'))
  ∧ (∀ r, r ∉ used → get_used r w' = get_used r w).

(** ** Levels *)

(** Every declaration and every statement has a level from 1 to 3. *)
Definition levels_ok (w : World) : Prop :=
  (∀ r name d, get_ns r w !! name = Some d → 1 ≤ Decl.level d ≤ 3)
  ∧ Forall (λ s, 1 ≤ s_level s ≤ 3) (w_heap w).

(** ** Propagation *)

(** The statement [s'] is [s] with a level that is not lower. *)
Definition raised (s s' : Stmt) : Prop :=
  s_lineno s' = s_lineno s ∧ s_text s' = s_text s ∧ s_level s ≤ s_level s'.

(** The declarations of [w] that [w'] still has, as they were. *)
Definition declarations_kept (w w' : World) : Prop :=
  ∀ r name d, get_ns r w !! name = Some d → get_ns r w' !! name = Some d.

(** ** Pure parts of the emitter and of the main program *)

(** The order of [definitions.sort]. *)
Definition lineno_le (x y : Decl.t) : Prop := Decl.lineno x ≤ Decl.lineno y.

(** The string [s] does not hold the character [c]. *)
Fixpoint no_char (c : ascii) (s : string) : bool :=
  match s with
  | "" => true
  | String c' s' => negb (Ascii.eqb c' c) && no_char c s'
  end.

(** ** Declarations that [output_decl] passes over *)

(** A declaration for which [output_decl] prints nothing: it has no
    [fninit], and it is replaced by a macro or is a pre-declared
    quantity without an initialiser. *)
Definition silent (d : Decl.t) : bool :=
  (Py.len (Decl.fninit d) =? 0)
  && ((0 <? Py.len (Decl.macro d))
      || ((Decl.lineno d =? -1) && (Py.len (Decl.init d) =? 0))).

(** A pre-declared quantity behind a macro, and a parameter. *)
Definition silent_declarations : list Decl.t :=
  [Decl.new 7 "k1" "float" "" 1 "opt->u.bm25.k1" "" "" "" "" "";
   Decl.new (-1) "f_dt" "const unsigned int" "" 3 "" "" "" "" "" ""].

(** ** Lines that [process_decl] passes over *)

(** An empty line or a comment line of a description. *)
Definition passed_over (line : string) : bool :=
  (Py.len (Py.strip line) =? 0)
  || bool_decide (Py.head (Py.strip line) = Some "#"%char).

(** ** Statements that do not end *)

(** The last token is not a semicolon. *)
Definition unterminated (toks : list string) : bool :=
  match py_last toks with
  | Some t => negb (String.eqb t ";")
  | None => false
  end.

(** The line does not end a statement: it has no token, or its last
    token is not a semicolon. *)
Definition no_end (line : string) : bool :=
  negb (bool_decide (py_last (ctok_nspace line).1 = Some ";")).

(** A description that ends inside a function body, after an empty line
    and a comment. *)
Definition unfinished_body : World :=
  empty_world [ln ""; ln "  # no declaration follows"].

(** A description whose last statement is cut off. *)
Definition unfinished_statement : World :=
  empty_world [ln "    + f_dt"; ln ""].

(** A template whose only comment is not closed. *)
Definition unclosed_template : list string :=
  [ln "/* a template"; ln "int f(void);"].

(** ** What [process_decl] reads *)

(** A line that [process_decl] hands to [ins_decl]: it is not empty and
    not a comment, and its first token is a word of a declaration. *)
Definition decl_line (line : string) : bool :=
  negb (passed_over line) && from_option isdecl false (head (ctok_nspace line).1).

(** A line that [process_decl] reads and goes past. *)
Definition read_past (line : string) : bool :=
  negb (String.eqb (Py.rstrip line) "}") && (passed_over line || decl_line line).

(** A line at which [process_decl] stops: the closing brace, or a line
    with a first token that is not a word of a declaration. *)
Definition body_start (line : string) : bool :=
  String.eqb (Py.rstrip line) "}"
  || (negb (passed_over line)
      && negb (from_option isdecl false (head (ctok_nspace line).1))).

(** From the lines [file], of which the first has the number [first],
    the call has read [before] and then [line], which has the number
    [n]; [rest] is what is left to read. *)
Definition read_to (first : Z) (file : list string) (n : Z) (line : string)
    (rest : list string) : Prop :=
  ∃ before, file = before ++ line :: rest
            ∧ n = first + Z.of_nat (List.length before)
            ∧ Forall (λ l, read_past l = true) before
            ∧ line ≠ "" ∧ body_start line = true.

(** ** What [levelise] leaves in place *)

(** From [w] to [w'] statements have only been added, at the end of the
    list [list]: the statement objects of [w] are the first of [w'],
    the list starts as it did, the other list is as it was, every
    namespace declares the names it declared, and the file has only
    been read. *)
Definition appended (list : listref) (w w' : World) : Prop :=
  w_heap w `prefix_of` w_heap w'
  ∧ get_list list w `prefix_of` get_list list w'
  ∧ (∀ r, r ≠ list → get_list r w' = get_list r w)
  ∧ (∀ r, dom (get_ns r w') = dom (get_ns r w))
  ∧ w_file w' `suffix_of` w_file w.

(** No exit status: the program is not ended. *)
Definition never_exits (c : Z) (w : World) : Prop := False.

(** A description with a header comment, a parameter, and a [decode]
    function of one declaration and two statements. *)
Definition example_description : list string :=
  ln <$> ["# a simple metric"; "#"; ""; "parameter float k1;"; "";
          "decode() {"; "    float w;"; ""; "    w = f_dt * k1;";
          "    accumulator += w;"; "}"; ""; "post() {"; "}"].

(** ** The header comments of a description *)

(** A line of the header of a description: a line that is empty or a
    comment. *)
Definition header_line (line : string) : bool :=
  negb (String.eqb line "") && passed_over line.

(** The lines of the header: the empty lines and comments with which
    the description starts. *)
Fixpoint header_lines (file : list string) : list string :=
  match file with
  | [] => []
  | l :: file' => if header_line l then l :: header_lines file' else []
  end.

(** What the main program keeps of a line of the header. *)
Definition comment_text (line : string) : string :=
  if 0 <? Py.len (Py.strip line) then Py.lstrip (Py.slice_from (Py.strip line) 1)
  else "".

(** ** Operands *)





(** A template with a marker that touches a parenthesis, and one
    written without blanks. *)
Definition glued_template : list string :=
  name_template_header
  ++ [name_template_hend; ln "return f(/* METRIC_NAME */);";
      ln "int /*METRIC_NAME*/_post(void);"].


(** ** Declarations fed to the parser *)




(** * Properties *)

(** ** Strings *)

Section StringFacts.

Lemma str_app_nil_r (s : string) : s +:+ "" = s.
Proof. induction s as [|c s IH]; [done|]. unfold String.app in *. simpl. by rewrite IH. Qed.

Lemma str_app_cons (c : ascii) (a b : string) : String c a +:+ b = String c (a +:+ b).
Proof. done. Qed.

Lemma str_app_assoc (a b c : string) : (a +:+ b) +:+ c = a +:+ (b +:+ c).
Proof.
  induction a as [|x a IH]; [done|].
  by rewrite !str_app_cons, IH.
Qed.

Lemma str_length_app (a b : string) :
  String.length (a +:+ b) = (String.length a + String.length b)%nat.
Proof. induction a as [|x a IH]; [done|]. rewrite str_app_cons. simpl. by rewrite IH. Qed.

Lemma span_app (p : ascii → bool) (s : string) :
  (Py.span p s).1 +:+ (Py.span p s).2 = s.
Proof.
  induction s as [|c s IH]; [done|]. simpl.
  destruct (p c); [|done].
  destruct (Py.span p s) as [a b]. simpl in *. by rewrite str_app_cons, IH.
Qed.

Lemma span_length (p : ascii → bool) (s : string) :
  (String.length (Py.span p s).2 ≤ String.length s)%nat.
Proof.
  rewrite <- (span_app p s) at 2. rewrite str_length_app. lia.
Qed.

Lemma str_take_app_length (a b : string) : Py.take (String.length a) (a +:+ b) = a.
Proof.
  induction a as [|x a IH]; [by destruct b|].
  rewrite str_app_cons. simpl. by rewrite IH.
Qed.

Lemma str_drop_app_length (a b : string) : Py.drop (String.length a) (a +:+ b) = b.
Proof. induction a as [|x a IH]; [done|]. rewrite str_app_cons. simpl. done. Qed.

End StringFacts.

(** ** The tokenizer *)

Section Tokenizer.

Lemma ctok_loop_spec (fuel : nat) :
  ∀ (line : string) (char : nat) (toks : list string) (chars : list nat),
    (String.length line ≤ fuel)%nat →
    ∃ T, ctok_loop fuel line char toks chars = (toks ++ T, chars ++ token_starts char T)
         ∧ Py.concat T = line.
Proof.
  induction fuel as [|fuel IH]; intros line char toks chars Hlen.
  - destruct line; [|simpl in Hlen; lia].
    exists []. by rewrite !app_nil_r.
  - destruct line as [|c line].
    { exists []. by rewrite !app_nil_r. }
    simpl in Hlen. simpl.
    assert (Hrun : ∀ p,
      ∃ T, (let '(run, line0) := Py.span p line in
            ctok_loop fuel line0 (char + String.length run + 1)
                      (toks ++ [String c run]) (chars ++ [char]))
           = (toks ++ T, chars ++ token_starts char T)
           ∧ Py.concat T = String c line).
    { intros p. pose proof (span_app p line) as Happ.
      pose proof (span_length p line) as Hle.
      destruct (Py.span p line) as [run rest]. simpl in Happ, Hle.
      destruct (IH rest (char + String.length run + 1)%nat
                  (toks ++ [String c run]) (chars ++ [char])) as (T & -> & HT); [lia|].
      exists (String c run :: T). split.
      - rewrite <- !app_assoc. simpl. do 4 f_equal. lia.
      - unfold Py.concat in *. simpl. by rewrite HT, str_app_cons, Happ. }
    destruct (Py.isspace c); [apply Hrun|].
    destruct (isop c); [apply Hrun|].
    destruct (Ascii.eqb_spec c ";"%char) as [->|_]; [|apply Hrun].
    destruct (IH line (char + 1)%nat (toks ++ [";"]) (chars ++ [char])) as (T & -> & HT);
      [lia|].
    exists (";" :: T). split.
    + rewrite <- !app_assoc. simpl. do 3 f_equal.
    + unfold Py.concat in *. simpl. by rewrite HT.
Qed.

Lemma token_starts_at (pre : string) (toks : list string) (rest : string) :
  tokens_at (pre +:+ Py.concat toks +:+ rest) toks
            (token_starts (String.length pre) toks).
Proof.
  revert pre. induction toks as [|t toks IH]; intros pre; [constructor|].
  simpl. constructor.
  - rewrite str_drop_app_length. unfold Py.concat. simpl.
    by rewrite str_app_assoc, str_take_app_length.
  - specialize (IH (pre +:+ t)).
    rewrite str_length_app in IH. unfold Py.concat in *. simpl.
    by rewrite !str_app_assoc in *.
Qed.

(** What [ctok] computes: the helper that the properties of its callers
    share. *)
Lemma ctok_spec (line : string) :
  Py.concat (ctok line).1 = line
  ∧ (ctok line).2 = token_starts 0 (ctok line).1
  ∧ tokens_at line (ctok line).1 (ctok line).2.
Proof.
  unfold ctok.
  destruct (ctok_loop_spec (String.length line) line 0 [] []) as (T & -> & HT); [lia|].
  simpl. split_and!; [done..|].
  pose proof (token_starts_at "" T "") as H.
  by rewrite str_app_nil_r, HT in H.
Qed.

(** C9. [ctok] is lossless and its offsets are correct: the tokens of
    a line, concatenated in order, are the line; the offsets recorded
    are the indices at which the tokens start when laid out one after
    the other from index 0; and the text of the line at each recorded
    offset is the token recorded with it. *)
Theorem ctok_lossless (line : string) :
  Py.concat (ctok line).1 = line
  ∧ (ctok line).2 = token_starts 0 (ctok line).1
  ∧ tokens_at line (ctok line).1 (ctok line).2.
Proof.
  unfold ctok.
  destruct (ctok_loop_spec (String.length line) line 0 [] []) as (T & -> & HT); [lia|].
  simpl. split_and!; [done..|].
  pose proof (token_starts_at "" T "") as H.
  by rewrite str_app_nil_r, HT in H.
Qed.

End Tokenizer.

(** ** The monad *)

Ltac munfold :=
  unfold write, py_print, unwrap in *;
  unfold mbind, M_bind, mret, M_ret, get, modify, raise, sys_exit, hang, no_fuel in *.

Section WorldFacts.

Lemma set_out_id (w : World) : set_out (w_out w) w = w.
Proof. by destruct w. Qed.

Lemma set_out_set_out (o o' : Stdout) (w : World) :
  set_out o' (set_out o w) = set_out o' w.
Proof. done. Qed.

Lemma for_each_write (toks : list string) (f : string → string) (w : World) :
  ∃ o, for_each toks (λ t, write (f t)) w = Ok () (set_out o w).
Proof.
  revert w. induction toks as [|t toks IH]; intros w.
  - exists (w_out w). simpl. munfold. by rewrite set_out_id.
  - simpl. munfold. simpl.
    destruct (IH (set_out (stdout_write (f t) (w_out w)) w)) as [o Ho].
    exists o. by rewrite Ho.
Qed.

End WorldFacts.

(** ** Emission of a statement list *)

Section PrintLevel.

Lemma print_level_loop_frame (locs : list nat) :
  ∀ (level dent : Z) (macros : gmap string string) (prevline : Z) (w : World),
    Forall (λ loc, is_Some (w_heap w !! loc)) locs →
    ∃ o, print_level_loop locs level dent macros prevline w = Ok () (set_out o w).
Proof.
  induction locs as [|loc locs IH]; intros level dent macros prevline w Hall.
  - exists (w_out w). simpl. munfold. by rewrite set_out_id.
  - apply Forall_cons in Hall as [[l Hl] Hall].
    simpl. munfold. rewrite Hl. simpl.
    destruct (s_level l =? level); [|by apply IH].
    destruct (ctok (s_text l)) as [toks spaces]. simpl.
    match goal with
    | |- context [for_each toks ?body ?w0] =>
        destruct (for_each_write toks (replace_tok macros) w0) as [o1 Ho1]
    end.
    unfold write, modify in Ho1. rewrite Ho1. simpl.
    match goal with
    | |- context [print_level_loop locs level ?d macros ?pl ?w0] =>
        destruct (IH level d macros pl w0) as [o2 Ho2]; [done|]
    end.
    exists o2. by rewrite Ho2.
Qed.

(** C10. [print_level] leaves its [statements] argument as it found
    it: from a world in which the list holds statement objects, the
    call returns, and the world after it is the world before it with
    only [sys.stdout] changed.  Both statement lists hold the same
    statements as before, so a second emission of the same list (as
    for PER_DOC and then CONTRIB) reads the statements that the first
    one read. *)
Theorem print_level_frame (statements : listref) (level dent : Z)
    (macros : gmap string string) (w : World) :
  list_allocated statements w →
  ∃ w', print_level statements level dent macros w = Ok () w'
        ∧ w' = set_out (w_out w') w
        ∧ w_heap w' = w_heap w
        ∧ get_list statements w' = get_list statements w
        ∧ ∀ r, statements_of r w' = statements_of r w.
Proof.
  intros Hall. unfold print_level. munfold.
  destruct (print_level_loop_frame (get_list statements w) level dent macros (-1) w Hall)
    as [o Ho].
  exists (set_out o w). by split_and!.
Qed.

(** The statements of PER_DOC are emitted, and then those of CONTRIB:
    both emissions return, and the second finds in [decode] the
    statements that the first found. *)
Lemma emit_per_doc_then_contrib (name : string) (pre : list string) (dent : nat)
    (w : World) :
  list_allocated Decode w →
  ∃ e1 e2 w1 w2,
    emit_marker name pre dent "METRIC_PER_DOC" = Some e1
    ∧ emit_marker name pre dent "METRIC_CONTRIB" = Some e2
    ∧ e1 w = Ok () w1 ∧ e2 w1 = Ok () w2
    ∧ statements_of Decode w1 = statements_of Decode w
    ∧ statements_of Decode w2 = statements_of Decode w.
Proof.
  intros Hall. unfold list_allocated in Hall.
  assert (Hemit : ∀ (marker : string) (fn : Decl.t → string) (w0 : World),
            Forall (λ loc, is_Some (w_heap w0 !! loc)) (get_list Decode w0) →
            ∃ o, (py_print [PStr marker] true;;
                  w ← get;
                  print_level Decode 2 (Z.of_nat dent)
                              (get_replace_map (w_decode_decl w) fn);;
                  w ← get;
                  print_level Decode 3 (Z.of_nat dent)
                              (get_replace_map (w_decode_decl w) fn)) w0
                 = Ok () (set_out o w0)).
  { intros marker fn w0 H0. unfold print_level. munfold. cbn [foldl].
    match goal with
    | |- context [print_level_loop ?l 2 ?d ?m ?pl ?w1] =>
        destruct (print_level_loop_frame l 2 d m pl w1 H0) as [o1 Ho1]
    end.
    cbn [w_decode_decl set_out get_list] in *. rewrite Ho1.
    match goal with
    | |- context [print_level_loop ?l 3 ?d ?m ?pl ?w1] =>
        destruct (print_level_loop_frame l 3 d m pl w1 H0) as [o2 Ho2]
    end.
    cbn [w_decode_decl set_out get_list] in *. rewrite Ho2. by exists o2. }
  destruct (Hemit "/* METRIC_PER_DOC */" Decl.macro w Hall) as [o1 H1].
  destruct (Hemit "/* METRIC_CONTRIB */" contrib_replace (set_out o1 w) Hall) as [o2 H2].
  eexists _, _, (set_out o1 w), (set_out o2 w).
  split_and!; [reflexivity|reflexivity|exact H1|exact H2|done|done].
Qed.

End PrintLevel.

(** ** The template loop *)

Section Weave.

Variable name : string.
Variable pre : list string.

Lemma emit_marker_none (dent : nat) (m : string) :
  is_marker_name m = false → emit_marker name pre dent m = None.
Proof.
  unfold is_marker_name, emit_marker. intros H.
  repeat (destruct (String.eqb m _); [done|]). done.
Qed.

(** Tokens at which no marker starts are written one by one. *)
Lemma weave_toks_skip (toks rest : list string) :
  ∀ (fuel dent : nat) (w : World),
    no_marker_in toks rest = true →
    ∃ o, weave_toks (List.length toks + fuel) name pre dent (toks ++ rest) w
         = weave_toks fuel name pre dent rest (set_out o w)
         ∧ buf o = buf (w_out w) +:+ Py.concat toks
         ∧ (softspace (w_out w) = false → softspace o = false).
Proof.
  induction toks as [|t toks IH]; intros fuel dent w Hno.
  - exists (w_out w). by rewrite set_out_id, str_app_nil_r.
  - cbn [no_marker_in] in Hno. apply andb_true_iff in Hno as [Hst Hno].
    apply negb_true_iff in Hst.
    destruct (IH fuel dent (set_out (stdout_write t (w_out w)) w) Hno)
      as (o & Ho & Hbuf & Hsp).
    exists o. split_and!.
    + etrans; [|exact Ho]. cbn [List.length Nat.add app weave_toks].
      cbn [starts_marker] in Hst.
      destruct (String.eqb t "/*" && bool_decide (head (next_tok (tail (next_tok (toks ++ rest)))) = Some "*/")) eqn:Hc;
        [|done].
      cbn [andb] in Hst.
      destruct (head (next_tok (toks ++ rest))) as [m|]; [|done].
      cbn [from_option] in Hst. cbn [mbind option_bind].
      by rewrite (emit_marker_none dent m Hst).
    + rewrite Hbuf. simpl. unfold Py.concat. simpl. by rewrite str_app_assoc.
    + intros _. by apply Hsp.
Qed.

Lemma weave_toks_plain (toks : list string) (dent : nat) (w : World) :
  no_marker_in toks [] = true →
  ∃ o, weave_toks (List.length toks) name pre dent toks w = Ok () (set_out o w)
       ∧ buf o = buf (w_out w) +:+ Py.concat toks
       ∧ (softspace (w_out w) = false → softspace o = false).
Proof.
  intros Hno.
  destruct (weave_toks_skip toks [] 0 dent w Hno) as (o & Ho & Hbuf & Hsp).
  rewrite Nat.add_0_r, app_nil_r in Ho. by exists o.
Qed.

(** At the marker the main program prints the marker and the name. *)
Lemma weave_toks_marker_step (after : list string) (fuel dent : nat) (w : World) :
  weave_toks (S fuel) name pre dent (name_marker ++ after) w
  = (py_print [PStr "/* METRIC_NAME */"; PStr name] false;;
     weave_toks fuel name pre dent after) w.
Proof. reflexivity. Qed.

Lemma weave_toks_marker (after : list string) (dent : nat) (w : World) :
  no_marker_in after [] = true → softspace (w_out w) = false →
  ∃ o, weave_toks (List.length (name_marker ++ after)) name pre dent
                  (name_marker ++ after) w = Ok () (set_out o w)
       ∧ buf o = buf (w_out w) +:+ "/* METRIC_NAME */" +:+ " " +:+ name
                 +:+ Py.concat after.
Proof.
  intros Hno Hsp.
  replace (List.length (name_marker ++ after))
    with (S (List.length after + 4))%nat by (simpl; lia).
  rewrite weave_toks_marker_step. munfold.
  match goal with
  | |- context [weave_toks _ name pre dent after ?w0] =>
      destruct (weave_toks_skip after [] 4 dent w0 Hno) as (o & Ho & Hbuf & _)
  end.
  rewrite app_nil_r in Ho. rewrite Ho. exists o. split; [done|].
  rewrite Hbuf. simpl. rewrite Hsp. by rewrite !str_app_assoc.
Qed.

(** A line that holds the marker, and no marker before or after it. *)
Lemma weave_toks_name (before after : list string) (dent : nat) (w : World) :
  no_marker_in before (name_marker ++ after) = true →
  no_marker_in after [] = true → softspace (w_out w) = false →
  ∃ o, weave_toks (List.length (before ++ name_marker ++ after)) name pre dent
                  (before ++ name_marker ++ after) w = Ok () (set_out o w)
       ∧ buf o = buf (w_out w) +:+ Py.concat before +:+ "/* METRIC_NAME */"
                 +:+ " " +:+ name +:+ Py.concat after.
Proof.
  intros Hb Ha Hsp.
  destruct (weave_toks_skip before (name_marker ++ after)
              (List.length (name_marker ++ after)) dent w Hb) as (o1 & Ho1 & Hbuf1 & Hsp1).
  rewrite length_app, Ho1.
  destruct (weave_toks_marker after dent (set_out o1 w) Ha (Hsp1 Hsp)) as (o2 & Ho2 & Hbuf2).
  rewrite Ho2. exists o2. split; [done|].
  rewrite Hbuf2. simpl. rewrite Hbuf1. by rewrite !str_app_assoc.
Qed.

(** Lines without a marker are copied as they are. *)
Lemma weave_plain (lines : list string) :
  ∀ w : World,
    Forall marker_free lines →
    ∃ o, weave name pre lines false w = Ok () (set_out o w)
         ∧ buf o = buf (w_out w) +:+ Py.concat lines
         ∧ (softspace (w_out w) = false → softspace o = false).
Proof.
  induction lines as [|l lines IH]; intros w Hall.
  - exists (w_out w). simpl. munfold. by rewrite set_out_id, str_app_nil_r.
  - apply Forall_cons in Hall as [Hl Hall]. unfold marker_free in Hl.
    cbn [weave]. pose proof (ctok_spec l) as (Hcat & _).
    destruct (ctok l) as [toks chars]. cbn [fst] in Hl, Hcat.
    destruct (weave_toks_plain toks (indent_width l) w Hl) as (o1 & Ho1 & Hbuf1 & Hsp1).
    munfold. rewrite Ho1.
    destruct (IH (set_out o1 w) Hall) as (o2 & Ho2 & Hbuf2 & Hsp2).
    rewrite Ho2. exists o2. split_and!; [done| |].
    + rewrite Hbuf2. simpl. rewrite Hbuf1, Hcat.
      unfold Py.concat. simpl. by rewrite str_app_assoc.
    + intros H. by apply Hsp2, Hsp1.
Qed.

(** The header of the template is dropped. *)
Lemma weave_header (header : list string) (hend : string) (body : list string)
    (w : World) :
  Forall (λ l, Py.find l "*/" = -1) header → Py.find hend "*/" ≠ -1 →
  weave name pre (header ++ hend :: body) true w = weave name pre body false w.
Proof.
  intros Hh Hend. induction Hh as [|l header Hl Hh IH]; simpl.
  - destruct (Z.eqb_spec (Py.find hend "*/") (-1)); done.
  - by rewrite Hl.
Qed.

(** A template body in which one line holds the marker [METRIC_NAME]
    and no other marker starts anywhere. *)
Lemma weave_body_name (mline : string) (before after : list string)
    (body2 : list string) (body1 : list string) :
  ∀ w : World,
    Forall marker_free body1 →
    (ctok mline).1 = before ++ name_marker ++ after →
    no_marker_in before (name_marker ++ after) = true →
    no_marker_in after [] = true →
    Forall marker_free body2 →
    softspace (w_out w) = false →
    ∃ o, weave name pre (body1 ++ mline :: body2) false w = Ok () (set_out o w)
         ∧ buf o = buf (w_out w) +:+ Py.concat body1 +:+ Py.concat before
                   +:+ "/* METRIC_NAME */" +:+ " " +:+ name
                   +:+ Py.concat after +:+ Py.concat body2.
Proof.
  induction body1 as [|l body1 IH]; intros w H1 Hm Hb Ha H2 Hsp.
  - cbn [app weave]. destruct (ctok mline) as [toks chars]. cbn [fst] in Hm. subst toks.
    destruct (weave_toks_name before after (indent_width mline) w)
      as (o1 & Ho1 & Hbuf1); [done..|].
    munfold. rewrite Ho1.
    destruct (weave_plain body2 (set_out o1 w) H2) as (o2 & Ho2 & Hbuf2 & _).
    rewrite Ho2. exists o2. split; [done|].
    rewrite Hbuf2. simpl. rewrite Hbuf1. by rewrite !str_app_assoc.
  - apply Forall_cons in H1 as [Hl H1]. unfold marker_free in Hl.
    rewrite <- app_comm_cons. cbn [weave].
    pose proof (ctok_spec l) as (Hcat & _).
    destruct (ctok l) as [toks chars]. cbn [fst] in Hl, Hcat.
    destruct (weave_toks_plain toks (indent_width l) w Hl) as (o1 & Ho1 & Hbuf1 & Hsp1).
    munfold. rewrite Ho1.
    destruct (IH (set_out o1 w)) as (o2 & Ho2 & Hbuf2); [done..|by apply Hsp1|].
    rewrite Ho2. exists o2. split; [done|].
    rewrite Hbuf2. simpl. rewrite Hbuf1, Hcat.
    unfold Py.concat. simpl. by rewrite !str_app_assoc.
Qed.

End Weave.

(** C8, as the code has it.  Scenario D.  The description file has base
    name [bm25].  The template has a header, which ends with the first
    line that holds the end of a comment, and a body in which one line
    holds the marker as the five tokens [/*], a blank, [METRIC_NAME], a
    blank, [*/], and no other marker starts anywhere.  Then the
    template loop returns, and what it has written to [sys.stdout] is
    the body, token for token, the marker included, with a blank and
    [bm25] put after the marker. *)
Theorem weave_metric_name_bm25 (args0 : string) (header : list string)
    (hend : string) (body1 : list string) (mline : string)
    (before after : list string) (body2 : list string) (w : World) :
  metric_name args0 = "bm25" →
  Forall (λ l, Py.find l "*/" = -1) header → Py.find hend "*/" ≠ -1 →
  Forall marker_free body1 →
  (ctok mline).1 = before ++ name_marker ++ after →
  no_marker_in before (name_marker ++ after) = true →
  no_marker_in after [] = true →
  Forall marker_free body2 →
  softspace (w_out w) = false →
  ∃ o, weave_template args0 (header ++ hend :: body1 ++ mline :: body2) w
       = Ok () (set_out o w)
       ∧ buf o = buf (w_out w) +:+ Py.concat body1 +:+ Py.concat before
                 +:+ "/* METRIC_NAME */" +:+ " bm25"
                 +:+ Py.concat after +:+ Py.concat body2.
Proof.
  intros Hname Hh Hend H1 Hm Hb Ha H2 Hsp.
  unfold weave_template. munfold. rewrite Hname.
  rewrite weave_header by done.
  by apply weave_body_name.
Qed.

(** ** Declarations of a function body *)

Section Safe.

Context (R : World → World → Prop) `{!PreOrder R}.










End Safe.

Section DeclaredAt.

Variable decl : nsref.
Variable level : Z.

Global Instance declared_at_preorder : PreOrder (declared_at decl level).
Proof.
  split.
  - intros w. split; [done|]. by left.
  - intros w1 w2 w3 [Hf1 H1] [Hf2 H2]. split; [congruence|].
    intros name d H3. destruct (H2 name d H3) as [H|H]; [by apply H1|by right].
Qed.




End DeclaredAt.


Section ProcessDecl.

Variable args0 : string.
Variable decl : nsref.
Variable decl_used : usedref.








End ProcessDecl.



(** ** Runs of the compiler on the example inputs *)

(** The loop over the operands of a statement always returns: no
    operand, of level 6 or not, ends the run. *)
Lemma operand_loop_returns (args0 : string) (decl : nsref) (used : usedref)
    (lineno : Z) (toks : list string) :
  ∀ (level : Z) (w : World),
    ∃ level' w', operand_loop args0 decl used lineno toks level w = Ok level' w'.
Proof.
  induction toks as [|t toks IH]; intros level w; [by eexists _, _|].
  simpl. munfold. destruct (get_ns decl w !! t) as [d|]; [|apply IH]. simpl.
  destruct (Decl.level d =? 6); [apply IH|].
  destruct (level <? Decl.level d); apply IH.
Qed.

(** A state that no description file gives: [total] is declared by hand
    with level 6, and is then read in an assignment and in a call.
    [levelise] prints the two lines of the error for each and goes on:
    it returns at the closing brace, both statements are in [decode]
    with a level that ignores the quantity, and the template is then
    woven with them in its output. *)
Lemma levelise_level_6_read_continues :
  match (rvalue_program;; weave_template example_metric levels_template)
          (empty_world rvalue_file) with
  | Ok _ w =>
      statements_of Decode w
      = [Some {| s_lineno := 3; s_level := 1; s_text := "x = total + 1;" |};
         Some {| s_lineno := 4; s_level := 1; s_text := "foo(total);" |}]
      ∧ level_of DecodeDecl "total" w = Some 6
      ∧ buf (w_out w)
        = ln ("#line 3 " +:+ dquote +:+ example_metric +:+ dquote)
          +:+ ln ("#error " +:+ dquote +:+ "accumulator used as rvalue" +:+ dquote)
          +:+ ln ("#line 4 " +:+ dquote +:+ example_metric +:+ dquote)
          +:+ ln ("#error " +:+ dquote +:+ "accumulator used as rvalue" +:+ dquote)
          +:+ ln "/* METRIC_PER_CALL */"
          +:+ ln "x = total + 1;"
          +:+ ln "foo(total);"
          +:+ nl
          +:+ ln "/* METRIC_PER_DOC */"
          +:+ nl
  | _ => False
  end.
Proof. vm_compute. by split_and!. Qed.

(** C2. After [x = f_dt;] the stored level of [x] is 3; after the
    assignment [x = 1;] that follows, it is 1: the assignment stores the
    level it computed, also when that is lower. *)
Theorem levelise_lowers_stored_level :
  match parse_metric example_metric 10 (empty_world assign_file),
        parse_metric example_metric 10 (empty_world reassign_file) with
  | Ok _ w1, Ok _ w2 =>
      level_of DecodeDecl "x" w1 = Some 3
      ∧ level_of DecodeDecl "x" w2 = Some 1
      ∧ statements_of Decode w2
        = [Some {| s_lineno := 3; s_level := 3; s_text := "x = f_dt;" |};
           Some {| s_lineno := 4; s_level := 1; s_text := "x = 1;" |}]
  | _, _ => False
  end.
Proof. vm_compute. by split_and!. Qed.

(** C3. The second loop of [propagate] scans the statements in the
    order of the first: the statement that opens the braces keeps level
    1, and the statement after it has level 3. *)
Theorem propagate_second_scan_forward :
  match parse_metric example_metric 10 (empty_world braces_file) with
  | Ok _ w =>
      statements_of Decode w
      = [Some {| s_lineno := 2; s_level := 1; s_text := "if (N) {" |};
         Some {| s_lineno := 3; s_level := 3; s_text := "accumulator += f_dt;" |};
         Some {| s_lineno := 4; s_level := 3; s_text := "}" |}]
  | _ => False
  end.
Proof. vm_compute. done. Qed.

(** The loop over the tokens of [contrib] leaves the world, and so every
    used-dictionary, as it found it. *)
Lemma contrib_loop_world (namespaces : list nsref) (toks : list string) :
  ∀ (used : list uslot) (w : World),
    match contrib_loop namespaces toks used w with
    | Ok _ w' | Exit _ w' | Raise _ w' | Hang w' => w' = w
    | NoFuel => False
    end.
Proof.
  induction toks as [|t toks IH]; intros used w; [done|].
  simpl. munfold. destruct (namespaces !! 0%nat) as [n0|]; [|done]. simpl.
  destruct (has_key (get_ns n0 w) t); [|apply IH].
  destruct used; [done|apply IH].
Qed.

(** C4. A declaration whose contribution fallback names [avg_D_bytes],
    which the first namespace declares.  The name is put in slot 0 of
    the list [used], in the place of the first used-dictionary, and
    neither used-dictionary records it: both are empty after the
    declaration, as they are after the built-ins. *)
Theorem ins_decl_contrib_not_recorded :
  match contrib_program (empty_world []) with
  | Ok used w =>
      used = [UStr "avg_D_bytes"; UDict PostUsed]
      ∧ has_key (w_decode_decl w) "avg_D_bytes" = true
      ∧ Decl.contrib <$> w_decode_decl w !! "D_bytes" = Some "((float) avg_D_bytes)"
      ∧ Decl.contrib <$> w_decode_decl w !! "D_size" = Some "((float) avg_D_bytes)"
      ∧ w_decode_used w !! "avg_D_bytes" = None
      ∧ w_decode_used w = ∅
      ∧ w_post_used w = ∅
  | _ => False
  end.
Proof. vm_compute. by split_and!. Qed.

(** C6. An assignment to the built-in [f_t], whose line number is -1
    and whose type starts with [const]: nothing is printed, the run goes
    on, and the statement is in [decode].  An assignment to a constant
    whose line number is 0 prints the two lines of the error, and the
    run goes on as well. *)
Theorem levelise_assigns_builtin_const :
  match parse_metric example_metric 10 (empty_world const_file),
        zero_const_program (empty_world zero_const_file) with
  | Ok _ w, Ok (lineno, line) w0 =>
      Decl.lineno <$> w_decode_decl w !! "f_t" = Some (-1)
      ∧ Decl.type <$> w_decode_decl w !! "f_t" = Some "const unsigned int"
      ∧ statements_of Decode w
        = [Some {| s_lineno := 2; s_level := 1; s_text := "f_t = 1;" |}]
      ∧ buf (w_out w) = ""
      ∧ line = ln "}"
      ∧ statements_of Decode w0
        = [Some {| s_lineno := 2; s_level := 1; s_text := "c = 1;" |}]
      ∧ buf (w_out w0)
        = ln ("#line 2 " +:+ dquote +:+ example_metric +:+ dquote)
          +:+ ln ("#error " +:+ dquote +:+ "assigning to const quantity" +:+ dquote)
  | _, _ => False
  end.
Proof. vm_compute. by split_and!. Qed.

(** C7. A declaration with a comment that is opened after position 0
    and not closed.  [ins_decl] prints the two lines of the error and
    goes on: [x] is declared with the open comment as its initialiser,
    and the run continues with the statements of the body. *)
Theorem ins_decl_open_comment_continues :
  match parse_metric example_metric 10 (empty_world comment_file) with
  | Ok _ w =>
      Decl.init <$> w_decode_decl w !! "x" = Some "/* note"
      ∧ statements_of Decode w
        = [Some {| s_lineno := 3; s_level := 1; s_text := "x = 1;" |}]
      ∧ buf (w_out w)
        = ln ("#line 2 " +:+ dquote +:+ example_metric +:+ dquote)
          +:+ ln ("#error " +:+ dquote +:+ "multiline comment in declaration" +:+ dquote)
  | _ => False
  end.
Proof. vm_compute. by split_and!. Qed.

(** ** Instances *)

Lemma print_level_frame_witness :
  list_allocated Decode two_statements
  ∧ ∃ w', print_level Decode 2 4 ∅ two_statements = Ok () w'
          ∧ w' = set_out (w_out w') two_statements
          ∧ w_heap w' = w_heap two_statements
          ∧ get_list Decode w' = get_list Decode two_statements
          ∧ ∀ r, statements_of r w' = statements_of r two_statements.
Proof.
  assert (H : list_allocated Decode two_statements)
    by (repeat constructor; eexists; reflexivity).
  split; [exact H|].
  exact (print_level_frame Decode 2 4 ∅ two_statements H).
Defined.

Lemma weave_metric_name_bm25_witness :
  ∃ o, weave_template example_metric
         (name_template_header ++ name_template_hend
            :: name_template_body1 ++ name_template_mline :: name_template_body2)
         (empty_world [])
       = Ok () (set_out o (empty_world []))
       ∧ buf o = buf (w_out (empty_world [])) +:+ Py.concat name_template_body1
                 +:+ Py.concat ["int"; " "]
                 +:+ "/* METRIC_NAME */" +:+ " bm25"
                 +:+ Py.concat ["_decode"; "("; "void"; ")"; " "; "{"; " "; "return";
                                " "; "0"; ";"; " "; "}"; nl]
                 +:+ Py.concat name_template_body2.
Proof.
  apply (weave_metric_name_bm25 example_metric name_template_header
           name_template_hend name_template_body1 name_template_mline
           ["int"; " "]
           ["_decode"; "("; "void"; ")"; " "; "{"; " "; "return"; " "; "0"; ";"; " ";
            "}"; nl]
           name_template_body2 (empty_world [])).
  - vm_compute. reflexivity.
  - repeat constructor.
  - vm_compute. discriminate.
  - repeat constructor.
  - vm_compute. reflexivity.
  - vm_compute. reflexivity.
  - vm_compute. reflexivity.
  - repeat constructor.
  - reflexivity.
Defined.

(** ** More on the tokenizer *)

Section TokenClasses.

Lemma tclass_eqb_refl (k : tclass) : tclass_eqb k k = true.
Proof. by destruct k. Qed.

Lemma tclass_eqb_eq (a b : tclass) : tclass_eqb a b = true ↔ a = b.
Proof. destruct a, b; simpl; split; try done. Qed.

(** A run taken by [Py.span] holds characters of the predicate only,
    and the rest does not start with one. *)
Lemma span_run (p : ascii → bool) (s : string) :
  (∀ k, (∀ c, p c = true → char_class c = k) → all_class k (Py.span p s).1 = true)
  ∧ match (Py.span p s).2 with
    | "" => True
    | String c _ => p c = false
    end.
Proof.
  induction s as [|c s [IH1 IH2]]; [done|]. simpl.
  destruct (p c) eqn:Hc; [|by split].
  destruct (Py.span p s) as [a b]. simpl in *. split; [|done].
  intros k Hk. by rewrite (Hk c Hc), tclass_eqb_refl, (IH1 k Hk).
Qed.

Lemma isword_class (c : ascii) : isword c = true ↔ char_class c = CWord.
Proof.
  unfold isword, char_class.
  destruct (Py.isspace c), (isop c), (Ascii.eqb c ";"); simpl; split; done.
Qed.

Lemma isspace_class (c : ascii) : Py.isspace c = true ↔ char_class c = CSpace.
Proof.
  unfold char_class.
  destruct (Py.isspace c), (isop c), (Ascii.eqb c ";"); simpl; split; done.
Qed.

Lemma isop_class (c : ascii) : isop c = true ↔ char_class c = COp.
Proof.
  unfold char_class. destruct (Py.isspace c) eqn:Hsp.
  - split; [|done]. intros Hop. exfalso. revert Hsp Hop. clear.
    unfold isop, Py.isspace. destruct c as [[] [] [] [] [] [] [] []]; done.
  - destruct (isop c), (Ascii.eqb c ";"); simpl; split; done.
Qed.

Lemma tok_class_run (c : ascii) (run : string) :
  all_class (char_class c) run = true → char_class c ≠ CSemi →
  tok_class (String c run) = Some (char_class c).
Proof.
  intros Hall Hns. unfold tok_class. rewrite Hall.
  destruct (tclass_eqb (char_class c) CSemi) eqn:E; [|done].
  by apply tclass_eqb_eq in E.
Qed.

Lemma ctok_loop_munched (fuel : nat) :
  ∀ (line : string) (char : nat) (toks : list string) (chars : list nat)
    (prev : option tclass),
    (String.length line ≤ fuel)%nat →
    match prev, line with
    | Some p, String c _ => p = char_class c → p = CSemi
    | _, _ => True
    end →
    ∃ T, (ctok_loop fuel line char toks chars).1 = toks ++ T
         ∧ munched prev T = true.
Proof.
  induction fuel as [|fuel IH]; intros line char toks chars prev Hlen Hprev.
  - destruct line; [|simpl in Hlen; lia]. exists []. by rewrite app_nil_r.
  - destruct line as [|c line]; [exists []; by rewrite app_nil_r|].
    simpl in Hlen. cbn [ctok_loop].
    assert (Hrun : ∀ p, (∀ x, p x = true ↔ char_class x = char_class c) →
              char_class c ≠ CSemi →
              ∃ T, (let '(run, line0) := Py.span p line in
                    ctok_loop fuel line0 (char + String.length run + 1)
                              (toks ++ [String c run]) (chars ++ [char])).1
                   = toks ++ T ∧ munched prev T = true).
    { intros p Hp Hns.
      destruct (span_run p line) as [Hall Hrest].
      pose proof (span_length p line) as Hle.
      destruct (Py.span p line) as [run rest]. simpl in Hall, Hrest, Hle.
      destruct (IH rest (char + String.length run + 1)%nat
                  (toks ++ [String c run]) (chars ++ [char]) (Some (char_class c)))
        as (T & HT & Hm); [lia| |].
      { destruct rest as [|c' rest]; [done|]. intros Heq.
        symmetry in Heq. apply Hp in Heq. congruence. }
      exists (String c run :: T). split.
      - by rewrite HT, <- app_assoc.
      - cbn [munched].
        rewrite tok_class_run; [|apply Hall; intros x Hx; by apply Hp|done].
        rewrite Hm, andb_true_r.
        destruct prev as [q|]; [|done]. cbn in Hprev.
        apply orb_true_iff. left. apply negb_true_iff.
        destruct (tclass_eqb q (char_class c)) eqn:E; [|done].
        apply tclass_eqb_eq in E. rewrite (Hprev E) in E. congruence. }
    destruct (Py.isspace c) eqn:Hsp.
    { apply isspace_class in Hsp. apply (Hrun Py.isspace).
      - intros x. rewrite Hsp. apply isspace_class.
      - congruence. }
    destruct (isop c) eqn:Hop.
    { apply isop_class in Hop. apply (Hrun isop).
      - intros x. rewrite Hop. apply isop_class.
      - congruence. }
    destruct (Ascii.eqb_spec c ";"%char) as [->|Hne].
    { destruct (IH line (char + 1)%nat (toks ++ [";"]) (chars ++ [char]) (Some CSemi))
        as (T & HT & Hm); [lia|by destruct line|].
      exists (";" :: T). split.
      - by rewrite HT, <- app_assoc.
      - cbn [munched]. change (tok_class ";") with (Some CSemi).
        cbn beta iota. rewrite Hm. by destruct prev as [[]|]. }
    assert (Hw : char_class c = CWord).
    { unfold char_class. rewrite Hsp, Hop. by destruct (Ascii.eqb_spec c ";"%char). }
    apply (Hrun isword).
    + intros x. rewrite Hw. apply isword_class.
    + congruence.
Qed.

End TokenClasses.

(** X1. [ctok] is greedy: every token is a non-empty run of characters of
    one class (whitespace, operator, [;], other), a [;] token is one
    character long, and no two tokens in a row have the same class,
    unless they are both [;]. *)
Theorem ctok_munched (line : string) : munched None (ctok line).1 = true.
Proof.
  unfold ctok.
  destruct (ctok_loop_munched (String.length line) line 0 [] [] None) as (T & HT & Hm);
    [lia|done|].
  by rewrite HT.
Qed.

Section NonSpaceTokens.

Lemma zip_map_fst_snd {A B} (l : list (A * B)) : zip (map fst l) (map snd l) = l.
Proof. induction l as [|[a b] l IH]; [done|]. simpl. by f_equal. Qed.

Lemma filter_zip_Forall2 {A B} (P : A → B → Prop) (Q : A → bool)
    (l : list A) (k : list B) :
  Forall2 P l k →
  Forall2 P (map fst (filter (λ x, Q x.1) (zip l k)))
            (map snd (filter (λ x, Q x.1) (zip l k)))
  ∧ map fst (filter (λ x, Q x.1) (zip l k)) = filter (λ x, Q x) l.
Proof.
  induction 1 as [|x y l k Hxy H [IH1 IH2]]; [by split; [constructor|]|].
  cbn [zip_with]. rewrite !filter_cons. cbn [fst].
  destruct (decide (Q x)) as [Hq|Hq]; [|done].
  cbn [map fst snd].
  split; [by constructor|by rewrite IH2].
Qed.

End NonSpaceTokens.

(** X2. [ctok_nspace] keeps the tokens of [ctok] that are not whitespace, in
    order, and each with its own offset: the pairs of a token and its
    offset that it returns are the pairs of a token of [ctok] and the
    index at which that token starts in the line, less those of the
    whitespace tokens; so the text of the line at the offset returned
    with a token is that token. *)
Theorem ctok_nspace_offsets (line : string) :
  tokens_at line (ctok_nspace line).1 (ctok_nspace line).2
  ∧ (ctok_nspace line).1 = filter (λ t, negb (Py.str_isspace t)) (ctok line).1
  ∧ Forall (λ t, Py.str_isspace t = false) (ctok_nspace line).1
  ∧ zip (ctok_nspace line).1 (ctok_nspace line).2
    = filter (λ p, negb (Py.str_isspace p.1))
             (zip (ctok line).1 (token_starts 0 (ctok line).1))
  ∧ List.length (ctok_nspace line).2 = List.length (ctok_nspace line).1.
Proof.
  destruct (ctok_spec line) as (_ & Hstarts & Hat).
  unfold ctok_nspace. rewrite <-Hstarts.
  destruct (ctok line) as [toks chars]. simpl in *.
  destruct (filter_zip_Forall2 _ (λ t, negb (Py.str_isspace t)) toks chars Hat)
    as [H1 H2].
  split_and!; [done..| | |].
  - rewrite H2. apply Forall_forall. intros t Ht.
    apply list_elem_of_filter in Ht as [Ht _].
    by destruct (Py.str_isspace t).
  - apply zip_map_fst_snd.
  - by rewrite !length_map.
Qed.

(** ** Indentation *)

Section Lines.

Lemma rev_app_app (s1 s2 : string) : String.rev_app s1 s2 = String.rev_app s1 "" +:+ s2.
Proof.
  revert s2. induction s1 as [|c s1 IH]; intros s2; [done|].
  simpl. rewrite (IH (String c s2)), (IH (String c "")). by rewrite str_app_assoc.
Qed.

Lemma rev_cons (c : ascii) (s : string) :
  String.rev (String c s) = String.rev s +:+ String c "".
Proof. unfold String.rev. simpl. apply rev_app_app. Qed.

(** The accumulator of [Py.split_go] is the start of the first piece. *)
Lemma split_go_acc (sep : ascii) (s : string) :
  ∀ cur, ∃ x r, Py.split_go sep "" s = x :: r
                ∧ Py.split_go sep cur s = (String.rev cur +:+ x) :: r.
Proof.
  induction s as [|c s IH]; intros cur.
  - exists "", []. simpl. by rewrite str_app_nil_r.
  - simpl. destruct (Ascii.eqb c sep).
    + exists "", (Py.split_go sep "" s). by rewrite str_app_nil_r.
    + destruct (IH (String c "")) as (x & r & H0 & H1).
      destruct (IH (String c cur)) as (x' & r' & H0' & H2).
      rewrite H0 in H0'. injection H0' as <- <-.
      exists (String c x), r. rewrite H1, H2. split; [done|].
      by rewrite rev_cons, str_app_assoc.
Qed.

Lemma split_cons_ne (sep c : ascii) (s : string) :
  Ascii.eqb c sep = false →
  ∃ x r, Py.split sep s = x :: r ∧ Py.split sep (String c s) = String c x :: r.
Proof.
  intros Hc. unfold Py.split. simpl. rewrite Hc.
  destruct (split_go_acc sep s (String c "")) as (x & r & H0 & H1).
  exists x, r. by rewrite H0, H1.
Qed.

Lemma split_cons_eq (sep : ascii) (s : string) :
  Py.split sep (String sep s) = "" :: Py.split sep s.
Proof. unfold Py.split. simpl. by rewrite Ascii.eqb_refl. Qed.

Lemma join_cons (sep x y : string) (l : list string) :
  Py.join sep (x :: y :: l) = x +:+ sep +:+ Py.join sep (y :: l).
Proof. done. Qed.

(** Joining the lines of a text gives the text. *)
Lemma join_split (s : string) : Py.join nl (Py.split "010"%char s) = s.
Proof.
  induction s as [|c s IH]; [done|].
  destruct (Ascii.eqb c "010"%char) eqn:Hc.
  - apply Ascii.eqb_eq in Hc as ->. rewrite split_cons_eq.
    destruct (split_go_acc "010"%char s "") as (x & r & H0 & _).
    unfold Py.split in *. rewrite H0 in *. by rewrite join_cons, IH.
  - destruct (split_cons_ne _ c s Hc) as (x & r & H0 & H1).
    rewrite H1. rewrite H0 in IH. destruct r as [|y r]; [by rewrite <- IH|].
    rewrite join_cons in *. by rewrite str_app_cons, IH.
Qed.

(** The lines of a text hold no newline, and there is at least one. *)
Lemma split_lines (s : string) :
  Py.split "010"%char s ≠ [] ∧ Forall (λ x, no_newline x = true) (Py.split "010"%char s).
Proof.
  induction s as [|c s [IH1 IH2]]; [by split; [|repeat constructor]|].
  destruct (Ascii.eqb c "010"%char) eqn:Hc.
  - apply Ascii.eqb_eq in Hc as ->. rewrite split_cons_eq. split; [done|].
    by constructor.
  - destruct (split_cons_ne _ c s Hc) as (x & r & H0 & H1).
    rewrite H1. rewrite H0 in IH2. split; [done|].
    apply Forall_cons in IH2 as [Hx Hr]. constructor; [|done]. simpl. by rewrite Hc.
Qed.

Lemma split_no_newline (x : string) :
  no_newline x = true → Py.split "010"%char x = [x].
Proof.
  induction x as [|c x IH]; [done|]. simpl. intros [Hc Hx]%andb_true_iff.
  apply negb_true_iff in Hc.
  destruct (split_cons_ne _ c x Hc) as (y & r & H0 & H1).
  rewrite H1. rewrite (IH Hx) in H0. by injection H0 as <- <-.
Qed.

Lemma split_app_nl (x s : string) :
  no_newline x = true →
  Py.split "010"%char (x +:+ nl +:+ s) = x :: Py.split "010"%char s.
Proof.
  induction x as [|c x IH]; [intros _; apply split_cons_eq|].
  simpl. intros [Hc Hx]%andb_true_iff. apply negb_true_iff in Hc.
  rewrite str_app_cons.
  destruct (split_cons_ne _ c (x +:+ nl +:+ s) Hc) as (y & r & H0 & H1).
  rewrite H1. rewrite (IH Hx) in H0. by injection H0 as <- <-.
Qed.

(** The lines of joined lines are the lines. *)
Lemma split_join (lines : list string) :
  lines ≠ [] → Forall (λ x, no_newline x = true) lines →
  Py.split "010"%char (Py.join nl lines) = lines.
Proof.
  intros Hne Hall. induction Hall as [|x l Hx Hall IH]; [done|].
  destruct l as [|y l]; [by apply split_no_newline|].
  rewrite join_cons, split_app_nl by done. by rewrite IH.
Qed.

End Lines.

Section Indent.

Lemma dedent_unfold (s : string) :
  dedent s
  = Py.join nl (map (dedent_line (dedent_width (Py.split "010"%char s)))
                    (Py.split "010"%char s)).
Proof. reflexivity. Qed.

Lemma indent_unfold (s : string) (n : nat) :
  indent s n = Py.join nl (map (λ x, Py.repeat " "%char n +:+ x) (Py.split "010"%char s)).
Proof. reflexivity. Qed.

Lemma no_newline_app (a b : string) :
  no_newline (a +:+ b) = no_newline a && no_newline b.
Proof.
  induction a as [|c a IH]; [done|]. rewrite str_app_cons. simpl.
  by rewrite IH, andb_assoc.
Qed.

Lemma no_newline_repeat (n : nat) : no_newline (Py.repeat " "%char n) = true.
Proof. induction n; [done|]. simpl. done. Qed.

Lemma repeat_add (c : ascii) (a b : nat) :
  Py.repeat c (a + b) = Py.repeat c b +:+ Py.repeat c a.
Proof.
  induction b as [|b IH].
  - by rewrite Nat.add_0_r.
  - rewrite Nat.add_succ_r. simpl. by rewrite IH, str_app_cons.
Qed.

Lemma map_ext_Forall {A B} (f g : A → B) (l : list A) :
  Forall (λ x, f x = g x) l → map f l = map g l.
Proof. induction 1; simpl; congruence. Qed.

End Indent.

(** X3. [indent] composes: indenting by [a] and then by [b] is indenting by
    [a + b], and indenting by 0 changes nothing. *)
Theorem indent_indent (s : string) (a b : nat) :
  indent (indent s a) b = indent s (a + b) ∧ indent s 0 = s.
Proof.
  split.
  - rewrite !indent_unfold.
    destruct (split_lines s) as [Hne Hall].
    rewrite split_join.
    + rewrite map_map. f_equal. apply map_ext. intros x.
      by rewrite repeat_add, str_app_assoc.
    + by destruct (Py.split "010"%char s).
    + apply Forall_forall. intros y Hy. apply list_elem_of_In, in_map_iff in Hy
        as (x & <- & Hx). rewrite no_newline_app, no_newline_repeat.
      rewrite Forall_forall in Hall. apply Hall. by apply list_elem_of_In.
  - rewrite indent_unfold. rewrite <- (join_split s) at 2. f_equal.
    rewrite <- (map_id (Py.split "010"%char s)) at 2. by apply map_ext.
Qed.

Section Dedent.

Lemma span_space_fst (x : string) : Py.all_space (Py.span Py.isspace x).1 = true.
Proof.
  induction x as [|c x IH]; [done|]. simpl.
  destruct (Py.isspace c) eqn:Hc; [|done].
  destruct (Py.span Py.isspace x). simpl in *. by rewrite Hc.
Qed.

Lemma span_space_prefix (a s : string) :
  Py.all_space a = true →
  Py.span Py.isspace (a +:+ s)
  = (a +:+ (Py.span Py.isspace s).1, (Py.span Py.isspace s).2).
Proof.
  induction a as [|c a IH].
  { intros _. change ("" +:+ s) with s. by destruct (Py.span Py.isspace s). }
  simpl. intros [Hc Ha]%andb_true_iff. rewrite str_app_cons. simpl.
  by rewrite Hc, (IH Ha).
Qed.

Lemma span_space_rest (x : string) :
  Py.span Py.isspace (Py.span Py.isspace x).2 = ("", (Py.span Py.isspace x).2).
Proof.
  destruct (span_run Py.isspace x) as [_ H].
  destruct (Py.span Py.isspace x).2 as [|c r]; [done|]. simpl. by rewrite H.
Qed.

Lemma indent_width_span (x : string) :
  indent_width x = String.length (Py.span Py.isspace x).1.
Proof.
  unfold indent_width, Py.lstrip. rewrite <- (span_app Py.isspace x) at 1.
  rewrite str_length_app. lia.
Qed.

Lemma lstrip_prefix (a s : string) :
  Py.all_space a = true → Py.lstrip (a +:+ s) = Py.lstrip s.
Proof. intros Ha. unfold Py.lstrip. by rewrite span_space_prefix. Qed.

Lemma indent_width_prefix (a s : string) :
  Py.all_space a = true →
  indent_width (a +:+ s) = (String.length a + indent_width s)%nat.
Proof.
  intros Ha. rewrite !indent_width_span, span_space_prefix by done.
  simpl. by rewrite str_length_app.
Qed.

Lemma all_space_repeat (n : nat) : Py.all_space (Py.repeat " "%char n) = true.
Proof. induction n; [done|]. simpl. done. Qed.

Lemma length_repeat (c : ascii) (n : nat) : String.length (Py.repeat c n) = n.
Proof. induction n; simpl; congruence. Qed.

Lemma all_space_drop (d : nat) (a : string) :
  Py.all_space a = true → Py.all_space (Py.drop d a) = true.
Proof.
  revert a. induction d as [|d IH]; intros a Ha; [done|].
  destruct a as [|c a]; [done|]. simpl in *.
  apply andb_true_iff in Ha as [_ Ha]. by apply IH.
Qed.

Lemma length_drop (d : nat) (a : string) :
  String.length (Py.drop d a) = (String.length a - d)%nat.
Proof.
  revert a. induction d as [|d IH]; intros a; [simpl; lia|].
  destruct a as [|c a]; [done|]. simpl. apply IH.
Qed.

Lemma drop_app_le (d : nat) (a b : string) :
  (d ≤ String.length a)%nat → Py.drop d (a +:+ b) = Py.drop d a +:+ b.
Proof.
  revert a. induction d as [|d IH]; intros a Hd; [done|].
  destruct a as [|c a]; [simpl in Hd; lia|].
  rewrite str_app_cons. simpl. apply IH. simpl in Hd. lia.
Qed.

Lemma no_newline_drop (d : nat) (x : string) :
  no_newline x = true → no_newline (Py.drop d x) = true.
Proof.
  revert x. induction d as [|d IH]; intros x Hx; [done|].
  destruct x as [|c x]; [done|]. simpl in *.
  apply andb_true_iff in Hx as [_ Hx]. by apply IH.
Qed.

(** What [dedent] makes of a line that is not blank, when it removes no
    more than the indentation of the line. *)
Lemma dedent_line_nonblank (d : nat) (x : string) :
  nonblank x = true → (d ≤ indent_width x)%nat →
  dedent_line d x = Py.drop d x
  ∧ Py.lstrip (Py.drop d x) = Py.lstrip x
  ∧ indent_width (Py.drop d x) = (indent_width x - d)%nat.
Proof.
  intros Hx Hd. rewrite indent_width_span in Hd.
  assert (Hdrop : Py.drop d x
                  = Py.drop d (Py.span Py.isspace x).1 +:+ (Py.span Py.isspace x).2).
  { rewrite <- (span_app Py.isspace x) at 1. by apply drop_app_le. }
  assert (Hl : Py.lstrip (Py.drop d x) = Py.lstrip x).
  { rewrite Hdrop, lstrip_prefix by apply all_space_drop, span_space_fst.
    unfold Py.lstrip. by rewrite span_space_rest. }
  split_and!; [|done|].
  - unfold dedent_line. rewrite Hx.
    destruct (Py.drop d x) eqn:E; [|done].
    unfold nonblank in Hx. rewrite <- Hl in Hx. try rewrite E in Hx. done.
  - rewrite Hdrop, indent_width_prefix by apply all_space_drop, span_space_fst.
    rewrite indent_width_span, span_space_rest, length_drop, indent_width_span.
    simpl. lia.
Qed.

Lemma dedent_line_blank (d : nat) (x : string) :
  nonblank x = false → dedent_line d x = x.
Proof. intros Hx. unfold dedent_line. by rewrite Hx. Qed.

Lemma dedent_line_0 (x : string) : dedent_line 0 x = x.
Proof. unfold dedent_line. destruct (nonblank x); [|done]. by destruct x. Qed.

Lemma foldl_min_le (n : nat) (ns : list nat) :
  Forall (λ m, (foldl Nat.min n ns ≤ m)%nat) (n :: ns).
Proof.
  revert n. induction ns as [|k ns IH]; intros n; [by repeat constructor|].
  simpl. specialize (IH (Nat.min n k)). apply Forall_cons in IH as [H1 H2].
  constructor; [lia|]. constructor; [lia|done].
Qed.

Lemma foldl_min_sub (d n : nat) (ns : list nat) :
  foldl Nat.min (n - d)%nat (map (λ m, (m - d)%nat) ns)
  = (foldl Nat.min n ns - d)%nat.
Proof.
  revert n. induction ns as [|k ns IH]; intros n; [done|].
  simpl. rewrite <- IH. f_equal. lia.
Qed.

Lemma foldl_min_add (d n : nat) (ns : list nat) :
  foldl Nat.min (d + n)%nat (map (λ m, (d + m)%nat) ns)
  = (d + foldl Nat.min n ns)%nat.
Proof.
  revert n. induction ns as [|k ns IH]; intros n; [done|].
  simpl. rewrite <- IH. f_equal. lia.
Qed.

(** The widths of the lines that are not blank, after a map that keeps
    the blank lines blank and changes the width of the others by [g]. *)
Lemma widths_map (f : string → string) (g : nat → nat) (lines : list string) :
  Forall (λ x, nonblank (f x) = nonblank x
               ∧ (nonblank x = true → indent_width (f x) = g (indent_width x))) lines →
  map indent_width (filter (λ x, nonblank x) (map f lines))
  = map g (map indent_width (filter (λ x, nonblank x) lines)).
Proof.
  induction 1 as [|x l [H1 H2] H IH]; [done|].
  cbn [map]. rewrite !filter_cons, H1.
  destruct (decide (nonblank x)) as [Hx|Hx]; [|done].
  cbn [map]. rewrite IH, H2; [done|]. by apply Is_true_true.
Qed.

Lemma dedent_lines_widths (lines : list string) :
  map indent_width
      (filter (λ x, nonblank x) (map (dedent_line (dedent_width lines)) lines))
  = map (λ m, (m - dedent_width lines)%nat)
        (map indent_width (filter (λ x, nonblank x) lines)).
Proof.
  apply widths_map. apply Forall_forall. intros x Hx.
  destruct (nonblank x) eqn:Hnb.
  - assert (Hle : (dedent_width lines ≤ indent_width x)%nat).
    { unfold dedent_width.
      assert (Hin : indent_width x
                    ∈ map indent_width (filter (λ x, nonblank x) lines)).
      { apply list_elem_of_In, in_map, list_elem_of_In, list_elem_of_filter.
        split; [by apply Is_true_true|done]. }
      destruct (map indent_width (filter (λ x, nonblank x) lines)) as [|n ns];
        [lia|].
      pose proof (foldl_min_le n ns) as Hall. rewrite Forall_forall in Hall.
      by apply Hall. }
    destruct (dedent_line_nonblank _ x Hnb Hle) as (-> & Hl & Hw).
    split; [|done]. unfold nonblank in *. by rewrite Hl.
  - rewrite dedent_line_blank by done. by split.
Qed.

Lemma dedent_width_dedent (lines : list string) :
  dedent_width (map (dedent_line (dedent_width lines)) lines) = 0%nat.
Proof.
  unfold dedent_width at 1. rewrite dedent_lines_widths.
  unfold dedent_width.
  destruct (map indent_width (filter (λ x, nonblank x) lines)) as [|n ns]; [done|].
  cbn [map]. rewrite foldl_min_sub. lia.
Qed.

Lemma dedent_lines_no_newline (d : nat) (lines : list string) :
  Forall (λ x, no_newline x = true) lines →
  Forall (λ x, no_newline x = true) (map (dedent_line d) lines).
Proof.
  intros H. apply Forall_forall. intros y Hy.
  apply list_elem_of_In, in_map_iff in Hy as (x & <- & Hx).
  rewrite Forall_forall in H. apply list_elem_of_In, H in Hx.
  unfold dedent_line. destruct (nonblank x); [|done].
  pose proof (no_newline_drop d x Hx). by destruct (Py.drop d x).
Qed.

End Dedent.

(** X4. [dedent] is idempotent: a text that has been dedented is left as it
    is by a second [dedent]. *)
Theorem dedent_idempotent (s : string) : dedent (dedent s) = dedent s.
Proof.
  rewrite (dedent_unfold s).
  destruct (split_lines s) as [Hne Hall].
  set (L := Py.split "010"%char s) in *.
  set (L' := map (dedent_line (dedent_width L)) L).
  assert (Hne' : L' ≠ []) by (subst L'; by destruct L).
  assert (Hall' : Forall (λ x, no_newline x = true) L')
    by by apply dedent_lines_no_newline.
  rewrite dedent_unfold, (split_join L' Hne' Hall').
  subst L'. rewrite dedent_width_dedent. f_equal.
  rewrite <- (map_id (map _ L)) at 2. apply map_ext, dedent_line_0.
Qed.

(** X5. The code that [output_decl] prints for a quantity is [dedent]ed and
    then [indent]ed to the column of the marker: when the text has a
    line that is not blank, the least indented such line of the result
    starts at column [n]; a text of blank lines has none. *)
Theorem indent_dedent_column (s : string) (n : nat) :
  min_indent (indent (dedent s) n) = (λ _, n) <$> min_indent s.
Proof.
  unfold min_indent. rewrite indent_unfold, dedent_unfold.
  destruct (split_lines s) as [Hne Hall].
  assert (Hne' : map (dedent_line (dedent_width (Py.split "010" s)))
                     (Py.split "010" s) ≠ [])
    by by destruct (Py.split "010"%char s).
  pose proof (dedent_lines_no_newline (dedent_width (Py.split "010" s)) _ Hall) as Hall'.
  rewrite (split_join _ Hne' Hall').
  rewrite split_join.
  - rewrite (widths_map _ (λ m, (n + m)%nat)).
    + rewrite dedent_lines_widths.
      pose proof (dedent_width_dedent (Py.split "010" s)) as H0.
      unfold dedent_width in H0 at 1. rewrite dedent_lines_widths in H0.
      destruct (map indent_width (filter (λ x, nonblank x) (Py.split "010" s)))
        as [|m ms]; [done|].
      cbn [map] in *. rewrite foldl_min_add, H0. simpl. f_equal. lia.
    + apply Forall_forall. intros x _.
      pose proof (all_space_repeat n) as Hsp. split.
      * unfold nonblank. by rewrite lstrip_prefix.
      * intros _. by rewrite indent_width_prefix, length_repeat.
  - by destruct (map _ (Py.split "010"%char s)).
  - apply Forall_forall. intros y Hy.
    apply list_elem_of_In, in_map_iff in Hy as (x & <- & Hx).
    rewrite no_newline_app, no_newline_repeat.
    rewrite Forall_forall in Hall'. apply Hall'. by apply list_elem_of_In.
Qed.

(** ** Reasoning about runs *)

Section Sat.

Context {A B : Type}.

Lemma sat_ret (a : A) (w : World) Q E : Q a w → sat (mret a) w Q E.
Proof. done. Qed.

Lemma sat_bind (m : M A) (f : A → M B) (w : World) Q E :
  sat m w (λ a w', sat (f a) w' Q E) E → sat (m ≫= f) w Q E.
Proof. unfold sat. munfold. cbv beta. by destruct (m w). Qed.

Lemma sat_mono (m : M A) (w : World) (Q Q' : A → World → Prop)
    (E E' : Z → World → Prop) :
  sat m w Q E → (∀ a w', Q a w' → Q' a w') → (∀ c w', E c w' → E' c w') →
  sat m w Q' E'.
Proof. unfold sat. intros H HQ HE. destruct (m w); auto. Qed.

Lemma sat_post (m : M A) (w : World) (Q Q' : A → World → Prop)
    (E : Z → World → Prop) :
  sat m w Q E → (∀ a w', Q a w' → Q' a w') → sat m w Q' E.
Proof. intros H HQ. by apply (sat_mono m w Q Q' E E). Qed.

Lemma sat_exit (c : Z) (w : World) (Q : A → World → Prop) E :
  E c w → sat (sys_exit c) w Q E.
Proof. done. Qed.

Lemma sat_raise (e : exn) (w : World) (Q : A → World → Prop) E : sat (raise e) w Q E.
Proof. done. Qed.

Lemma sat_hang (w : World) (Q : A → World → Prop) E : sat hang w Q E.
Proof. done. Qed.

Lemma sat_no_fuel (w : World) (Q : A → World → Prop) E : sat no_fuel w Q E.
Proof. done. Qed.

Lemma sat_unwrap (e : exn) (o : option A) (w : World) Q E :
  (∀ a, o = Some a → Q a w) → sat (unwrap e o) w Q E.
Proof. intros H. destruct o; [by apply H|done]. Qed.

Lemma sat_ok (m : M A) (w : World) (a : A) (w' : World) Q E :
  sat m w Q E → m w = Ok a w' → Q a w'.
Proof. unfold sat. intros H Hm. by rewrite Hm in H. Qed.

End Sat.

Section SatWorld.

Lemma sat_get (w : World) Q E : Q w w → sat get w Q E.
Proof. done. Qed.

Lemma sat_modify (f : World → World) (w : World) Q E :
  Q () (f w) → sat (modify f) w Q E.
Proof. done. Qed.

Lemma sat_print (items : list pitem) (newline : bool) (w : World) Q E :
  (∀ o, Q () (set_out o w)) → sat (py_print items newline) w Q E.
Proof. intros H. apply H. Qed.

Lemma sat_write (s : string) (w : World) Q E :
  (∀ o, Q () (set_out o w)) → sat (write s) w Q E.
Proof. intros H. apply H. Qed.

Lemma sat_readline (w : World) Q E :
  (w_file w = [] → Q "" w) →
  (∀ l f, w_file w = l :: f → Q l (set_file f w)) →
  sat readline w Q E.
Proof. intros H1 H2. unfold sat, readline. destruct (w_file w); auto. Qed.

(** A loop over a list keeps an invariant that each of its iterations
    keeps. *)
Lemma sat_for_each {A} (l : list A) (body : A → M ()) (I : World → Prop) E :
  ∀ w, I w →
       (∀ x w, x ∈ l → I w → sat (body x) w (λ _ w', I w') E) →
       sat (for_each l body) w (λ _ w', I w') E.
Proof.
  induction l as [|x l IH]; intros w Hw Hbody; [done|].
  simpl. apply sat_bind.
  eapply sat_mono; [apply Hbody; [by left|done]| |done].
  intros u w' Hw'. apply IH; [done|]. intros y w1 Hy. apply Hbody. by right.
Qed.

End SatWorld.

(** One step through the text of a function. *)
Ltac sat_step :=
  lazymatch goal with
  | |- sat (mret _) _ _ _ => apply sat_ret
  | |- sat (mbind _ _) _ _ _ => apply sat_bind
  | |- sat get _ _ _ => apply sat_get
  | |- sat (sys_exit _) _ _ _ => apply sat_exit
  | |- sat (raise _) _ _ _ => apply sat_raise
  | |- sat hang _ _ _ => apply sat_hang
  | |- sat no_fuel _ _ _ => apply sat_no_fuel
  | |- sat (unwrap _ _) _ _ _ => apply sat_unwrap; intros ? ?
  | |- sat (print_hash_line _ _) _ _ _ => apply sat_print; intros ?
  | |- sat (print_hash_error _) _ _ _ => apply sat_print; intros ?
  | |- sat (py_print _ _) _ _ _ => apply sat_print; intros ?
  | |- sat (write _) _ _ _ => apply sat_write; intros ?
  | |- sat readline _ _ _ => apply sat_readline; [intros ?|intros ? ? ?]
  | |- sat (modify _) _ _ _ => apply sat_modify
  | |- sat (if ?b then _ else _) _ _ _ => destruct b eqn:?
  | |- sat (match ?x with _ => _ end) _ _ _ => destruct x eqn:?
  end.

(** ** The declaration parser *)

Section InsDecl.

Variable args0 : string.

Lemma get_ns_set_ns (r n : nsref) (m : gmap string Decl.t) (w : World) :
  get_ns r (set_ns n m w) = if bool_decide (r = n) then m else get_ns r w.
Proof. by destruct r, n. Qed.

Lemma get_used_set_used (r u : usedref) (m : gmap string string) (w : World) :
  get_used r (set_used u m w) = if bool_decide (r = u) then m else get_used r w.
Proof. by destruct r, u. Qed.

(** The loop that looks for a collision: it returns when no namespace
    declares the name, and changes nothing. *)
Lemma collision_loop_sat (tok0 : string) (body_exit : M ()) (namespaces : list nsref)
    (w : World) (E : Z → World → Prop) :
  (∀ w', sat body_exit w' (λ _ _, False) E) →
  sat (for_each namespaces (λ n,
         w ← get;
         if has_key (get_ns n w) tok0 then body_exit else mret ())) w
      (λ _ w', w' = w ∧ Forall (λ n, get_ns n w !! tok0 = None) namespaces) E.
Proof.
  intros Hexit. induction namespaces as [|n l IH]; [by split|].
  simpl. repeat sat_step.
  - eapply sat_post; [apply Hexit|done].
  - eapply sat_post; [apply IH|intros u w' [-> H]]. split; [done|].
    constructor; [|done]. unfold has_key in *. by destruct (get_ns n w !! tok0).
Qed.

Lemma used_grown_refl (used : list usedref) (w : World) : used_grown used w w.
Proof. by repeat split. Qed.

Lemma used_grown_setitem (used : list usedref) (u : usedref) (t : string)
    (w0 w : World) :
  u ∈ used → used_grown used w0 w →
  used_grown used w0 (set_used u (<[t := t]> (get_used u w)) w).
Proof.
  intros Hu (Hs & Hn & Ho & Hd & Hf). split_and!.
  - by destruct Hs as (? & ? & ? & ?).
  - intros r. rewrite <- Hn. by destruct r, u.
  - done.
  - intros r. rewrite get_used_set_used. case_bool_decide as Hr.
    + subst r. rewrite dom_insert. specialize (Hd u). set_solver.
    + apply Hd.
  - intros r Hr. rewrite get_used_set_used. case_bool_decide as Hru.
    + by subst r.
    + by apply Hf.
Qed.

Lemma used_loop_sat (used : list usedref) (toks : list string)
    (namespaces : list nsref) (w : World) E :
  sat (for_each toks (λ t,
         for_each namespaces (λ n,
           w ← get;
           if has_key (get_ns n w) t
           then for_each (UDict <$> used) (λ u, uslot_setitem u t)
           else mret ()))) w
      (λ _ w', used_grown used w w') E.
Proof.
  apply (sat_for_each _ _ (used_grown used w)); [apply used_grown_refl|].
  intros t w1 _ H1.
  apply (sat_for_each _ _ (used_grown used w)); [done|].
  intros n w2 _ H2. repeat sat_step; [|done].
  apply (sat_for_each _ _ (used_grown used w)); [done|].
  intros u w3 Hu H3. apply list_elem_of_fmap in Hu as (r & -> & Hr).
  unfold uslot_setitem. sat_step. by apply used_grown_setitem.
Qed.

(** The loop that accepts the declaration. *)
Lemma insert_loop_sat (name : string) (d : Decl.t) (namespaces : list nsref)
    (w : World) E :
  sat (for_each namespaces (λ n,
         modify (λ w, set_ns n (<[name := d]> (get_ns n w)) w))) w
      (λ _ w', same_statements w w' ∧ w_out w' = w_out w
               ∧ (∀ r, get_used r w' = get_used r w)
               ∧ ∀ r, get_ns r w'
                      = if bool_decide (r ∈ namespaces)
                        then <[name := d]> (get_ns r w) else get_ns r w) E.
Proof.
  revert w. induction namespaces as [|n l IH]; intros w.
  - simpl. apply sat_ret. by repeat split.
  - simpl. sat_step. sat_step.
    eapply sat_post; [apply IH|].
    intros u w' (Hs & Ho & Hu & Hn). split_and!.
    + by destruct Hs as (? & ? & ? & ?).
    + done.
    + intros r. rewrite Hu. by destruct r.
    + intros r. rewrite Hn, get_ns_set_ns.
      destruct (decide (r = n)) as [->|Hne].
      * rewrite (bool_decide_eq_true_2 (n = n)) by done.
        rewrite (bool_decide_eq_true_2 (n ∈ n :: l)) by by left.
        case_bool_decide; [by rewrite insert_insert_eq|done].
      * rewrite (bool_decide_eq_false_2 (r = n)) by done.
        case_bool_decide as H1; case_bool_decide as H2; try done.
        -- exfalso. apply H2. by right.
        -- exfalso. apply H1. by apply elem_of_cons in H2 as [?|?].
Qed.

Lemma head_drop_last {X} (x : X) (l : list X) (y : X) :
  head (drop_last (x :: l)) = Some y → y = x.
Proof.
  unfold drop_last. destruct l as [|z l]; [done|]. simpl. by intros [= ->].
Qed.

Lemma contrib_loop_sat (namespaces : list nsref) (toks : list string) E :
  ∀ (used : list uslot) (w : World),
    sat (contrib_loop namespaces toks used) w (λ _ w', w' = w) E.
Proof.
  induction toks as [|t toks IH]; intros used w; [done|].
  simpl. repeat sat_step; apply IH.
Qed.

Lemma ins_decl_sat (namespaces : list nsref) (used : list usedref) (line : string)
    (level : Z) (macro : string) (lineno : Z) (fninit pre contrib ex : string)
    (w : World) :
  sat (ins_decl args0 namespaces used line level macro lineno fninit pre contrib ex) w
      (λ _ w', inserted namespaces used level macro lineno fninit pre contrib ex w w')
      exit_2.
Proof.
  unfold ins_decl.
  repeat sat_step.
  all: try by unfold exit_2.
  all: eapply sat_post;
    [apply collision_loop_sat; intros; repeat sat_step; by unfold exit_2
    |intros ? w1 [-> Hfresh]].
  all: repeat sat_step; try by unfold exit_2.
  all: eapply sat_post; [apply used_loop_sat|intros ? w2 Hgrown].
  all: sat_step; sat_step.
  all: match goal with
       | H : head (drop_last (_ :: _)) = Some _ |- _ =>
           apply head_drop_last in H; subst
       end.
  all: sat_step.
  all: eapply sat_post; [apply insert_loop_sat|intros ? w3 (Hs3 & Ho3 & Hu3 & Hn3)].
  all: sat_step.
  all: eapply sat_post; [apply contrib_loop_sat|intros ? w4 ->].
  all: destruct Hgrown as (Hs2 & Hn2 & Ho2 & Hd2 & Hf2).
  all: match type of Hn3 with
       | ∀ r, _ = if _ then <[_ := ?d]> _ else _ => exists d
       end.
  all: split_and!; [reflexivity..| | | | |].
  all: try (by unfold same_statements in *; simpl in *;
            destruct Hs2 as (? & ? & ? & ?), Hs3 as (? & ? & ? & ?);
            repeat split; congruence).
  all: try (intros r; rewrite Hu3; apply Hd2).
  all: try (intros r Hr; rewrite Hu3; by apply Hf2).
  all: try (intros r; rewrite Hn3, Hn2; done).
  all: try exact Hfresh.
Qed.

End InsDecl.

(** ** The levels of a run *)

Section Levels.

Variable args0 : string.

Lemma levels_ok_out (o : Stdout) (w : World) : levels_ok w → levels_ok (set_out o w).
Proof. intros [H1 H2]. split; [|done]. intros r. specialize (H1 r). by destruct r. Qed.

Lemma levels_ok_used (u : usedref) (m : gmap string string) (w : World) :
  levels_ok w → levels_ok (set_used u m w).
Proof. intros [H1 H2]. split; [|done]. intros r. specialize (H1 r). by destruct r. Qed.

Lemma levels_ok_file (f : list string) (w : World) : levels_ok w → levels_ok (set_file f w).
Proof. intros [H1 H2]. split; [|done]. intros r. specialize (H1 r). by destruct r. Qed.

Lemma levels_ok_inserted (namespaces : list nsref) (used : list usedref) (level : Z)
    (macro : string) (lineno : Z) (fninit pre contrib ex : string) (w w' : World) :
  1 ≤ level ≤ 3 → levels_ok w →
  inserted namespaces used level macro lineno fninit pre contrib ex w w' →
  levels_ok w'.
Proof.
  intros Hl [H1 H2] (d & Hd & _ & _ & _ & _ & _ & _ & _ & Hn & (Hh & _) & _).
  split; [|by rewrite Hh].
  intros r name d'. rewrite Hn. case_bool_decide; [|apply H1].
  destruct (decide (Decl.name d = name)) as [<-|Hne].
  - rewrite lookup_insert_eq. intros [= <-]. by rewrite Hd.
  - rewrite lookup_insert_ne by done. apply H1.
Qed.

Lemma ins_decl_levels (namespaces : list nsref) (used : list usedref) (line : string)
    (level : Z) (macro : string) (lineno : Z) (fninit pre contrib ex : string)
    (w : World) :
  1 ≤ level ≤ 3 → levels_ok w →
  sat (ins_decl args0 namespaces used line level macro lineno fninit pre contrib ex) w
      (λ _ w', levels_ok w') exit_2.
Proof.
  intros Hl Hw. eapply sat_post; [apply ins_decl_sat|].
  intros ? w'. by apply levels_ok_inserted.
Qed.

Lemma declare_builtins_levels (w : World) :
  levels_ok w → sat (declare_builtins args0) w (λ _ w', levels_ok w') exit_2.
Proof.
  intros Hw. unfold declare_builtins.
  repeat (apply sat_bind; eapply sat_post; [by apply ins_decl_levels|];
          clear w Hw; intros ? w Hw).
  by apply sat_ret.
Qed.

Lemma levels_ok_append (l : listref) (locs : list nat) (s : Stmt) (w : World) :
  1 ≤ s_level s ≤ 3 → levels_ok w →
  levels_ok (set_list l locs (set_heap (w_heap w ++ [s]) w)).
Proof.
  intros Hs [H1 H2]. split.
  - intros r. specialize (H1 r). by destruct r, l.
  - assert (w_heap (set_list l locs (set_heap (w_heap w ++ [s]) w)) = w_heap w ++ [s])
      as -> by by destruct l.
    apply Forall_app. split; [done|]. by constructor.
Qed.

Lemma levels_ok_set_level (decl : nsref) (k : string) (level : Z) (d : Decl.t)
    (w : World) :
  1 ≤ level ≤ 3 → levels_ok w →
  levels_ok (set_ns decl (<[k := Decl.set_level level d]> (get_ns decl w)) w).
Proof.
  intros Hl [H1 H2]. split; [|by destruct decl].
  intros r name d'. rewrite get_ns_set_ns. case_bool_decide; [|apply H1]. subst r.
  destruct (decide (k = name)) as [<-|Hne].
  - rewrite lookup_insert_eq. by intros [= <-].
  - rewrite lookup_insert_ne by done. apply H1.
Qed.

Lemma process_decl_loop_levels (decl : nsref) (decl_used : usedref) (fuel : nat) :
  ∀ (line : string) (lineno : Z) (w : World),
    levels_ok w →
    sat (process_decl_loop args0 fuel decl decl_used line lineno) w
        (λ _ w', levels_ok w') exit_2.
Proof.
  induction fuel as [|fuel IH]; intros line lineno w Hw; cbn [process_decl_loop].
  - repeat sat_step; try done; by apply levels_ok_out.
  - repeat sat_step; try done; try by apply levels_ok_out.
    + eapply sat_post; [by apply ins_decl_levels|]. intros ? w1 Hw1.
      repeat sat_step; apply IH; by try apply levels_ok_file.
    + by apply IH.
    + by apply IH, levels_ok_file.
Qed.

Lemma process_decl_levels (decl : nsref) (decl_used : usedref) (fuel : nat)
    (lineno : Z) (w : World) :
  levels_ok w →
  sat (process_decl args0 fuel decl decl_used lineno) w (λ _ w', levels_ok w') exit_2.
Proof.
  intros Hw. unfold process_decl.
  repeat sat_step; apply process_decl_loop_levels; by try apply levels_ok_file.
Qed.

Lemma operand_loop_levels (decl : nsref) (used : usedref) (lineno : Z)
    (toks : list string) :
  ∀ (level : Z) (w : World),
    1 ≤ level ≤ 3 → levels_ok w →
    sat (operand_loop args0 decl used lineno toks level) w
        (λ level' w', 1 ≤ level' ≤ 3 ∧ levels_ok w') exit_2.
Proof.
  induction toks as [|t toks IH]; intros level w Hl Hw; [done|].
  cbn [operand_loop]. repeat sat_step.
  - apply IH; [done|]. by apply levels_ok_out, levels_ok_out, levels_ok_used.
  - apply IH; [|by apply levels_ok_used]. destruct Hw as [H1 _]. by eapply H1.
  - apply IH; [done|by apply levels_ok_used].
  - by apply IH.
Qed.

Lemma extend_loop_levels (fuel : nat) :
  ∀ (toks : list string) (line : string) (lineno : Z) (w : World),
    levels_ok w →
    sat (extend_loop fuel toks line lineno) w (λ _ w', levels_ok w') exit_2.
Proof.
  induction fuel as [|fuel IH]; intros toks line lineno w Hw; cbn [extend_loop].
  - by repeat sat_step.
  - repeat sat_step; try done. all: apply IH; by try apply levels_ok_file.
Qed.

Lemma list_append_levels (list : listref) (s : Stmt) (w : World) :
  1 ≤ s_level s ≤ 3 → levels_ok w →
  sat (list_append list s) w (λ _ w', levels_ok w') exit_2.
Proof. intros Hs Hw. apply sat_modify. by apply levels_ok_append. Qed.

Lemma levelise_line_levels (fuel : nat) (line : string) (lineno : Z) (decl : nsref)
    (list : listref) (used : usedref) (w : World) :
  levels_ok w →
  sat (levelise_line args0 fuel line lineno decl list used) w
      (λ _ w', levels_ok w') exit_2.
Proof.
  intros Hw. unfold levelise_line. repeat sat_step.
  - eapply sat_post; [by apply extend_loop_levels|]. intros [[toks line'] lineno'] w1 Hw1.
    repeat sat_step.
    all: (eapply sat_post;
          [apply operand_loop_levels;
           [lia|by repeat first [apply levels_ok_out|apply levels_ok_used]]|]).
    all: intros level w2 [Hl Hw2]; repeat sat_step.
    all: (eapply sat_post;
          [apply list_append_levels; [done|by try apply levels_ok_set_level]|]).
    all: intros; by apply sat_ret.
  - eapply sat_post; [apply list_append_levels; [simpl; lia|done]|].
    intros; by apply sat_ret.
  - eapply sat_post; [apply operand_loop_levels; [lia|done]|].
    intros level w2 [Hl Hw2]. repeat sat_step.
    eapply sat_post; [by apply list_append_levels|]. intros; by apply sat_ret.
Qed.

Lemma levelise_levels (decl : nsref) (list : listref) (used : usedref) (fuel : nat) :
  ∀ (line : string) (lineno : Z) (w : World),
    levels_ok w →
    sat (levelise args0 fuel line lineno decl list used) w
        (λ _ w', levels_ok w') exit_2.
Proof.
  induction fuel as [|fuel IH]; intros line lineno w Hw; cbn [levelise].
  - by repeat sat_step.
  - repeat sat_step; [|done].
    eapply sat_post; [by apply levelise_line_levels|]. intros lineno' w1 Hw1.
    repeat sat_step; apply IH; by try apply levels_ok_file.
Qed.

Lemma levels_ok_stmt (loc : nat) (s : Stmt) (w : World) :
  1 ≤ s_level s ≤ 3 → levels_ok w →
  levels_ok (set_heap (<[loc := s]> (w_heap w)) w).
Proof.
  intros Hs [H1 H2]. split.
  - intros r. specialize (H1 r). by destruct r.
  - simpl. by apply Forall_insert.
Qed.

Lemma propagate_loop_levels (has lacks : string) (locs : list nat) :
  ∀ (prevlevel : Z) (w : World),
    0 ≤ prevlevel ≤ 3 → levels_ok w →
    sat (propagate_loop has lacks locs prevlevel) w (λ _ w', levels_ok w') exit_2.
Proof.
  induction locs as [|loc locs IH]; intros prevlevel w Hp Hw; [done|].
  cbn [propagate_loop]. repeat sat_step.
  all: match goal with
       | Hs : w_heap _ !! _ = Some ?s |- _ =>
           assert (1 ≤ s_level s ≤ 3) as Hlevel
             by (destruct Hw as [_ H2]; rewrite Forall_lookup in H2; by eapply H2)
       end.
  - match goal with
    | Hb : _ && _ = true |- _ => apply andb_true_iff in Hb as [_ Hlt]
    end.
    apply IH; [simpl; lia|]. apply levels_ok_stmt; [simpl; lia|done].
  - apply IH; [lia|done].
Qed.

Lemma propagate_levels (statements : listref) (w : World) :
  levels_ok w → sat (propagate statements) w (λ _ w', levels_ok w') exit_2.
Proof.
  intros Hw. unfold propagate. repeat sat_step.
  eapply sat_post; [by apply propagate_loop_levels|]. intros ? w1 Hw1.
  by apply propagate_loop_levels.
Qed.

Lemma parse_loop_levels (fuel : nat) :
  ∀ (line : string) (lineno : Z) (comments : list string) (w : World),
    levels_ok w →
    sat (parse_loop args0 fuel line lineno comments) w (λ _ w', levels_ok w') exit_2.
Proof.
  induction fuel as [|fuel IH]; intros line lineno comments w Hw; cbn [parse_loop].
  - by repeat sat_step.
  - repeat sat_step; try done.
    all: try (repeat sat_step; apply IH; by try apply levels_ok_file).
    + eapply sat_post; [by apply ins_decl_levels|]. intros ? w1 Hw1.
      repeat sat_step; apply IH; by try apply levels_ok_file.
    + eapply sat_post; [by apply process_decl_levels|]. intros [lineno1 line1] w1 Hw1.
      sat_step. eapply sat_post; [by apply levelise_levels|].
      intros [lineno2 line2] w2 Hw2.
      repeat sat_step; try done; apply IH; by try apply levels_ok_file.
    + eapply sat_post; [by apply process_decl_levels|]. intros [lineno1 line1] w1 Hw1.
      sat_step. eapply sat_post; [by apply levelise_levels|].
      intros [lineno2 line2] w2 Hw2.
      repeat sat_step; try done; apply IH; by try apply levels_ok_file.
Qed.

End Levels.

(** ** Declarations *)

Section InsDeclProperties.

Variable args0 : string.

(** X6. A call of [ins_decl] that returns has put one declaration, made
    of the arguments of the call, under a name that no namespace of the
    call declared, in every namespace of the call and in no other; it
    has changed no statement, no statement list and not the file, and
    has removed no key of a used-dictionary.  A call that ends the
    program ends it with status 2. *)
Theorem ins_decl_inserts (namespaces : list nsref) (used : list usedref)
    (line : string) (level : Z) (macro : string) (lineno : Z)
    (fninit pre contrib ex : string) (w : World) :
  sat (ins_decl args0 namespaces used line level macro lineno fninit pre contrib ex) w
      (λ _ w', inserted namespaces used level macro lineno fninit pre contrib ex w w')
      exit_2.
Proof. apply ins_decl_sat. Qed.

(** X7. [ins_decl] never replaces a declaration: whatever a namespace
    binds to a name before a call that returns, it binds to it after
    the call. *)
Theorem ins_decl_keeps_declarations (namespaces : list nsref) (used : list usedref)
    (line : string) (level : Z) (macro : string) (lineno : Z)
    (fninit pre contrib ex : string) (w : World) :
  sat (ins_decl args0 namespaces used line level macro lineno fninit pre contrib ex) w
      (λ _ w', declarations_kept w w') exit_2.
Proof.
  eapply sat_post; [apply ins_decl_sat|].
  intros ? w' (d & _ & _ & _ & _ & _ & _ & _ & Hfresh & Hns & _) r name d0 Hd0.
  rewrite Hns. case_bool_decide as Hr; [|done].
  rewrite Forall_forall in Hfresh. specialize (Hfresh r Hr).
  rewrite lookup_insert_ne; [done|]. intros <-. congruence.
Qed.

End InsDeclProperties.

(** ** Levels of the whole description *)

(** X8. The main program, from the built-in declarations to the end of
    the two calls of [propagate], keeps levels in range: on whatever
    description file it runs, when it gets through, every declaration
    of every namespace and every statement has a level from 1 to 3;
    and when it ends the program instead, the status is 2. *)
Theorem parse_metric_levels (args0 : string) (fuel : nat) (file : list string) :
  sat (parse_metric args0 fuel) (empty_world file) (λ _ w', levels_ok w') exit_2.
Proof.
  assert (H0 : levels_ok (empty_world file)).
  { split; [|by constructor]. intros r name d. by destruct r. }
  unfold parse_metric. sat_step.
  eapply sat_post; [by apply declare_builtins_levels|]. intros ? w1 Hw1.
  repeat sat_step.
  all: eapply sat_post; [apply parse_loop_levels; by try apply levels_ok_file|].
  all: intros comments w2 Hw2; repeat sat_step.
  all: eapply sat_post; [by apply propagate_levels|]; intros ? w3 Hw3; repeat sat_step.
  all: eapply sat_post; [by apply propagate_levels|]; intros ? w4 Hw4.
  all: by apply sat_ret.
Qed.

(** ** Propagation *)

Section Propagate.

Lemma set_heap_id (w : World) : set_heap (w_heap w) w = w.
Proof. by destruct w. Qed.

Lemma raised_refl (h : list Stmt) : Forall2 raised h h.
Proof. apply Forall_Forall2_diag, Forall_forall. intros s _. unfold raised. repeat split; [done..|lia]. Qed.

Lemma raised_trans (h1 h2 h3 : list Stmt) :
  Forall2 raised h1 h2 → Forall2 raised h2 h3 → Forall2 raised h1 h3.
Proof.
  intros H12. revert h3. induction H12 as [|s1 s2 h1 h2 Hs _ IH]; intros h3 H23.
  - by inversion H23.
  - inversion H23 as [|? s3 ? h3' Hs' H23']; subst. constructor; [|by apply IH].
    unfold raised in *. destruct Hs as (Ha & Hb & Hc), Hs' as (Ha' & Hb' & Hc').
    repeat split; [congruence..|lia].
Qed.

Lemma raised_insert (h : list Stmt) (loc : nat) (s s' : Stmt) :
  h !! loc = Some s → raised s s' → Forall2 raised h (<[loc := s']> h).
Proof.
  intros Hs Hr. rewrite <-(list_insert_id h loc s Hs) at 1.
  apply Forall2_insert; [apply raised_refl|done].
Qed.

Lemma propagate_loop_raises (has lacks : string) (locs : list nat) :
  ∀ (prevlevel : Z) (w : World),
    Forall (λ loc, is_Some (w_heap w !! loc)) locs →
    ∃ h', propagate_loop has lacks locs prevlevel w = Ok () (set_heap h' w)
          ∧ Forall2 raised (w_heap w) h'.
Proof.
  induction locs as [|loc locs IH]; intros prevlevel w Hall.
  - exists (w_heap w). rewrite set_heap_id. split; [done|apply raised_refl].
  - apply Forall_cons in Hall as [[s Hs] Hall].
    cbn [propagate_loop]. munfold. rewrite Hs. cbn [from_option].
    destruct ((0 <=? Py.find (s_text s) has) && (Py.find (s_text s) lacks <? 0)
              && (s_level s <? prevlevel)) eqn:Hb.
    + apply andb_true_iff in Hb as [_ Hlt].
      set (s' := stmt_set_level prevlevel s).
      assert (Hr : raised s s') by (unfold raised; simpl; repeat split; [done..|lia]).
      destruct (IH (s_level s') (set_heap (<[loc := s']> (w_heap w)) w))
        as (h' & Hrun & Hh').
      { simpl. eapply Forall_impl; [exact Hall|]. intros l [x Hx].
        apply lookup_lt_is_Some. rewrite length_insert.
        by eapply lookup_lt_Some. }
      exists h'. split; [exact Hrun|].
      eapply raised_trans; [by eapply raised_insert|exact Hh'].
    + by apply IH.
Qed.

End Propagate.

(** X9. [propagate] only raises levels.  From a world in which the list
    holds statement objects the call returns; the statements are as
    many as before, each with the line number and the text it had and
    with a level that is not lower; nothing else of the world has
    changed. *)
Theorem propagate_raises_levels (statements : listref) (w : World) :
  list_allocated statements w →
  ∃ h', propagate statements w = Ok () (set_heap h' w)
        ∧ Forall2 raised (w_heap w) h'.
Proof.
  intros Hall. unfold propagate. munfold.
  destruct (propagate_loop_raises "}" "{" (get_list statements w) 0 w Hall)
    as (h1 & Hrun1 & Hh1).
  rewrite Hrun1.
  destruct (propagate_loop_raises "{" "}" (map (λ x, x) (get_list statements w)) 0
              (set_heap h1 w)) as (h2 & Hrun2 & Hh2).
  { rewrite map_id. simpl. eapply Forall_impl; [exact Hall|]. intros l [x Hx].
    apply lookup_lt_is_Some. rewrite <-(Forall2_length _ _ _ Hh1).
    by eapply lookup_lt_Some. }
  rewrite Hrun2. exists h2. split; [done|]. by eapply raised_trans.
Qed.

Lemma propagate_raises_levels_witness :
  list_allocated Decode two_statements
  ∧ ∃ h', propagate Decode two_statements = Ok () (set_heap h' two_statements)
          ∧ Forall2 raised (w_heap two_statements) h'.
Proof.
  assert (H : list_allocated Decode two_statements)
    by (repeat constructor; by eexists).
  split; [exact H|]. exact (propagate_raises_levels Decode two_statements H).
Defined.

(** ** The sort of the declarations *)

Section Sort.

Lemma insert_by_lineno_perm (d : Decl.t) (l : list Decl.t) :
  insert_by_lineno d l ≡ₚ d :: l.
Proof.
  induction l as [|x l IH]; [done|]. simpl.
  destruct (Decl.lineno d <=? Decl.lineno x); [done|].
  rewrite IH. apply Permutation_swap.
Qed.

Lemma insert_by_lineno_sorted (d : Decl.t) (l : list Decl.t) :
  StronglySorted lineno_le l → StronglySorted lineno_le (insert_by_lineno d l).
Proof.
  induction 1 as [|x l Hl IH Hx]; simpl; [by repeat constructor|].
  destruct (Decl.lineno d <=? Decl.lineno x) eqn:Hd.
  - apply Z.leb_le in Hd. constructor; [by constructor|].
    constructor; [done|]. eapply Forall_impl; [exact Hx|].
    intros y Hy. unfold lineno_le in *. lia.
  - apply Z.leb_gt in Hd. constructor; [done|].
    rewrite insert_by_lineno_perm. constructor; [|done]. unfold lineno_le. lia.
Qed.

Lemma insert_by_lineno_filter (n : Z) (d : Decl.t) (l : list Decl.t) :
  filter (λ x, Decl.lineno x = n) (insert_by_lineno d l)
  = filter (λ x, Decl.lineno x = n) (d :: l).
Proof.
  induction l as [|x l IH]; [done|]. simpl.
  destruct (Decl.lineno d <=? Decl.lineno x) eqn:Hd; [done|].
  apply Z.leb_gt in Hd. rewrite (filter_cons _ x), IH, !filter_cons.
  repeat case_decide; try done; lia.
Qed.

End Sort.

(** X10. The sort of [output_decl] puts the declarations in the order of
    their line numbers and is stable: the sorted list holds the
    declarations of the list, each as often as the list does; no
    declaration comes before one with a lower line number; and the
    declarations of one line number (the pre-declared quantities all
    share -1) keep the order they had. *)
Theorem sort_by_lineno_stable (l : list Decl.t) :
  sort_by_lineno l ≡ₚ l
  ∧ StronglySorted lineno_le (sort_by_lineno l)
  ∧ ∀ n, filter (λ x, Decl.lineno x = n) (sort_by_lineno l)
         = filter (λ x, Decl.lineno x = n) l.
Proof.
  unfold sort_by_lineno. induction l as [|d l (IH1 & IH2 & IH3)].
  - repeat split; constructor.
  - simpl. split_and!.
    + by rewrite insert_by_lineno_perm, IH1.
    + by apply insert_by_lineno_sorted.
    + intros n. by rewrite insert_by_lineno_filter, !filter_cons, IH3.
Qed.

(** ** The replacement maps *)

(** X11. The map of the contribution section extends that of the
    per-document sections: a name whose declaration has no [contrib] is
    replaced by the same text in both, or in neither; a name whose
    declaration has a [contrib] is replaced by it, in parentheses; and
    a name without a declaration is replaced in neither. *)
Theorem get_replace_map_contrib (decls : gmap string Decl.t) (name : string) :
  get_replace_map decls contrib_replace !! name
  = match decls !! name with
    | Some d =>
        if 0 <? Py.len (Decl.contrib d)
        then Some ("(" +:+ Decl.contrib d +:+ ")")
        else get_replace_map decls Decl.macro !! name
    | None => None
    end
  ∧ dom (get_replace_map decls Decl.macro)
    ⊆ dom (get_replace_map decls contrib_replace).
Proof.
  assert (Hlookup : ∀ k, get_replace_map decls contrib_replace !! k
    = match decls !! k with
      | Some d =>
          if 0 <? Py.len (Decl.contrib d)
          then Some ("(" +:+ Decl.contrib d +:+ ")")
          else get_replace_map decls Decl.macro !! k
      | None => None
      end).
  { intros k. unfold get_replace_map. rewrite !lookup_omap.
    destruct (decls !! k) as [d|]; [|done]. simpl. unfold contrib_replace.
    destruct (0 <? Py.len (Decl.contrib d)) eqn:Hc; [|done]. by rewrite Hc. }
  split; [apply Hlookup|].
  intros k [m Hm]%elem_of_dom. apply elem_of_dom. rewrite Hlookup.
  destruct (decls !! k) as [d|] eqn:Hd.
  - destruct (0 <? Py.len (Decl.contrib d)); [done|]. by rewrite Hm.
  - unfold get_replace_map in Hm. by rewrite lookup_omap, Hd in Hm.
Qed.

(** ** The header comments *)

Section Comments.

Lemma dropwhile_empty_spec (l : list string) :
  ∃ n, l = replicate n "" ++ dropwhile_empty l
       ∧ head (dropwhile_empty l) ≠ Some "".
Proof.
  induction l as [|x l (n & Hl & Hh)]; [by exists 0%nat|].
  destruct x as [|c x].
  - exists (S n). simpl. split; [by rewrite <-Hl|done].
  - exists 0%nat. by split.
Qed.

End Comments.

(** X12. The loop that shortens [comments] removes the empty lines at
    the end and nothing else: [comments] is what is kept followed by
    empty lines only, and what is kept does not end with an empty
    line. *)
Theorem drop_trailing_empty_spec (comments : list string) :
  ∃ n, comments = drop_trailing_empty comments ++ replicate n ""
       ∧ last (drop_trailing_empty comments) ≠ Some "".
Proof.
  unfold drop_trailing_empty.
  destruct (dropwhile_empty_spec (reverse comments)) as (n & Hl & Hh).
  exists n. split.
  - apply (f_equal reverse) in Hl. rewrite reverse_involutive in Hl.
    rewrite Hl at 1. rewrite reverse_app. f_equal.
    clear. induction n as [|n IH]; [done|].
    simpl. rewrite reverse_cons, IH. clear.
    induction n as [|n IH]; [done|]. simpl. by rewrite IH.
  - by rewrite last_reverse.
Qed.

(** ** The declarations that are printed *)

Section OutputDecl.

Lemma for_each_out {A} (l : list A) (body : A → M ()) :
  (∀ x w, ∃ o, body x w = Ok () (set_out o w)) →
  ∀ w, ∃ o, for_each l body w = Ok () (set_out o w).
Proof.
  intros Hbody. induction l as [|x l IH]; intros w.
  - exists (w_out w). simpl. munfold. by rewrite set_out_id.
  - simpl. munfold. destruct (Hbody x w) as [o1 Ho1]. rewrite Ho1.
    destruct (IH (set_out o1 w)) as [o2 Ho2]. exists o2. by rewrite Ho2.
Qed.

Lemma for_each_skip {A} (l : list A) (body : A → M ()) (w : World) :
  Forall (λ x, body x w = Ok () w) l → for_each l body w = Ok () w.
Proof.
  induction 1 as [|x l Hx _ IH]; [done|]. simpl. munfold. by rewrite Hx.
Qed.

End OutputDecl.

(** X13. [output_decl] always returns, and changes nothing but
    [sys.stdout]: no declaration, no statement and no dictionary. *)
Theorem output_decl_frame (definitions : list Decl.t) (dent : string)
    (macros : gmap string string) (w : World) :
  ∃ o, output_decl definitions dent macros w = Ok () (set_out o w).
Proof.
  unfold output_decl.
  match goal with
  | |- context [for_each ?l ?body1 ≫= λ _, for_each _ ?body2] =>
      assert (H1 : ∀ w, ∃ o, for_each l body1 w = Ok () (set_out o w));
      [|assert (H2 : ∀ w, ∃ o, for_each l body2 w = Ok () (set_out o w))]
  end.
  - apply for_each_out. intros d w0.
    assert (Hskip : ∃ o, (mret () : M ()) w0 = Ok () (set_out o w0))
      by (exists (w_out w0); munfold; by rewrite set_out_id).
    destruct (_ || _); [|exact Hskip].
    destruct (Py.len (Decl.macro d) =? 0); [|exact Hskip].
    destruct (0 <? Py.len (Decl.init d)); [|by eexists].
    destruct (ctok (Decl.init d)) as [toks spaces]. by eexists.
  - apply for_each_out. intros d w0.
    destruct (0 <? Py.len (Decl.fninit d)); [by eexists|].
    exists (w_out w0). munfold. by rewrite set_out_id.
  - munfold. destruct (H1 w) as [o1 Ho1]. unfold mret, M_ret in Ho1. rewrite Ho1.
    destruct (H2 (set_out o1 w)) as [o2 Ho2]. unfold mret, M_ret in Ho2.
    exists o2. by rewrite Ho2.
Qed.

(** X14. [output_decl] prints nothing for the quantities that need no
    declaration in the generated code: when every declaration of the
    list has no [fninit] and either has a macro or is a pre-declared
    quantity (line -1) without an initialiser, the output is that of
    before the call. *)
Theorem output_decl_silent (definitions : list Decl.t) (dent : string)
    (macros : gmap string string) (w : World) :
  Forall (λ d, silent d = true) definitions →
  output_decl definitions dent macros w = Ok () w.
Proof.
  intros Hall. unfold output_decl.
  assert (Hsorted : Forall (λ d, silent d = true) (sort_by_lineno definitions)).
  { clear w. induction Hall as [|d l Hd _ IH]; [constructor|].
    unfold sort_by_lineno in *. simpl.
    rewrite insert_by_lineno_perm. by constructor. }
  unfold mbind, M_bind. rewrite for_each_skip.
  - apply for_each_skip. eapply Forall_impl; [exact Hsorted|]. intros d Hd.
    unfold silent in Hd. apply andb_true_iff in Hd as [Hf _].
    apply Z.eqb_eq in Hf. rewrite Hf. done.
  - eapply Forall_impl; [exact Hsorted|]. intros d Hd.
    unfold silent in Hd. apply andb_true_iff in Hd as [Hf Hd].
    apply Z.eqb_eq in Hf. rewrite Hf.
    apply orb_true_iff in Hd as [Hm|[Hl Hi]%andb_true_iff].
    + rewrite Hm. apply Z.ltb_lt in Hm.
      destruct (Z.eqb_spec (Py.len (Decl.macro d)) 0) as [H0|_]; [lia|].
      by destruct (negb _ || _ || _ || _).
    + apply Z.eqb_eq in Hi. rewrite Hl, Hi.
      destruct (Z.ltb_spec 0 (Py.len (Decl.macro d))) as [Hm|Hm]; [|done].
      by destruct (Z.eqb_spec (Py.len (Decl.macro d)) 0) as [H0|_]; [lia|].
Qed.

Lemma output_decl_silent_witness :
  Forall (λ d, silent d = true) silent_declarations
  ∧ output_decl silent_declarations "    " ∅ two_statements = Ok () two_statements.
Proof.
  assert (H : Forall (λ d, silent d = true) silent_declarations)
    by (repeat constructor).
  split; [exact H|]. exact (output_decl_silent silent_declarations "    " ∅ two_statements H).
Defined.

(** ** The end of the description inside a function body *)

Section ProcessDeclEof.

Variable args0 : string.

Lemma eqb_empty (line : string) : line ≠ "" → String.eqb line "" = false.
Proof. intros H. by apply String.eqb_neq. Qed.

Lemma passed_over_not_brace (line : string) :
  passed_over line = true → String.eqb (Py.rstrip line) "}" = false.
Proof.
  intros Hp. apply String.eqb_neq. intros Hr.
  unfold passed_over, Py.strip in Hp. by rewrite Hr in Hp.
Qed.

Lemma set_file_id (w : World) : set_file (w_file w) w = w.
Proof. by destruct w. Qed.

Lemma process_decl_loop_end (fuel : nat) (decl : nsref) (decl_used : usedref)
    (lineno : Z) (w : World) :
  process_decl_loop args0 fuel decl decl_used "" lineno w
  = (print_hash_line args0 lineno;;
     print_hash_error "unexpected EOF";;
     sys_exit 2) w.
Proof. by destruct fuel. Qed.

Lemma process_decl_loop_eof (decl : nsref) (decl_used : usedref) (file : list string) :
  ∀ (fuel : nat) (line : string) (lineno : Z) (w : World),
    w_file w = file →
    Forall (λ l, l ≠ "" ∧ passed_over l = true) (line :: file) →
    (List.length file < fuel)%nat →
    process_decl_loop args0 fuel decl decl_used line lineno w
    = (print_hash_line args0 (lineno + 1 + Z.of_nat (List.length file));;
       print_hash_error "unexpected EOF";;
       sys_exit 2) (set_file [] w).
Proof.
  induction file as [|l file IH]; intros fuel line lineno w Hw Hall Hfuel;
    apply Forall_cons in Hall as [[Hne Hp] Hall];
    (destruct fuel as [|fuel]; [simpl in Hfuel; lia|]);
    cbn [process_decl_loop];
    rewrite (eqb_empty line Hne), (passed_over_not_brace line Hp);
    cbn [negb andb];
    (assert (Hskip : (0 <? Py.len (Py.strip line))
                     && negb (bool_decide (Py.head (Py.strip line) = Some "#"%char))
                     = false)
      by (unfold passed_over in Hp; apply orb_true_iff in Hp as [Hp|Hp];
          [apply Z.eqb_eq in Hp; rewrite Hp; done
          |rewrite Hp; apply andb_false_r]));
    rewrite Hskip; unfold mbind, M_bind, mret, M_ret, readline; rewrite Hw.
  - rewrite process_decl_loop_end.
    replace (set_file [] w) with w by (rewrite <-Hw; symmetry; apply set_file_id).
    change (Z.of_nat (List.length [])) with 0. by rewrite Z.add_0_r.
  - rewrite (IH fuel l (lineno + 1) (set_file file w)); [|done|done|simpl in *; lia].
    replace (lineno + 1 + 1 + Z.of_nat (List.length file))
      with (lineno + 1 + Z.of_nat (List.length (l :: file)))
      by (cbn [List.length]; lia).
    reflexivity.
Qed.

End ProcessDeclEof.

(** X15. When the description ends inside a function body while
    [process_decl] is still reading declarations (every remaining line
    is empty or a comment), [process_decl] reads the file to its end,
    prints a [#line] directive with the number of the line after the
    last one and the error "unexpected EOF", and ends the program with
    status 2. *)
Theorem process_decl_eof (args0 : string) (fuel : nat) (decl : nsref)
    (decl_used : usedref) (lineno : Z) (w : World) :
  Forall (λ l, l ≠ "" ∧ passed_over l = true) (w_file w) →
  (List.length (w_file w) ≤ fuel)%nat →
  process_decl args0 fuel decl decl_used lineno w
  = (print_hash_line args0 (lineno + 1 + Z.of_nat (List.length (w_file w)));;
     print_hash_error "unexpected EOF";;
     sys_exit 2) (set_file [] w).
Proof.
  intros Hall Hfuel. unfold process_decl.
  unfold mbind at 1. unfold M_bind at 1. unfold readline.
  destruct (w_file w) as [|l file] eqn:Hw.
  - rewrite process_decl_loop_end.
    replace (set_file [] w) with w by (rewrite <-Hw; symmetry; apply set_file_id).
    change (Z.of_nat (List.length [])) with 0. by rewrite Z.add_0_r.
  - rewrite (process_decl_loop_eof args0 decl decl_used file fuel l (lineno + 1)
               (set_file file w)); [|done|done|simpl in *; lia].
    replace (lineno + 1 + 1 + Z.of_nat (List.length file))
      with (lineno + 1 + Z.of_nat (List.length (l :: file)))
      by (cbn [List.length]; lia).
    reflexivity.
Qed.

Lemma process_decl_eof_witness :
  process_decl "bm25.metric" 2 DecodeDecl DecodeUsed 4 unfinished_body
  = (print_hash_line "bm25.metric" 7;;
     print_hash_error "unexpected EOF";;
     sys_exit 2) (set_file [] unfinished_body).
Proof.
  refine (process_decl_eof "bm25.metric" 2 DecodeDecl DecodeUsed 4 unfinished_body _ _).
  - repeat constructor; done.
  - simpl. lia.
Defined.

(** ** A statement that the description does not finish *)

Section ExtendLoop.

Lemma unterminated_app (toks ntoks : list string) :
  unterminated toks = true →
  negb (bool_decide (py_last ntoks = Some ";")) = true →
  unterminated (toks ++ ntoks) = true.
Proof.
  unfold unterminated, py_last. intros Ht Hn.
  destruct ntoks as [|t ntoks _] using rev_ind; [by rewrite app_nil_r|].
  rewrite app_assoc, last_snoc. rewrite last_snoc in Hn.
  apply negb_true_iff, bool_decide_eq_false in Hn.
  apply negb_true_iff, String.eqb_neq. congruence.
Qed.

Lemma extend_loop_eof (file : list string) :
  ∀ (fuel : nat) (toks : list string) (line : string) (lineno : Z) (w : World),
    w_file w = file →
    unterminated toks = true →
    Forall (λ l, no_end l = true) file →
    (List.length file < fuel)%nat →
    extend_loop fuel toks line lineno w = Hang (set_file [] w).
Proof.
  induction file as [|l file IH]; intros fuel toks line lineno w Hw Ht Hall Hfuel;
    (destruct fuel as [|fuel]; [simpl in Hfuel; lia|]);
    cbn [extend_loop]; pose proof Ht as Ht'; unfold unterminated in Ht';
    destruct (py_last toks) as [t|]; try done;
    munfold; cbn [from_option]; apply negb_true_iff in Ht'; rewrite Ht', Hw.
  - f_equal. rewrite <-Hw. symmetry. apply set_file_id.
  - apply Forall_cons in Hall as [Hl Hall]. unfold readline. rewrite Hw.
    unfold no_end in Hl. destruct (ctok_nspace l) as [ntoks nchars] eqn:Hn.
    rewrite (IH fuel (toks ++ ntoks) _ _ (set_file file w)); try done.
    + by apply unterminated_app.
    + simpl in *. lia.
Qed.

End ExtendLoop.

(** X16. An assignment that the description does not finish makes
    [levelise] loop for ever: when the tokens read so far do not end
    with a semicolon and no remaining line of the file ends with one,
    the loop that extends the logical line reads the file to its end
    and then goes on reading empty strings, without end. *)
Theorem extend_loop_never_ends (fuel : nat) (toks : list string) (line : string)
    (lineno : Z) (w : World) :
  unterminated toks = true →
  Forall (λ l, no_end l = true) (w_file w) →
  (List.length (w_file w) < fuel)%nat →
  extend_loop fuel toks line lineno w = Hang (set_file [] w).
Proof. intros Ht Hall Hfuel. by apply (extend_loop_eof (w_file w)). Qed.

Lemma extend_loop_never_ends_witness :
  extend_loop 3 ["x"; "="; "1"] (ln "x = 1") 5 unfinished_statement
  = Hang (set_file [] unfinished_statement).
Proof.
  refine (extend_loop_never_ends 3 ["x"; "="; "1"] (ln "x = 1") 5
            unfinished_statement _ _ _).
  - reflexivity.
  - repeat constructor.
  - simpl. lia.
Defined.

(** ** A template without a header *)

(** X17. The template loop writes nothing until it has seen the end of
    the first comment: for a template none of whose lines holds the end
    of a comment, nothing is written, whatever markers the lines hold. *)
Theorem weave_no_header (name : string) (pre : list string)
    (template : list string) (w : World) :
  Forall (λ l, Py.find l "*/" = -1) template →
  weave name pre template true w = Ok () w.
Proof.
  induction 1 as [|l template Hl _ IH]; [done|]. simpl. by rewrite Hl.
Qed.

Lemma weave_no_header_witness :
  weave "bm25" [] unclosed_template true two_statements = Ok () two_statements.
Proof.
  refine (weave_no_header "bm25" [] unclosed_template two_statements _).
  repeat constructor.
Defined.

(** ** The name of the metric *)

Section MetricName.

Lemma str_app_one (c : ascii) (s : string) : String c "" +:+ s = String c s.
Proof. reflexivity. Qed.

Lemma split_no_char (sep : ascii) (x : string) :
  no_char sep x = true → Py.split sep x = [x].
Proof.
  induction x as [|c x IH]; [done|]. simpl. intros [Hc Hx]%andb_true_iff.
  apply negb_true_iff in Hc.
  destruct (split_cons_ne sep c x Hc) as (y & r & Hy & ->).
  rewrite (IH Hx) in Hy. by inversion Hy.
Qed.

Lemma split_app_sep (sep : ascii) (x s : string) :
  no_char sep x = true →
  Py.split sep (x +:+ String sep s) = x :: Py.split sep s.
Proof.
  induction x as [|c x IH]; [intros _; apply split_cons_eq|].
  simpl. intros [Hc Hx]%andb_true_iff. apply negb_true_iff in Hc.
  rewrite str_app_cons.
  destruct (split_cons_ne sep c (x +:+ String sep s) Hc) as (y & r & Hy & ->).
  rewrite (IH Hx) in Hy. by inversion Hy.
Qed.

Lemma split_nonempty (sep : ascii) (s : string) : Py.split sep s ≠ [].
Proof.
  destruct s as [|c s]; [done|].
  destruct (Ascii.eqb c sep) eqn:Hc.
  - apply Ascii.eqb_eq in Hc as ->. by rewrite split_cons_eq.
  - by destruct (split_cons_ne sep c s Hc) as (y & r & _ & ->).
Qed.

Lemma split_app_any (sep : ascii) (a b : string) :
  ∃ x pre, Py.split sep (a +:+ String sep b) = x :: pre ++ Py.split sep b.
Proof.
  induction a as [|c a (x & pre & IH)].
  - exists "", []. apply split_cons_eq.
  - rewrite str_app_cons. destruct (Ascii.eqb c sep) eqn:Hc.
    + apply Ascii.eqb_eq in Hc as ->. rewrite split_cons_eq, IH.
      by exists "", (x :: pre).
    + destruct (split_cons_ne sep c (a +:+ String sep b) Hc) as (y & r & Hy & ->).
      rewrite IH in Hy. inversion Hy; subst. by exists (String c y), pre.
Qed.

Lemma split_last (sep : ascii) (a b : string) :
  last (Py.split sep (a +:+ String sep b)) = last (Py.split sep b).
Proof.
  destruct (split_app_any sep a b) as (x & pre & ->).
  pose proof (split_nonempty sep b) as Hne.
  destruct (Py.split sep b) as [|y l] using rev_ind; [done|].
  by rewrite app_comm_cons, app_assoc, !last_snoc.
Qed.

End MetricName.

(** X18. The name of the metric is the base name of the description
    file without its extensions: for a path that ends in [base.ext],
    with or without directories before it, the name is [base]; for one
    that ends in a name without a dot, the name is that name. *)
Theorem metric_name_base (dir base ext : string) :
  no_char "/" base = true → no_char "." base = true → no_char "/" ext = true →
  metric_name (dir +:+ "/" +:+ base +:+ "." +:+ ext) = base
  ∧ metric_name (base +:+ "." +:+ ext) = base
  ∧ metric_name (dir +:+ "/" +:+ base) = base
  ∧ metric_name base = base.
Proof.
  intros Hb Hd He. rewrite !str_app_one.
  assert (Hfile : no_char "/" (base +:+ String "."%char ext) = true).
  { clear Hd. induction base as [|c base IH]; [done|].
    simpl in Hb. apply andb_true_iff in Hb as [Hc Hb].
    rewrite str_app_cons. simpl. by rewrite Hc, IH. }
  assert (Hparts : head (Py.split "." (base +:+ String "."%char ext)) = Some base)
    by (by rewrite (split_app_sep "." base ext Hd)).
  unfold metric_name. split_and!.
  - rewrite (split_last "/" dir (base +:+ String "."%char ext)), (split_no_char "/" _ Hfile).
    cbn [last default from_option id]. by rewrite Hparts.
  - rewrite (split_no_char "/" _ Hfile). cbn [last default from_option id]. by rewrite Hparts.
  - rewrite (split_last "/" dir base), (split_no_char "/" _ Hb).
    cbn [last default from_option id]. by rewrite (split_no_char "." _ Hd).
  - rewrite (split_no_char "/" _ Hb). cbn [last default from_option id].
    by rewrite (split_no_char "." _ Hd).
Qed.

Lemma metric_name_base_witness :
  metric_name ("metrics/okapi" +:+ "/" +:+ "bm25" +:+ "." +:+ "metric") = "bm25"
  ∧ metric_name ("bm25" +:+ "." +:+ "metric") = "bm25"
  ∧ metric_name ("metrics/okapi" +:+ "/" +:+ "bm25") = "bm25"
  ∧ metric_name "bm25" = "bm25".
Proof.
  refine (metric_name_base "metrics/okapi" "bm25" "metric" _ _ _); reflexivity.
Defined.

(** ** Template lines without markers *)

(** X19. The template loop copies the lines without markers as they
    are: for a template made of a header comment, the line that ends
    it, and lines none of which holds a marker, what is written is the
    lines after the header, character for character; the header and
    the line that ends it are not written. *)
Theorem weave_template_copies (args0 : string) (header : list string)
    (hend : string) (body : list string) (w : World) :
  Forall (λ l, Py.find l "*/" = -1) header →
  Py.find hend "*/" ≠ -1 →
  Forall marker_free body →
  ∃ o, weave_template args0 (header ++ hend :: body) w = Ok () (set_out o w)
       ∧ buf o = buf (w_out w) +:+ Py.concat body.
Proof.
  intros Hh Hend Hb. unfold weave_template. munfold.
  rewrite weave_header by done.
  destruct (weave_plain (metric_name args0)
              (pre_infer (w_post_used w) (w_post_decl w)
               ++ pre_infer (w_decode_used w) (w_decode_decl w)) body w Hb)
    as (o & Ho & Hbuf & _).
  by exists o.
Qed.

Lemma weave_template_copies_witness :
  ∃ o, weave_template example_metric
         (name_template_header ++ name_template_hend :: name_template_body1)
         (empty_world [])
       = Ok () (set_out o (empty_world []))
       ∧ buf o = buf (w_out (empty_world [])) +:+ Py.concat name_template_body1.
Proof.
  refine (weave_template_copies example_metric name_template_header
            name_template_hend name_template_body1 (empty_world []) _ _ _).
  - repeat constructor.
  - by vm_compute.
  - repeat constructor.
Defined.

(** ** Statements of the other levels *)

Section PrintLevelSkip.

Lemma print_level_loop_skip (level dent : Z) (macros : gmap string string)
    (prevline : Z) (w : World) (locs : list nat) :
  Forall (λ loc, ∃ s, w_heap w !! loc = Some s ∧ s_level s ≠ level) locs →
  print_level_loop locs level dent macros prevline w = Ok () w.
Proof.
  induction 1 as [|loc locs (s & Hs & Hl) _ IH]; [done|].
  cbn [print_level_loop]. munfold. rewrite Hs. cbn [from_option].
  by destruct (Z.eqb_spec (s_level s) level).
Qed.

End PrintLevelSkip.

(** X20. [print_level] prints the statements of its level only: when no
    statement of the list has the level asked for, the call returns and
    has printed nothing, not even the indentation. *)
Theorem print_level_other_levels (statements : listref) (level dent : Z)
    (macros : gmap string string) (w : World) :
  Forall (λ loc, ∃ s, w_heap w !! loc = Some s ∧ s_level s ≠ level)
         (get_list statements w) →
  print_level statements level dent macros w = Ok () w.
Proof.
  intros Hall. unfold print_level. munfold.
  by apply print_level_loop_skip.
Qed.

Lemma print_level_other_levels_witness :
  print_level Decode 1 4 ∅ two_statements = Ok () two_statements.
Proof.
  refine (print_level_other_levels Decode 1 4 ∅ two_statements _).
  repeat constructor; eexists; (split; [reflexivity|done]).
Defined.

(** ** The lines of the declarations *)

Section ProcessDeclReads.

Variable args0 : string.

Lemma len_pos (s : string) : (0 <? Py.len s) = negb (Py.len s =? 0).
Proof.
  unfold Py.len. destruct (Z.eqb_spec (Z.of_nat (String.length s)) 0) as [->|H]; [done|].
  apply Z.ltb_lt. lia.
Qed.

Lemma not_passed_over (line : string) :
  (0 <? Py.len (Py.strip line))
  && negb (bool_decide (Py.head (Py.strip line) = Some "#"%char))
  = negb (passed_over line).
Proof. unfold passed_over. by rewrite len_pos, negb_orb. Qed.

Lemma read_to_here (lineno : Z) (line : string) (rest : list string) :
  line ≠ "" → body_start line = true → read_to lineno (line :: rest) lineno line rest.
Proof.
  intros Hne Hb. exists []. split_and!; try done. simpl. lia.
Qed.

Lemma read_to_next (lineno : Z) (l : string) (file : list string) (n : Z)
    (line : string) (rest : list string) :
  read_past l = true → read_to (lineno + 1) file n line rest →
  read_to lineno (l :: file) n line rest.
Proof.
  intros Hl (before & -> & -> & Hall & Hne & Hb). exists (l :: before).
  split_and!; try done; [|by constructor]. cbn [List.length]. lia.
Qed.

Lemma process_decl_loop_exits (fuel : nat) (decl : nsref) (decl_used : usedref)
    (lineno : Z) (w : World) (Q : Z * string → World → Prop) :
  sat (process_decl_loop args0 fuel decl decl_used "" lineno) w Q exit_2.
Proof. destruct fuel; cbn; repeat sat_step; by unfold exit_2. Qed.

Lemma process_decl_loop_reads (decl : nsref) (decl_used : usedref) (fuel : nat) :
  ∀ (line : string) (lineno : Z) (w : World),
    sat (process_decl_loop args0 fuel decl decl_used line lineno) w
        (λ r w', read_to lineno (line :: w_file w) r.1 r.2 (w_file w')) exit_2.
Proof.
  induction fuel as [|fuel IH]; intros line lineno w; cbn [process_decl_loop].
  - destruct (String.eqb_spec line "") as [->|Hne]; cbn [negb andb].
    + repeat sat_step. by unfold exit_2.
    + destruct (String.eqb_spec (Py.rstrip line) "}") as [Hr|Hr]; cbn [negb].
      * sat_step. cbn [fst snd]. apply read_to_here; [done|]. unfold body_start.
        by rewrite Hr.
      * apply sat_no_fuel.
  - destruct (String.eqb_spec line "") as [->|Hne]; cbn [negb andb].
    { repeat sat_step. by unfold exit_2. }
    destruct (String.eqb (Py.rstrip line) "}") eqn:Hr; cbn [negb].
    { sat_step. cbn [fst snd]. apply read_to_here; [done|]. unfold body_start. by rewrite Hr. }
    assert (Hnext : ∀ w1, w_file w1 = w_file w → read_past line = true →
              sat (readline ≫= λ line0,
                     process_decl_loop args0 fuel decl decl_used line0 (lineno + 1)) w1
                (λ r w', read_to lineno (line :: w_file w) r.1 r.2 (w_file w'))
                exit_2).
    { intros w1 Hw1 Hpast. sat_step. apply sat_readline.
      - intros Hfile. apply process_decl_loop_exits.
      - intros l f Hfile. cbn beta. eapply sat_post; [apply IH|].
        intros r w' Hread. simpl in Hread. rewrite <-Hw1, Hfile.
        by apply read_to_next. }
    rewrite not_passed_over. sat_step.
    destruct (passed_over line) eqn:Hp; cbn [negb].
    + sat_step. cbn beta iota. apply Hnext; [done|].
      unfold read_past. by rewrite Hr, Hp.
    + destruct (ctok_nspace line) as [toks chars] eqn:Htok. cbn beta iota.
      sat_step. apply sat_unwrap. intros tok0 Htok0.
      destruct (isdecl tok0) eqn:Hd.
      * sat_step. eapply sat_post; [apply ins_decl_sat|].
        intros ? w1 (d & _ & _ & _ & _ & _ & _ & _ & _ & _ & Hsame & _).
        sat_step. cbn beta iota.
        apply Hnext; [by destruct Hsame as (_ & _ & _ & ?)|].
        unfold read_past, decl_line. rewrite Hr, Hp, Htok. cbn [fst negb andb orb].
        rewrite Htok0. cbn [from_option]. by rewrite Hd.
      * sat_step. cbn beta iota. sat_step. cbn [fst snd].
        apply read_to_here; [done|].
        unfold body_start. rewrite Hr, Hp, Htok. cbn [fst negb andb orb].
        rewrite Htok0. cbn [from_option]. by rewrite Hd.
Qed.

End ProcessDeclReads.

(** X21. [process_decl] returns the first line that is not a
    declaration, with its number.  When the call is made after line
    [lineno] has been read and returns [(n, line)], the lines read are
    lines that are empty, comments or declarations, none of them the
    closing brace, followed by [line]; [line] is the closing brace or
    starts with a token that is not a word of a declaration; [n] is the
    number of [line]; and the file is left after [line].  A call that
    ends the program ends it with status 2. *)
Theorem process_decl_reads (args0 : string) (fuel : nat) (decl : nsref)
    (decl_used : usedref) (lineno : Z) (w : World) :
  sat (process_decl args0 fuel decl decl_used lineno) w
      (λ r w', read_to (lineno + 1) (w_file w) r.1 r.2 (w_file w')) exit_2.
Proof.
  unfold process_decl. sat_step. apply sat_readline.
  - intros Hfile. apply process_decl_loop_exits.
  - intros l f Hfile. cbn beta. eapply sat_post; [apply process_decl_loop_reads|].
    intros r w' Hread. simpl in Hread. by rewrite Hfile.
Qed.

(** ** The statements that [levelise] adds *)

Section Appended.

Variable args0 : string.
Variable statements : listref.
Variable w0 : World.

Lemma appended_refl : appended statements w0 w0.
Proof. by repeat split. Qed.

Lemma appended_out (o : Stdout) (w : World) :
  appended statements w0 w → appended statements w0 (set_out o w).
Proof.
  intros (H1 & H2 & H3 & H4 & H5). split_and!; try done;
    first [by destruct statements
          |intros r; specialize (H3 r); by destruct r
          |intros r; specialize (H4 r); by destruct r].
Qed.

Lemma appended_used (u : usedref) (m : gmap string string) (w : World) :
  appended statements w0 w → appended statements w0 (set_used u m w).
Proof.
  intros (H1 & H2 & H3 & H4 & H5). split_and!; try done;
    first [by destruct statements
          |intros r; specialize (H3 r); by destruct r
          |intros r; specialize (H4 r); by destruct r].
Qed.

Lemma appended_file (l : string) (f : list string) (w : World) :
  w_file w = l :: f → appended statements w0 w → appended statements w0 (set_file f w).
Proof.
  intros Hf (H1 & H2 & H3 & H4 & H5). split_and!; try done;
    first [by destruct statements
          |intros r; specialize (H3 r); by destruct r
          |intros r; specialize (H4 r); by destruct r
          |idtac].
  simpl. etrans; [|exact H5]. rewrite Hf. by apply suffix_cons_r.
Qed.

Lemma appended_set_level (decl : nsref) (k : string) (d d' : Decl.t) (w : World) :
  get_ns decl w !! k = Some d → appended statements w0 w →
  appended statements w0 (set_ns decl (<[k := d']> (get_ns decl w)) w).
Proof.
  intros Hk (H1 & H2 & H3 & H4 & H5). split_and!; try done;
    first [by destruct statements
          |intros r; specialize (H3 r); by destruct r
          |idtac].
  intros r. rewrite <-H4, get_ns_set_ns. case_decide as Hr; [|done].
  subst r. by apply dom_insert_lookup_L.
Qed.

Lemma appended_append (s : Stmt) (w : World) :
  appended statements w0 w →
  appended statements w0
    (set_list statements (get_list statements w ++ [List.length (w_heap w)])
       (set_heap (w_heap w ++ [s]) w)).
Proof.
  intros (H1 & H2 & H3 & H4 & H5). split_and!.
  - simpl. by apply prefix_app_r.
  - destruct statements; simpl in *; by apply prefix_app_r.
  - intros r Hr. rewrite <-(H3 r Hr). by destruct r, statements.
  - intros r. rewrite <-H4. by destruct r.
  - done.
Qed.

Lemma operand_loop_appends (decl : nsref) (used : usedref) (lineno : Z)
    (toks : list string) :
  ∀ (level : Z) (w : World),
    appended statements w0 w →
    sat (operand_loop args0 decl used lineno toks level) w
        (λ _ w', appended statements w0 w') never_exits.
Proof.
  induction toks as [|t toks IH]; intros level w Hw; [done|].
  cbn [operand_loop]. repeat sat_step.
  all: apply IH; by repeat first [apply appended_out|apply appended_used].
Qed.

Lemma extend_loop_appends (fuel : nat) :
  ∀ (toks : list string) (line : string) (lineno : Z) (w : World),
    appended statements w0 w →
    sat (extend_loop fuel toks line lineno) w
        (λ _ w', appended statements w0 w') never_exits.
Proof.
  induction fuel as [|fuel IH]; intros toks line lineno w Hw; cbn [extend_loop].
  - by repeat sat_step.
  - repeat sat_step; try done. all: apply IH; first [done|eapply appended_file; eassumption].
Qed.

Lemma list_append_appends (s : Stmt) (w : World) :
  appended statements w0 w →
  sat (list_append statements s) w (λ _ w', appended statements w0 w') never_exits.
Proof. intros Hw. apply sat_modify. by apply appended_append. Qed.

Lemma levelise_line_appends (fuel : nat) (line : string) (lineno : Z) (decl : nsref)
    (used : usedref) (w : World) :
  appended statements w0 w →
  sat (levelise_line args0 fuel line lineno decl statements used) w
      (λ _ w', appended statements w0 w') never_exits.
Proof.
  intros Hw. unfold levelise_line. repeat sat_step.
  - eapply sat_post; [by apply extend_loop_appends|]. intros [[toks line'] lineno'] w1 Hw1.
    repeat sat_step.
    all: (eapply sat_post;
          [apply operand_loop_appends;
           by repeat first [apply appended_out|apply appended_used]|]).
    all: intros level w2 Hw2; repeat sat_step.
    all: (eapply sat_post;
          [apply list_append_appends; by try eapply appended_set_level|]).
    all: intros; by apply sat_ret.
  - eapply sat_post; [by apply list_append_appends|].
    intros; by apply sat_ret.
  - eapply sat_post; [by apply operand_loop_appends|].
    intros level w2 Hw2. repeat sat_step.
    eapply sat_post; [by apply list_append_appends|]. intros; by apply sat_ret.
Qed.

Lemma levelise_appended (decl : nsref) (used : usedref) (fuel : nat) :
  ∀ (line : string) (lineno : Z) (w : World),
    appended statements w0 w →
    sat (levelise args0 fuel line lineno decl statements used) w
        (λ _ w', appended statements w0 w') never_exits.
Proof.
  induction fuel as [|fuel IH]; intros line lineno w Hw; cbn [levelise].
  - by repeat sat_step.
  - repeat sat_step; [|done].
    eapply sat_post; [by apply levelise_line_appends|]. intros lineno' w1 Hw1.
    repeat sat_step; apply IH; first [done|eapply appended_file; eassumption].
Qed.

End Appended.

(** X22. [levelise] only adds statements, and never ends the program.
    When a call returns, the statement objects that existed are still
    there, followed by new ones; the list it was given starts with the
    statements it held and the other list is as it was; every
    namespace declares the names it declared before, no more and no
    fewer; and the file has only been read.  No call ends the program,
    also not one that prints an error. *)
Theorem levelise_appends (args0 : string) (fuel : nat) (line : string) (lineno : Z)
    (decl : nsref) (list : listref) (used : usedref) (w : World) :
  sat (levelise args0 fuel line lineno decl list used) w
      (λ _ w', appended list w w') never_exits.
Proof. apply levelise_appended, appended_refl. Qed.

(** ** The tokens after a marker *)

(** X23. [next_tok] skips whitespace tokens and nothing else: the list
    it is given is whitespace tokens followed by the list it returns,
    and the list it returns does not start with a whitespace token. *)
Theorem next_tok_spec (toks : list string) :
  ∃ skipped, toks = skipped ++ next_tok toks
             ∧ Forall (λ t, Py.str_isspace t = true) skipped
             ∧ from_option Py.str_isspace false (head (next_tok toks)) = false.
Proof.
  induction toks as [|t toks (skipped & Ht & Hs & Hh)]; [by exists []|].
  simpl. destruct (Py.str_isspace t) eqn:Hsp.
  - exists (t :: skipped). split_and!; [simpl; congruence|by constructor|done].
  - exists []. by split_and!.
Qed.

(** ** The header comments *)

Section HeaderComments.

Variable args0 : string.

Lemma operand_loop_file (decl : nsref) (used : usedref) (lineno : Z)
    (toks : list string) (P : World → Prop) :
  (∀ o w, P w → P (set_out o w)) → (∀ u m w, P w → P (set_used u m w)) →
  ∀ (level : Z) (w : World),
    P w → sat (operand_loop args0 decl used lineno toks level) w (λ _ w', P w') exit_2.
Proof.
  intros Ho Hu. induction toks as [|t toks IH]; intros level w Hw; [done|].
  cbn [operand_loop]. repeat sat_step.
  all: apply IH; auto.
Qed.

Lemma extend_loop_lineno (fuel : nat) :
  ∀ (toks : list string) (line : string) (lineno : Z) (w : World),
    sat (extend_loop fuel toks line lineno) w (λ r _, lineno ≤ r.2) exit_2.
Proof.
  induction fuel as [|fuel IH]; intros toks line lineno w; cbn [extend_loop].
  - repeat sat_step. simpl. lia.
  - repeat sat_step; try done; try (simpl; lia).
    all: eapply sat_post; [apply IH|]; intros r ? Hr; simpl in *; lia.
Qed.

Lemma levelise_line_lineno (fuel : nat) (line : string) (lineno : Z) (decl : nsref)
    (list : listref) (used : usedref) (w : World) :
  sat (levelise_line args0 fuel line lineno decl list used) w
      (λ n _, lineno ≤ n) exit_2.
Proof.
  unfold levelise_line. repeat sat_step.
  - eapply sat_post; [apply extend_loop_lineno|]. intros [[toks line'] lineno'] w1 Hw1.
    simpl in Hw1. repeat sat_step.
    all: (eapply sat_post;
          [apply (operand_loop_file _ _ _ _ (λ _, True)); done|]).
    all: intros level w2 _; repeat sat_step.
    all: unfold list_append; repeat sat_step; done.
  - unfold list_append. repeat sat_step. lia.
  - eapply sat_post; [apply (operand_loop_file _ _ _ _ (λ _, True)); done|].
    intros level w2 _. unfold list_append. repeat sat_step. lia.
Qed.

Lemma levelise_lineno (decl : nsref) (list : listref) (used : usedref) (fuel : nat) :
  ∀ (line : string) (lineno : Z) (w : World),
    sat (levelise args0 fuel line lineno decl list used) w
        (λ r _, lineno ≤ r.1) exit_2.
Proof.
  induction fuel as [|fuel IH]; intros line lineno w; cbn [levelise].
  - repeat sat_step. simpl. lia.
  - repeat sat_step; [|simpl; lia].
    eapply sat_post; [apply levelise_line_lineno|]. intros lineno' w1 Hw1.
    repeat sat_step.
    all: eapply sat_post; [apply IH|]; intros r ? Hr; simpl in *; lia.
Qed.

Lemma process_decl_lineno (fuel : nat) (decl : nsref) (decl_used : usedref)
    (lineno : Z) (w : World) :
  sat (process_decl args0 fuel decl decl_used lineno) w (λ r _, lineno ≤ r.1) exit_2.
Proof.
  eapply sat_post; [apply process_decl_reads|].
  intros r w' (before & _ & -> & _). lia.
Qed.

(** From the first line that is not of the header, the list of comments
    does not change. *)
Lemma parse_loop_past_header (fuel : nat) :
  ∀ (line : string) (lineno : Z) (comments : list string) (w : World),
    Z.of_nat (List.length comments) + 1 ≤ lineno →
    Z.of_nat (List.length comments) + 1 < lineno ∨ header_line line = false →
    sat (parse_loop args0 fuel line lineno comments) w
        (λ c _, c = comments) exit_2.
Proof.
  induction fuel as [|fuel IH]; intros line lineno comments w Hle Hpast;
    cbn [parse_loop].
  - by repeat sat_step.
  - destruct (String.eqb line "") eqn:Hline; cbn [negb]; [by sat_step|].
    sat_step.
    assert (Hnext : ∀ (n : Z) (w1 : World), lineno ≤ n →
              sat (readline ≫= λ line0, parse_loop args0 fuel line0 (n + 1) comments) w1
                  (λ c _, c = comments) exit_2).
    { intros n w1 Hn. sat_step. apply sat_readline; intros; apply IH; lia. }
    change ((Py.len (Py.strip line) =? 0)
            || bool_decide (Py.head (Py.strip line) = Some "#"%char))
      with (passed_over line).
    destruct (passed_over line) eqn:Hp.
    { assert (Hlt : Z.of_nat (List.length comments) + 1 < lineno).
      { destruct Hpast as [?|Hh]; [done|].
        unfold header_line in Hh. by rewrite Hline, Hp in Hh. }
      destruct (Z.leb_spec lineno (Z.of_nat (List.length comments) + 1)); [lia|].
      sat_step. cbn beta iota. apply Hnext. lia. }
    clear Hpast.
    destruct (_ && _).
    { repeat sat_step; try by unfold exit_2.
      all: eapply sat_post; [apply ins_decl_sat|]; intros ? w1 _.
      all: cbn beta; sat_step; cbn beta iota; apply Hnext; lia. }
    destruct (bool_decide (_ = ["post()"; "{"])).
    { sat_step. eapply sat_post; [apply process_decl_lineno|].
      intros [n1 l1] w1 Hn1. simpl in Hn1. sat_step.
      eapply sat_post; [apply levelise_lineno|].
      intros [n2 l2] w2 Hn2. simpl in Hn2.
      repeat sat_step; try by unfold exit_2.
      all: apply IH; lia. }
    destruct (bool_decide (_ = ["decode()"; "{"])).
    { sat_step. eapply sat_post; [apply process_decl_lineno|].
      intros [n1 l1] w1 Hn1. simpl in Hn1. sat_step.
      eapply sat_post; [apply levelise_lineno|].
      intros [n2 l2] w2 Hn2. simpl in Hn2.
      repeat sat_step; try by unfold exit_2.
      all: apply IH; lia. }
    repeat sat_step. by unfold exit_2.
Qed.

Lemma comment_text_unfold (line : string) :
  [comment_text line]
  = if 0 <? Py.len (Py.strip line)
    then [Py.lstrip (Py.slice_from (Py.strip line) 1)] else [""].
Proof. unfold comment_text. by destruct (0 <? Py.len (Py.strip line)). Qed.

(** In the header every line adds its text to the list of comments. *)
Lemma parse_loop_header (fuel : nat) :
  ∀ (line : string) (lineno : Z) (comments : list string) (w : World),
    lineno = Z.of_nat (List.length comments) + 1 →
    sat (parse_loop args0 fuel line lineno comments) w
        (λ c _, c = comments ++ map comment_text (header_lines (line :: w_file w)))
        exit_2.
Proof.
  induction fuel as [|fuel IH]; intros line lineno comments w Hn.
  - cbn [parse_loop]. destruct (String.eqb line "") eqn:Hline; cbn [negb].
    + sat_step. cbn [header_lines]. unfold header_line. rewrite Hline.
      simpl. by rewrite app_nil_r.
    + apply sat_no_fuel.
  - destruct (header_line line) eqn:Hh.
    + pose proof Hh as Hh'. unfold header_line in Hh'.
      apply andb_true_iff in Hh' as [Hline Hp]. apply negb_true_iff in Hline.
      cbn [parse_loop]. rewrite Hline. cbn [negb]. sat_step.
      change ((Py.len (Py.strip line) =? 0)
              || bool_decide (Py.head (Py.strip line) = Some "#"%char))
        with (passed_over line).
      rewrite Hp.
      destruct (Z.leb_spec lineno (Z.of_nat (List.length comments) + 1)); [|lia].
      assert (Hnext : sat (readline ≫= λ line0,
                             parse_loop args0 fuel line0 (lineno + 1)
                               (comments ++ [comment_text line])) w
                (λ c _, c = comments
                            ++ map comment_text (header_lines (line :: w_file w)))
                exit_2).
      { sat_step. cbn [header_lines]. rewrite Hh. cbn [map].
        apply sat_readline.
        - intros Hfile. eapply sat_post;
            [apply IH; rewrite length_app; simpl; lia|].
          intros c ? ->. rewrite Hfile. cbn [header_lines].
          unfold header_line at 1. cbn [String.eqb negb andb map].
          by rewrite app_nil_r.
        - intros l f Hfile. eapply sat_post;
            [apply IH; rewrite length_app; simpl; lia|].
          intros c ? ->. rewrite Hfile. by rewrite <-app_assoc. }
      rewrite comment_text_unfold in Hnext.
      destruct (0 <? Py.len (Py.strip line)); sat_step; cbn beta iota; exact Hnext.
    + cbn [header_lines]. rewrite Hh. cbn [map]. rewrite app_nil_r.
      apply parse_loop_past_header; [lia|by right].
Qed.

Lemma declare_builtins_file (f : list string) (w : World) :
  w_file w = f → sat (declare_builtins args0) w (λ _ w', w_file w' = f) exit_2.
Proof.
  assert (Hins : ∀ namespaces used line level macro lineno fninit pre contrib ex
                   (w1 : World),
            w_file w1 = f →
            sat (ins_decl args0 namespaces used line level macro lineno fninit pre
                   contrib ex) w1
                (λ _ w', w_file w' = f) exit_2).
  { intros ????????? ex w1 Hw1. eapply sat_post; [apply ins_decl_sat|].
    intros ? w2 (d & _ & _ & _ & _ & _ & _ & _ & _ & _ & (_ & _ & _ & Hf) & _).
    congruence. }
  intros Hw. unfold declare_builtins.
  repeat (apply sat_bind; eapply sat_post; [by apply Hins|];
          clear w Hw; intros ? w Hw).
  by apply sat_ret.
Qed.

Lemma propagate_loop_runs (has lacks : string) (locs : list nat) :
  ∀ (prevlevel : Z) (w : World),
    sat (propagate_loop has lacks locs prevlevel) w (λ _ _, True) exit_2.
Proof.
  induction locs as [|loc locs IH]; intros prevlevel w; [done|].
  cbn [propagate_loop]. repeat sat_step; apply IH.
Qed.

Lemma propagate_runs (statements : listref) (w : World) :
  sat (propagate statements) w (λ _ _, True) exit_2.
Proof.
  unfold propagate. repeat sat_step.
  eapply sat_post; [apply propagate_loop_runs|]. intros ? w1 _.
  apply propagate_loop_runs.
Qed.

End HeaderComments.

(** X24. The comments that the generated file quotes are those of the
    header of the description and no others: whenever the main program
    gets through the description, the list [comments] holds the texts
    of the empty lines and comment lines with which the file starts, in
    order (a comment without its [#] and the whitespace around it, an
    empty line as the empty string), less the empty texts at the end;
    comments further down are not kept. *)
Theorem parse_metric_comments (args0 : string) (fuel : nat) (file : list string) :
  sat (parse_metric args0 fuel) (empty_world file)
      (λ comments _,
         comments = drop_trailing_empty (map comment_text (header_lines file)))
      exit_2.
Proof.
  unfold parse_metric. sat_step.
  eapply sat_post; [by apply (declare_builtins_file args0 file)|]. intros ? w1 Hw1.
  assert (Hrest : ∀ (line : string) (w2 : World),
            header_lines (line :: w_file w2) = header_lines file →
            sat (parse_loop args0 fuel line 1 [] ≫= λ comments,
                   propagate Post;; propagate Decode;;
                   mret (drop_trailing_empty comments)) w2
                (λ comments _,
                   comments
                   = drop_trailing_empty (map comment_text (header_lines file)))
                exit_2).
  { intros line w2 Hlines. sat_step.
    eapply sat_post; [by apply (parse_loop_header args0 fuel line 1 [])|].
    intros c w3 ->. rewrite Hlines, app_nil_l.
    sat_step. eapply sat_post; [apply propagate_runs|]. intros ? w4 _.
    sat_step. eapply sat_post; [apply propagate_runs|]. intros ? w5 _.
    by sat_step. }
  sat_step. apply sat_readline.
  - intros Hfile. apply Hrest. by rewrite <-Hw1, Hfile.
  - intros l f Hfile. apply Hrest. by rewrite <-Hw1, Hfile.
Qed.

(** ** Reading the accumulator *)

Section Operands.

Variable args0 : string.






End Operands.




(** ** Markers that are not recognised *)

(** A marker that touches a parenthesis is not a marker for the template
    loop, which copies the line and writes no name; a marker written
    without blanks is written back with blanks. *)
Lemma weave_metric_name_glued :
  match weave_template example_metric glued_template (empty_world []) with
  | Ok _ w =>
      buf (w_out w)
      = ln "return f(/* METRIC_NAME */);"
        +:+ ln "int /* METRIC_NAME */ bm25_post(void);"
  | _ => False
  end.
Proof. by vm_compute. Qed.

(** ** The declarations of a body, one by one *)

Section FileFree.












End FileFree.


Section FeedDeclarations.

Variable args0 : string.




End FeedDeclarations.



(** ** A whole description *)

(** The main program gets through [example_description]: it keeps the
    first header comment, reads the file to its end, and gives the two
    statements of [decode] and the quantity [w] the level 3 of [f_dt]. *)
Example parse_metric_runs :
  match parse_metric "bm25.metric" 40 (empty_world example_description) with
  | Ok comments w =>
      comments = ["a simple metric"]
      ∧ statements_of Decode w
        = [Some {| s_lineno := 9; s_level := 3; s_text := "w = f_dt * k1;" |};
           Some {| s_lineno := 10; s_level := 3; s_text := "accumulator += w;" |}]
      ∧ statements_of Post w = []
      ∧ level_of DecodeDecl "w" w = Some 3
      ∧ level_of Params "k1" w = Some 1
      ∧ w_file w = []
      ∧ buf (w_out w) = ""
  | _ => False
  end.
Proof. vm_compute. by repeat split. Qed.
